(** * Mitre_Sim: a shallow embedding of the ATT&CK terminal browser

    The development follows the three scripts of the repository
    (super.py, cti-ta.py, cti-tech.py).  The scripts repeat the same
    functions; each function is embedded once and the copies are named in
    its comment.

    Conventions of the embedding
    - a Python [str] is a [string] of bytes (the keyword tables, the STIX
      type names and the navigation tokens are ASCII);
    - a STIX object, a Python [dict] read with [.get], is a record; a
      property that the scripts read with a default is an [option], with
      [None] for "key absent";
    - a raised exception is a value of [exn] carried by [result];
    - the bundle of objects is a list; an object's identity is its
      position in that list, which is what aliasing is stated with. *)

From Stdlib Require Import String Ascii List Arith ZArith Lia Bool.
From Stdlib Require Import Permutation Sorted DecimalString DecimalNat DecimalFacts.
From stdpp Require Import base option list strings.

Import ListNotations.
Local Open Scope string_scope.
Local Open Scope list_scope.

(** ** Exceptions *)

Inductive exn : Type :=
| ValueError
| IndexError
| ZeroDivisionError.

Inductive result (A : Type) : Type :=
| Ok (a : A)
| Raise (e : exn).

Arguments Ok {A} a.
Arguments Raise {A} e.

Definition rbind {A B : Type} (m : result A) (k : A -> result B) : result B :=
  match m with
  | Ok a => k a
  | Raise e => Raise e
  end.

Notation "'do' x <- m ; k" := (rbind m (fun x => k))
  (at level 10, x name, m at level 100, k at level 200).

(** ** Python string primitives *)

Module PyStr.

(** [c.lower()] on one ASCII character. *)
Definition lower_ascii (c : ascii) : ascii :=
  let n := nat_of_ascii c in
  if ((65 <=? n) && (n <=? 90))%nat then ascii_of_nat (n + 32) else c.

(** [c.upper()] on one ASCII character. *)
Definition upper_ascii (c : ascii) : ascii :=
  let n := nat_of_ascii c in
  if ((97 <=? n) && (n <=? 122))%nat then ascii_of_nat (n - 32) else c.

(** [s.lower()] *)
Fixpoint lower (s : string) : string :=
  match s with
  | EmptyString => EmptyString
  | String c s' => String (lower_ascii c) (lower s')
  end.

(** [s.capitalize()]: first character upper-cased, the rest lower-cased. *)
Definition capitalize (s : string) : string :=
  match s with
  | EmptyString => EmptyString
  | String c s' => String (upper_ascii c) (lower s')
  end.

(** [needle in hay] on strings: substring containment. *)
Fixpoint contains (needle hay : string) : bool :=
  String.prefix needle hay ||
  match hay with
  | EmptyString => false
  | String _ hay' => contains needle hay'
  end.

(** [s.replace('\n', ' ')] *)
Fixpoint replace_newlines (s : string) : string :=
  match s with
  | EmptyString => EmptyString
  | String c s' =>
      String (if Ascii.eqb c "010"%char then " "%char else c)
             (replace_newlines s')
  end.

(** [sep.join(parts)] *)
Definition join (sep : string) (parts : list string) : string :=
  String.concat sep parts.

(** [str(n)] for a non-negative integer. *)
Definition str_of_nat (n : nat) : string :=
  NilEmpty.string_of_uint (Nat.to_uint n).

(** The substring relation that [contains] decides. *)
Definition substring_of (needle hay : string) : Prop :=
  exists pre post, hay = (pre ++ needle ++ post)%string.

(** Case-insensitive containment, as the classifier tests it:
    [needle.lower() in hay.lower()]. *)
Definition occurs_ci (needle hay : string) : Prop :=
  substring_of (lower needle) (lower hay).

End PyStr.

(** ** The STIX bundle

    Fields that the scripts read with a default ([.get(k, default)]) are
    optional.  Fields read without a default ([type], [id], [name], the two
    refs of a relationship) are the required properties of the STIX objects
    they are read from, and are plain strings; a script reads a ref only
    after it has tested [type == 'relationship'].  [platforms] and
    [kill_chain_phase] are not STIX properties: they are the two keys that
    [get_techniques_for_actor] writes. *)

Module Stix.

Record StixObject : Type := mkObject {
  o_type : string;
  o_id : string;
  o_name : string;
  o_description : option string;
  relationship_type : string;
  source_ref : string;
  target_ref : string;
  x_mitre_platforms : option (list string);
  kill_chain_phases : option (list string);   (* the phase_name of each phase *)
  platforms : option string;
  kill_chain_phase : option string
}.

(** The parsed JSON document; [objects] is absent in a malformed payload. *)
Record Content : Type := mkContent {
  objects : option (list StixObject)
}.

(** [attack_stix_content.get('objects', [])] *)
Definition get_objects (attack_stix_content : Content) : list StixObject :=
  match objects attack_stix_content with
  | Some objs => objs
  | None => []
  end.

(** [tech_obj['platforms'] = v] *)
Definition set_platforms (v : string) (o : StixObject) : StixObject :=
  mkObject (o_type o) (o_id o) (o_name o) (o_description o)
           (relationship_type o) (source_ref o) (target_ref o)
           (x_mitre_platforms o) (kill_chain_phases o)
           (Some v) (kill_chain_phase o).

(** [tech_obj['kill_chain_phase'] = v] *)
Definition set_kill_chain_phase (v : string) (o : StixObject) : StixObject :=
  mkObject (o_type o) (o_id o) (o_name o) (o_description o)
           (relationship_type o) (source_ref o) (target_ref o)
           (x_mitre_platforms o) (kill_chain_phases o)
           (platforms o) (Some v).

(** Replaces the [relationship_type] of an object; used to state that the
    resolvers never read it. *)
Definition set_relationship_type (v : string) (o : StixObject) : StixObject :=
  mkObject (o_type o) (o_id o) (o_name o) (o_description o)
           v (source_ref o) (target_ref o)
           (x_mitre_platforms o) (kill_chain_phases o)
           (platforms o) (kill_chain_phase o).

End Stix.

Import Stix.

(** ** Classifier (super.py 52-71, cti-ta.py 48-67) *)

Module Classifier.

Import PyStr.

Definition geo_keywords : list string :=
  ["China"; "Russia"; "Iran"; "North Korea"; "USA"; "Vietnam"; "India"; "Europe"].

Definition activity_keywords : list string :=
  ["espionage"; "financial"; "theft"; "sabotage"; "ransomware"; "malware"].

Definition sector_keywords : list string :=
  ["government"; "financial"; "healthcare"; "technology"; "energy"; "military"].

(** The loop shared by the three extractors:
    [for keyword in keywords: if keyword.lower() in description.lower(): return ...] *)
Fixpoint first_keyword (keywords : list string) (description : string)
  : option string :=
  match keywords with
  | [] => None
  | keyword :: rest =>
      if contains (lower keyword) (lower description)
      then Some keyword
      else first_keyword rest description
  end.

Definition extract_geo_info (description : string) : string :=
  match first_keyword geo_keywords description with
  | Some keyword => keyword
  | None => "Unknown"
  end.

Definition extract_activity_type (description : string) : string :=
  match first_keyword activity_keywords description with
  | Some keyword => capitalize keyword
  | None => "Other"
  end.

Definition extract_target_sector (description : string) : string :=
  match first_keyword sector_keywords description with
  | Some keyword => capitalize keyword
  | None => "Other"
  end.

(** The three axes of the classifier, and the tables that belong to each. *)
Inductive Axis : Type := Geography | Activity | Sector.

Definition keywords_of (axis : Axis) : list string :=
  match axis with
  | Geography => geo_keywords
  | Activity => activity_keywords
  | Sector => sector_keywords
  end.

Definition tag_of (axis : Axis) (keyword : string) : string :=
  match axis with
  | Geography => keyword
  | Activity | Sector => capitalize keyword
  end.

Definition fallback_of (axis : Axis) : string :=
  match axis with
  | Geography => "Unknown"
  | Activity | Sector => "Other"
  end.

Definition classify (description : string) (axis : Axis) : string :=
  match axis with
  | Geography => extract_geo_info description
  | Activity => extract_activity_type description
  | Sector => extract_target_sector description
  end.

End Classifier.

(** ** [sorted(xs, key=...)] on string keys

    Python's [sorted] is stable and compares [str] keys lexicographically by
    code point.  A stable sort has one possible result, so the insertion
    sort below returns the list that [sorted] returns. *)

Module PySort.

Section Sorted.
Context {A : Type} (key : A -> string).

Fixpoint insert_sorted (x : A) (l : list A) : list A :=
  match l with
  | [] => [x]
  | y :: l' =>
      if String.leb (key x) (key y) then x :: y :: l'
      else y :: insert_sorted x l'
  end.

Definition sorted (l : list A) : list A := fold_right insert_sorted [] l.

(** The order [sorted] sorts by: [key(a) <= key(b)] on strings. *)
Definition key_le (a b : A) : Prop := String.leb (key a) (key b) = true.
End Sorted.

End PySort.

(** ** Actor summaries (super.py 36-50 and 73-77, cti-ta.py 32-46 and 69-73) *)

Module Actors.

Import Classifier.

Record ActorSummary : Type := mkActor {
  name : string;
  geo_info : string;
  activity_type : string;
  target_sector : string
}.

(** [obj.get('description', '')] *)
Definition description_or_empty (obj : StixObject) : string :=
  match o_description obj with
  | Some d => d
  | None => ""
  end.

(** The dict appended for one intrusion set. *)
Definition summarize (obj : StixObject) : ActorSummary :=
  let description := description_or_empty obj in
  mkActor (o_name obj)
          (extract_geo_info description)
          (extract_activity_type description)
          (extract_target_sector description).

Definition is_intrusion_set (obj : StixObject) : bool :=
  String.eqb (o_type obj) "intrusion-set".

Definition get_all_threat_actors (attack_stix_content : Content)
  : list ActorSummary :=
  let threat_actors :=
    flat_map (fun obj => if is_intrusion_set obj then [summarize obj] else [])
             (get_objects attack_stix_content) in
  PySort.sorted name threat_actors.

Fixpoint first_actor_id (objs : list StixObject) (actor_name : string)
  : option string :=
  match objs with
  | [] => None
  | obj :: rest =>
      if is_intrusion_set obj
         && String.eqb (PyStr.lower (o_name obj)) (PyStr.lower actor_name)
      then Some (o_id obj)
      else first_actor_id rest actor_name
  end.

Definition get_actor_id (attack_stix_content : Content) (actor_name : string)
  : option string :=
  first_actor_id (get_objects attack_stix_content) actor_name.

End Actors.

(** ** Relationship resolvers
    (super.py 79-89 and 222-261, cti-ta.py 75-85, cti-tech.py 31-70) *)

Module Resolver.

Import PyStr.

(** [next((item for item in objects
           if item.get('type') == ty and item.get('id') == ref), None)];
    the position found stands for the reference Python returns. *)
Definition find_object (objs : list StixObject) (ty ref : string)
  : option (nat * StixObject) :=
  list_find (fun item => o_type item = ty /\ o_id item = ref) objs.

(** The test of [get_techniques_for_actor] and [get_techniques_for_tool]:
    [type == 'relationship' and source_ref == anchor
     and 'attack-pattern' in target_ref]. *)
Definition links_from (anchor_id : string) (obj : StixObject) : bool :=
  String.eqb (o_type obj) "relationship"
  && String.eqb (source_ref obj) anchor_id
  && contains "attack-pattern" (target_ref obj).

(** The test of [get_actors_for_tool]:
    [type == 'relationship' and target_ref == tool_id
     and 'intrusion-set' in source_ref]. *)
Definition links_to (tool_id : string) (obj : StixObject) : bool :=
  String.eqb (o_type obj) "relationship"
  && String.eqb (target_ref obj) tool_id
  && contains "intrusion-set" (source_ref obj).

(** [', '.join(tech_obj.get('x_mitre_platforms', ['N/A']))] *)
Definition platforms_of (tech_obj : StixObject) : string :=
  join ", " (match x_mitre_platforms tech_obj with
             | Some ps => ps
             | None => ["N/A"]
             end).

(** [', '.join(phase['phase_name']
               for phase in tech_obj.get('kill_chain_phases', []))] *)
Definition phases_of (tech_obj : StixObject) : string :=
  join ", " (match kill_chain_phases tech_obj with
             | Some phases => phases
             | None => []
             end).

(** The two assignments that [get_techniques_for_actor] makes on the
    object it found. *)
Definition enrich (tech_obj : StixObject) : StixObject :=
  let tech_obj1 := set_platforms (platforms_of tech_obj) tech_obj in
  set_kill_chain_phase (phases_of tech_obj1) tech_obj1.

(** One iteration of the loop of [get_techniques_for_actor] on the object
    at position [i].  The state is the object list as it stands and the
    [techniques] list; [techniques] holds references, that is, positions
    in the object list. *)
Definition actor_step (actor_id : string)
           (st : list StixObject * list nat) (i : nat)
  : list StixObject * list nat :=
  let '(store, techniques) := st in
  match store !! i with
  | None => st
  | Some obj =>
      if links_from actor_id obj then
        match find_object store "attack-pattern" (target_ref obj) with
        | Some (j, tech_obj) =>
            (<[j := enrich tech_obj]> store, techniques ++ [j])
        | None => st
        end
      else st
  end.

(** Returns the bundle as the call leaves it, and the returned list of
    references into it. *)
Definition get_techniques_for_actor
           (attack_stix_content : Content) (actor_id : string)
  : Content * list nat :=
  match objects attack_stix_content with
  | None => (attack_stix_content, [])
  | Some objs =>
      let '(store, techniques) :=
        fold_left (actor_step actor_id) (seq 0 (length objs)) (objs, []) in
      (mkContent (Some store), techniques)
  end.

(** What the caller reads through the returned references. *)
Definition deref (attack_stix_content : Content) (refs : list nat)
  : list StixObject :=
  omap (fun j => get_objects attack_stix_content !! j) refs.

Definition techniques_seen
           (attack_stix_content : Content) (actor_id : string)
  : list StixObject :=
  let '(content', refs) :=
    get_techniques_for_actor attack_stix_content actor_id in
  deref content' refs.

(** The dict that [get_techniques_for_tool] appends;
    keys [kill_chain], [name], [platform], [description]. *)
Record ToolTechnique : Type := mkToolTechnique {
  kill_chain : string;
  tech_name : string;
  platform : string;
  tech_description : string
}.

(** [obj.get('description', 'No description available').replace('\n', ' ')
     + f" (ID: {obj.get('id')})"] *)
Definition related_description (obj : StixObject) : string :=
  (replace_newlines (match o_description obj with
                     | Some d => d
                     | None => "No description available"
                     end)
   ++ " (ID: " ++ o_id obj ++ ")")%string.

Definition tool_technique (tech_obj : StixObject) : ToolTechnique :=
  mkToolTechnique (phases_of tech_obj) (o_name tech_obj)
                  (platforms_of tech_obj) (related_description tech_obj).

(** The list built by the loop of [get_techniques_for_tool], before it is
    sorted. *)
Definition tool_techniques_scan (objs : list StixObject) (tool_id : string)
  : list ToolTechnique :=
  flat_map
    (fun obj =>
       if links_from tool_id obj then
         match find_object objs "attack-pattern" (target_ref obj) with
         | Some (_, tech_obj) => [tool_technique tech_obj]
         | None => []
         end
       else [])
    objs.

Definition get_techniques_for_tool
           (attack_stix_content : Content) (tool_id : string)
  : list ToolTechnique :=
  PySort.sorted kill_chain
    (tool_techniques_scan (get_objects attack_stix_content) tool_id).

(** The dict that [get_actors_for_tool] appends; keys [name],
    [description]. *)
Record ToolActor : Type := mkToolActor {
  actor_name : string;
  actor_description : string
}.

Definition tool_actor (actor_obj : StixObject) : ToolActor :=
  mkToolActor (o_name actor_obj) (related_description actor_obj).

Definition tool_actors_scan (objs : list StixObject) (tool_id : string)
  : list ToolActor :=
  flat_map
    (fun obj =>
       if links_to tool_id obj then
         match find_object objs "intrusion-set" (source_ref obj) with
         | Some (_, actor_obj) => [tool_actor actor_obj]
         | None => []
         end
       else [])
    objs.

Definition get_actors_for_tool
           (attack_stix_content : Content) (tool_id : string)
  : list ToolActor :=
  tool_actors_scan (get_objects attack_stix_content) tool_id.

(** [load_tools]: an insertion-ordered dict from tool id to
    [{name, description}]; assigning to a key already present replaces the
    value and keeps the key's position. *)
Record ToolEntry : Type := mkToolEntry {
  tool_name : string;
  tool_description : string
}.

Fixpoint dict_set {V : Type} (k : string) (v : V) (d : list (string * V))
  : list (string * V) :=
  match d with
  | [] => [(k, v)]
  | (k', v') :: rest =>
      if String.eqb k' k then (k', v) :: rest
      else (k', v') :: dict_set k v rest
  end.

Definition load_tools (attack_stix_content : Content)
  : list (string * ToolEntry) :=
  fold_left
    (fun tools obj =>
       if String.eqb (o_type obj) "tool" then
         dict_set (o_id obj)
                  (mkToolEntry (o_name obj)
                               (match o_description obj with
                                | Some d => d
                                | None => "No description available"
                                end))
                  tools
       else tools)
    (get_objects attack_stix_content) [].

(** *** The loops in closed form

    The three resolvers run the same loop: over the objects [part], keep
    those that pass [links], look the ref up among [objs] by type and id,
    and emit something for each hit.  [mk] gets the position and the
    object found. *)
Definition resolve_part {B : Type}
           (links : StixObject -> bool) (ref_of : StixObject -> string)
           (ty : string) (mk : nat -> StixObject -> B)
           (objs part : list StixObject) : list B :=
  flat_map
    (fun obj =>
       if links obj then
         match find_object objs ty (ref_of obj) with
         | Some (j, found) => [mk j found]
         | None => []
         end
       else [])
    part.

Definition resolve_scan {B : Type}
           (links : StixObject -> bool) (ref_of : StixObject -> string)
           (ty : string) (mk : nat -> StixObject -> B)
           (objs : list StixObject) : list B :=
  resolve_part links ref_of ty mk objs objs.

(** The references that [get_techniques_for_actor] collects. *)
Definition actor_refs (objs : list StixObject) (actor_id : string)
  : list nat :=
  resolve_scan (links_from actor_id) target_ref "attack-pattern"
               (fun j _ => j) objs.

(** The objects at the positions [refs] enriched, the others as they
    were. *)
Definition enrich_at (refs : list nat) (objs : list StixObject)
  : list StixObject :=
  imap (fun i o => if decide (i ∈ refs) then enrich o else o) objs.

(** Gives the relationship objects of a bundle other relationship
    types. *)
Definition relabel (f : StixObject -> string) (o : StixObject)
  : StixObject :=
  if String.eqb (o_type o) "relationship"
  then set_relationship_type (f o) o
  else o.

End Resolver.

(** ** Python numeric built-ins used by the scripts *)

Module PyNum.

(** [math.ceil(a / b)] for non-negative integers.  Python divides in
    floating point; for the list lengths and the divisors at most 6 that
    the scripts pass, the quotient is far below 2^50 and the float
    ceiling is the exact integer ceiling. *)
Definition ceil_div (a b : nat) : result nat :=
  if (b =? 0)%nat then Raise ZeroDivisionError
  else Ok (if (a mod b =? 0)%nat then a / b else a / b + 1).

(** [max(xs)] of a sequence of non-negative integers. *)
Definition py_max (xs : list nat) : result nat :=
  match xs with
  | [] => Raise ValueError
  | x :: xs' => Ok (fold_left Nat.max xs' x)
  end.

(** Whitespace that [int] skips at both ends (the ASCII part). *)
Definition is_space (c : ascii) : bool :=
  let n := nat_of_ascii c in
  (((9 <=? n) && (n <=? 13)) || ((28 <=? n) && (n <=? 32)))%nat.

Fixpoint lstrip (s : string) : string :=
  match s with
  | EmptyString => EmptyString
  | String c s' => if is_space c then lstrip s' else s
  end.

Fixpoint rstrip (s : string) : string :=
  match s with
  | EmptyString => EmptyString
  | String c s' =>
      let r := rstrip s' in
      if is_space c && String.eqb r EmptyString then EmptyString
      else String c r
  end.

Definition digit_of (c : ascii) : option nat :=
  let n := nat_of_ascii c in
  if ((48 <=? n) && (n <=? 57))%nat then Some (n - 48) else None.

(** Decimal digits with single underscores between digits.
    [after_digit] tells whether the previous character was a digit. *)
Fixpoint digits_value (acc : nat) (after_digit : bool) (s : string)
  : option nat :=
  match s with
  | EmptyString => if after_digit then Some acc else None
  | String c s' =>
      if Ascii.eqb c "_"%char then
        if after_digit then digits_value acc false s' else None
      else
        match digit_of c with
        | Some d => digits_value (10 * acc + d) true s'
        | None => None
        end
  end.

(** [int(s)] in base 10 on an ASCII string: surrounding whitespace, an
    optional sign, digits.  Non-ASCII digits, which [int] also accepts,
    are outside the byte-string model. *)
Definition py_int (s : string) : result Z :=
  let t := rstrip (lstrip s) in
  let parsed :=
    match t with
    | String "+" r => option_map Z.of_nat (digits_value 0 false r)
    | String "-" r =>
        option_map (fun n => Z.opp (Z.of_nat n)) (digits_value 0 false r)
    | _ => option_map Z.of_nat (digits_value 0 false t)
    end in
  match parsed with
  | Some n => Ok n
  | None => Raise ValueError
  end.

End PyNum.

(** ** Grouped views (super.py 123-220, cti-ta.py 119-216)

    [display_threat_actors_by_geo], [..._by_activity] and [..._by_sector]
    are the same function up to the key they group by. *)

Module Grouping.

Import Actors PyStr PyNum.

(** The insertion-ordered dict [geo_groups]: keys in first-seen order,
    each with the list of its members. *)
Definition Groups : Type := list (string * list ActorSummary).

(** [if k not in groups: groups[k] = []] then [groups[k].append(actor)] *)
Fixpoint bucket_append (k : string) (actor : ActorSummary) (groups : Groups)
  : Groups :=
  match groups with
  | [] => [(k, [actor])]
  | (k', members) :: rest =>
      if String.eqb k' k then (k', members ++ [actor]) :: rest
      else (k', members) :: bucket_append k actor rest
  end.

Definition group_actors (key_of : ActorSummary -> string)
           (threat_actors : list ActorSummary) : Groups :=
  fold_left (fun groups actor => bucket_append (key_of actor) actor groups)
            threat_actors [].

(** The rich [Table]: one column per bucket, the rows added so far. *)
Record Table : Type := mkTable {
  columns : list string;
  rows : list (list string)
}.

(** [f"{index}. {name}"] *)
Definition cell_text (index : nat) (actor_name : string) : string :=
  (str_of_nat index ++ ". " ++ actor_name)%string.

(** The body of the inner loop, for one bucket of one row.  The state is
    [(actor_list, index, row_data)]. *)
Definition cell_step (row : nat)
           (st : list string * nat * list string)
           (bucket : string * list ActorSummary)
  : list string * nat * list string :=
  let '(actor_list, index, row_data) := st in
  match snd bucket !! row with
  | Some actor =>
      (actor_list ++ [name actor], index + 1,
       row_data ++ [cell_text index (name actor)])
  | None => (actor_list, index, row_data ++ [""])
  end.

(** The body of the outer loop, for one row.  The state is
    [(actor_list, index, rows of the table)]. *)
Definition row_step (groups : Groups)
           (st : list string * nat * list (list string)) (row : nat)
  : list string * nat * list (list string) :=
  let '(actor_list, index, table_rows) := st in
  let '(actor_list', index', row_data) :=
    fold_left (cell_step row) groups (actor_list, index, []) in
  (actor_list', index', table_rows ++ [row_data]).

(** [width] is [console.size.width].  Returns the table that is printed
    and [actor_list]. *)
Definition display_grouped (key_of : ActorSummary -> string)
           (threat_actors : list ActorSummary) (width : nat)
  : result (Table * list string) :=
  let groups := group_actors key_of threat_actors in
  do max_actors <- py_max (map (fun g => length (snd g)) groups);
  let num_columns := Nat.min 6 (width / 15) in
  do num_rows <- ceil_div max_actors num_columns;
  let '(actor_list, _, table_rows) :=
    fold_left (row_step groups) (seq 0 num_rows) ([], 1, []) in
  Ok (mkTable (map fst groups) table_rows, actor_list).

Definition display_threat_actors_by_geo := display_grouped geo_info.
Definition display_threat_actors_by_activity := display_grouped activity_type.
Definition display_threat_actors_by_sector := display_grouped target_sector.

(** The layout the specification asks for: the column count clamped to at
    least 1. *)
Definition spec_num_columns (width : nat) : nat :=
  Nat.max 1 (Nat.min 6 (width / 15)).

(** The cells of a table in the order they are laid out: row by row, and
    within a row bucket by bucket. *)
Definition scan_cells (t : Table) : list string := concat (rows t).

(** The cells that show an entry. *)
Definition non_blank_cells (cells : list string) : list string :=
  filter (fun cell => cell <> "") cells.

(** The members of [row] across the buckets, left to right. *)
Definition row_members (groups : Groups) (row : nat) : list ActorSummary :=
  omap (fun bucket => snd bucket !! row) groups.

(** The members that a scan of [num_rows] rows meets, in order. *)
Definition scan_members (groups : Groups) (num_rows : nat)
  : list ActorSummary :=
  flat_map (row_members groups) (seq 0 num_rows).

(** The keys of a list, each once, in first-seen order: going through
    the list, a key not seen before goes to the end. *)
Definition first_seen (keys : list string) : list string :=
  fold_left (fun seen k => if decide (k ∈ seen) then seen else seen ++ [k])
            keys [].

(** The cells of [row] when the running counter stands at [index]. *)
Fixpoint row_cells (row index : nat) (groups : Groups) : list string :=
  match groups with
  | [] => []
  | bucket :: rest =>
      match snd bucket !! row with
      | Some actor =>
          cell_text index (name actor) :: row_cells row (index + 1) rest
      | None => "" :: row_cells row index rest
      end
  end.

(** The [n] rows from [row] on, when the counter stands at [index]. *)
Fixpoint rows_from (groups : Groups) (row n index : nat)
  : list (list string) :=
  match n with
  | 0 => []
  | S n' =>
      row_cells row index groups
      :: rows_from groups (S row) n' (index + length (row_members groups row))
  end.

End Grouping.

(** ** Pagination and selection
    (super.py 435-442 and 454-482, cti-ta.py 304-311 and 323-351,
     cti-tech.py 156-165) *)

Module Pager.

Import PyStr PyNum.

(** [page_size = 5] *)
Definition page_size : nat := 5.

(** [math.ceil(len(techniques) / page_size)] *)
Definition total_pages {A : Type} (items : list A) (size : nat)
  : result nat :=
  ceil_div (length items) size.

(** [items[start:stop]] for [0 <= start]. *)
Definition py_slice {A : Type} (start stop : nat) (items : list A) : list A :=
  take (stop - start) (drop start items).

(** [start_index], [end_index] and [page_techniques] of the paging loop. *)
Definition page_slice {A : Type} (items : list A) (size current_page : nat)
  : list A :=
  let start_index := (current_page - 1) * size in
  let end_index := start_index + size in
  py_slice start_index end_index items.

(** What one pass of the paging loop does with the line it read:
    [break], or go round again on a page, with or without
    "Invalid input." printed. *)
Inductive PagerOutcome : Type :=
| Break
| Continue (current_page : nat) (invalid_input : bool).

Definition pager_step (total current_page : nat) (input : string)
  : PagerOutcome :=
  let nav := lower input in
  if (current_page =? total)%nat then
    if String.eqb nav "" || String.eqb nav "q" then Break
    else if String.eqb nav "p" && (1 <? current_page)%nat
         then Continue (current_page - 1) false
    else Continue current_page true
  else
    if String.eqb nav "" && (current_page <? total)%nat
    then Continue (current_page + 1) false
    else if String.eqb nav "p" && (1 <? current_page)%nat
         then Continue (current_page - 1) false
    else if String.eqb nav "q" then Break
    else Continue current_page true.

(** The body of the [try] up to the range test:
    [choice = int(input) - 1;
     if choice < 0 or choice >= len(items): raise ValueError]. *)
Definition parse_choice (len : nat) (input : string) : result nat :=
  do n <- py_int input;
  let choice := (n - 1)%Z in
  if ((choice <? 0) || (choice >=? Z.of_nat len))%Z then Raise ValueError
  else Ok (Z.to_nat choice).

(** [items[choice]] after the range test. *)
Definition select {A : Type} (items : list A) (input : string) : result A :=
  do choice <- parse_choice (length items) input;
  match items !! choice with
  | Some a => Ok a
  | None => Raise IndexError
  end.

End Pager.

(** ** The interactive loops

    [main] of super.py is a state machine: a [Mode] is the prompt the
    program is blocked on together with the variables live at that point,
    and [step] runs the program from one prompt to the next.  The bundle is
    part of the state because [get_techniques_for_actor] writes into it. *)

Module Session.

Import Actors Resolver Grouping Pager PyStr.

(** The choices of the two [inquirer] menus. *)
Inductive MainChoice : Type := ThreatActors | Tools | Exit.
Inductive ActorChoice : Type :=
| ViewBy (axis : Classifier.Axis)
| BackToMainMenu.

Inductive Input : Type :=
| PickMain (c : MainChoice)
| PickActor (c : ActorChoice)
| Line (text : string).

Inductive Mode : Type :=
| MainMenu
| ActorMenu (threat_actors : list ActorSummary)
| ActorPrompt (actor_list : list string)
| Paging (techniques : list nat) (selected_actor : string)
         (total current_page : nat)
| ToolPrompt (tools : list (string * ToolEntry)) (tool_names : list string)
| ToolNav (tools : list (string * ToolEntry)) (tool_names : list string)
| Exited
| Crashed (e : exn).

Inductive Output : Type :=
| PrintedTable (t : Table)
| PrintedInvalidChoice
| PrintedActorNotFound (selected_actor : string)
| PrintedNoTechniques (selected_actor : string)
| PrintedTechniques (start_index : nat) (page : list StixObject)
| PrintedInvalidInput
| PrintedTools (tool_names : list string)
| PrintedRelated (selected_tool_name : string)
                 (techniques : list ToolTechnique) (actors : list ToolActor)
| Traceback (e : exn).

Definition State : Type := (Content * Mode)%type.

(** [display_techniques(page_techniques, ..., start_index + 1)] on the
    current page; the page is read through the references. *)
Definition show_page (content : Content) (techniques : list nat)
           (current_page : nat) : Output :=
  PrintedTechniques ((current_page - 1) * page_size + 1)
                    (deref content (page_slice techniques page_size current_page)).

(** super.py 444-463: from the selected name to the first page. *)
Definition open_actor (content : Content) (selected_actor : string)
  : State * list Output :=
  match get_actor_id content selected_actor with
  | None => ((content, MainMenu), [PrintedActorNotFound selected_actor])
  | Some actor_id =>
      if String.eqb actor_id "" then
        ((content, MainMenu), [PrintedActorNotFound selected_actor])
      else
        let '(content', techniques) :=
          get_techniques_for_actor content actor_id in
        match techniques with
        | [] => ((content', MainMenu), [PrintedNoTechniques selected_actor])
        | _ :: _ =>
            match total_pages techniques page_size with
            | Raise e => ((content', Crashed e), [])
            | Ok total =>
                ((content', Paging techniques selected_actor total 1),
                 [show_page content' techniques 1])
            end
        end
  end.

(** super.py 428-433: the grouped view that was asked for
    ('Geographical Region', 'Activity Type' or 'Target Sector'). *)
Definition show_grouped (axis : Classifier.Axis)
           (threat_actors : list ActorSummary) (width : nat)
  : result (Table * list string) :=
  match axis with
  | Classifier.Geography => display_threat_actors_by_geo threat_actors width
  | Classifier.Activity => display_threat_actors_by_activity threat_actors width
  | Classifier.Sector => display_threat_actors_by_sector threat_actors width
  end.

(** One pass of super.py's [main] from a prompt to the next prompt.
    [None]: the input is not one the prompt can deliver. *)
Definition step (width : nat) (st : State) (input : Input)
  : option (State * list Output) :=
  let '(content, mode) := st in
  match mode, input with
  | MainMenu, PickMain Exit => Some ((content, Exited), [])
  | MainMenu, PickMain ThreatActors =>
      Some ((content, ActorMenu (get_all_threat_actors content)), [])
  | MainMenu, PickMain Tools =>
      let tools := load_tools content in
      let tool_names := map (fun kv => tool_name (snd kv)) tools in
      Some ((content, ToolPrompt tools tool_names), [PrintedTools tool_names])
  | ActorMenu _, PickActor BackToMainMenu => Some ((content, MainMenu), [])
  | ActorMenu threat_actors, PickActor (ViewBy axis) =>
      match show_grouped axis threat_actors width with
      | Raise e => Some ((content, Crashed e), [])
      | Ok (table, actor_list) =>
          Some ((content, ActorPrompt actor_list), [PrintedTable table])
      end
  | ActorPrompt actor_list, Line text =>
      match select actor_list text with
      | Raise ValueError => Some ((content, MainMenu), [PrintedInvalidChoice])
      | Raise e => Some ((content, Crashed e), [])
      | Ok selected_actor => Some (open_actor content selected_actor)
      end
  | Paging techniques selected_actor total current_page, Line text =>
      match pager_step total current_page text with
      | Break => Some ((content, MainMenu), [])
      | Continue p invalid =>
          Some ((content, Paging techniques selected_actor total p),
                (if invalid then [PrintedInvalidInput] else [])
                ++ [show_page content techniques p])
      end
  | ToolPrompt tools tool_names, Line text =>
      match parse_choice (length tool_names) text with
      | Raise ValueError =>
          Some ((content, ToolPrompt tools tool_names),
                [PrintedInvalidChoice; PrintedTools tool_names])
      | Raise e => Some ((content, Crashed e), [])
      | Ok choice =>
          match tool_names !! choice, tools !! choice with
          | Some selected_tool_name, Some (selected_tool_id, _) =>
              Some ((content, ToolNav tools tool_names),
                    [PrintedRelated selected_tool_name
                       (get_techniques_for_tool content selected_tool_id)
                       (get_actors_for_tool content selected_tool_id)])
          | _, _ => Some ((content, Crashed IndexError), [])
          end
      end
  | ToolNav tools tool_names, Line text =>
      if String.eqb (lower text) "q" then Some ((content, MainMenu), [])
      else Some ((content, ToolPrompt tools tool_names),
                 [PrintedTools tool_names])
  | _, _ => None
  end.

(** A session of super.py: [step] along the inputs, from left to right,
    with everything printed on the way. *)
Fixpoint run (width : nat) (st : State) (inputs : list Input)
  : option (State * list Output) :=
  match inputs with
  | [] => Some (st, [])
  | input :: rest =>
      match step width st input with
      | None => None
      | Some (st', out) =>
          match run width st' rest with
          | None => None
          | Some (st'', out') => Some (st'', out ++ out')
          end
      end
  end.


End Session.

(** ** Sample bundles *)

Module Samples.

(** An entity object ([intrusion-set], [attack-pattern], [tool]) with the
    optional properties absent. *)
Definition entity (ty id nm : string) : StixObject :=
  mkObject ty id nm None "" "" "" None None None None.

(** A relationship object. *)
Definition relationship (id rt src tgt : string) : StixObject :=
  mkObject "relationship" id "" None rt src tgt None None None None.

(** Two intrusion sets that carry the same name. *)
Definition two_apt1 : Content :=
  mkContent (Some [entity "intrusion-set" "intrusion-set--1" "APT1";
                   entity "intrusion-set" "intrusion-set--2" "APT1"]).

(** One actor A (id intrusion-set--X1) that uses two techniques and a
    tool; a third relationship of the actor points at a technique that is
    not in the bundle. *)
Definition technique_T1 : StixObject :=
  mkObject "attack-pattern" "attack-pattern--T1" "Phishing"
           (Some "Sends a lure.") "" "" ""
           (Some ["Windows"; "Linux"]) (Some ["initial-access"]) None None.

Definition technique_T2 : StixObject :=
  entity "attack-pattern" "attack-pattern--T2" "Input Capture".

Definition small_bundle : Content :=
  mkContent (Some [
    entity "intrusion-set" "intrusion-set--X1" "A";
    technique_T1;
    technique_T2;
    entity "tool" "tool--1" "Mimikatz";
    relationship "relationship--1" "uses" "intrusion-set--X1" "attack-pattern--T1";
    relationship "relationship--2" "uses" "intrusion-set--X1" "attack-pattern--T9";
    relationship "relationship--3" "uses" "intrusion-set--X1" "attack-pattern--T2";
    relationship "relationship--4" "uses" "tool--1" "attack-pattern--T1";
    relationship "relationship--5" "uses" "intrusion-set--X1" "tool--1"
  ]).

(** [small_bundle] cut around relationship--2, whose target is absent. *)
Definition dangling : StixObject :=
  relationship "relationship--2" "uses" "intrusion-set--X1" "attack-pattern--T9".

Definition before_dangling : list StixObject :=
  [entity "intrusion-set" "intrusion-set--X1" "A";
   technique_T1;
   technique_T2;
   entity "tool" "tool--1" "Mimikatz";
   relationship "relationship--1" "uses" "intrusion-set--X1" "attack-pattern--T1"].

Definition after_dangling : list StixObject :=
  [relationship "relationship--3" "uses" "intrusion-set--X1" "attack-pattern--T2";
   relationship "relationship--4" "uses" "tool--1" "attack-pattern--T1";
   relationship "relationship--5" "uses" "intrusion-set--X1" "tool--1"].

(** A technique whose id does not contain the text "attack-pattern", and
    a tool related to it. *)
Definition odd_id_bundle : Content :=
  mkContent (Some [
    entity "tool" "tool--1" "Mimikatz";
    entity "attack-pattern" "T1" "Phishing";
    relationship "relationship--1" "uses" "tool--1" "T1"
  ]).

(** Actor A with six relationships to the techniques T1 and T2: six
    entries, two pages of techniques. *)
Definition six_links : Content :=
  mkContent (Some [
    entity "intrusion-set" "intrusion-set--X1" "A";
    technique_T1;
    technique_T2;
    relationship "relationship--1" "uses" "intrusion-set--X1" "attack-pattern--T1";
    relationship "relationship--2" "uses" "intrusion-set--X1" "attack-pattern--T2";
    relationship "relationship--3" "uses" "intrusion-set--X1" "attack-pattern--T1";
    relationship "relationship--4" "uses" "intrusion-set--X1" "attack-pattern--T2";
    relationship "relationship--5" "uses" "intrusion-set--X1" "attack-pattern--T1";
    relationship "relationship--6" "uses" "intrusion-set--X1" "attack-pattern--T2"
  ]).

(** Three classified actors, two of them in the bucket China. *)
Definition three_actors : list Actors.ActorSummary :=
  [Actors.mkActor "APT1" "China" "Espionage" "Government";
   Actors.mkActor "APT28" "Russia" "Espionage" "Military";
   Actors.mkActor "APT41" "China" "Financial" "Technology"].

End Samples.

(** ** What the writes of [get_techniques_for_actor] leave alone *)

Module Frame.

(** The object without the two keys that [get_techniques_for_actor]
    writes. *)
Definition erase (o : StixObject) : StixObject :=
  mkObject (o_type o) (o_id o) (o_name o) (o_description o)
           (relationship_type o) (source_ref o) (target_ref o)
           (x_mitre_platforms o) (kill_chain_phases o)
           None None.

(** Two bundles that differ at most in those two keys of their objects. *)
Definition same_raw (c1 c2 : Content) : Prop :=
  match objects c1, objects c2 with
  | Some objs1, Some objs2 => map erase objs1 = map erase objs2
  | None, None => True
  | _, _ => False
  end.

End Frame.

(** ** What holds at every prompt of super.py *)

Module SessionInv.

Import Actors Resolver Pager Session.

(** Why a grouped view can fail to be produced. *)
Definition crash_cause (width : nat) (content : Content) (e : exn) : Prop :=
  (e = ValueError /\ get_all_threat_actors content = [])
  \/ (e = ZeroDivisionError /\ get_all_threat_actors content <> []
      /\ width < 15).

(** The variables of a prompt as the program leaves them. *)
Definition wf_mode (width : nat) (content : Content) (mode : Mode) : Prop :=
  match mode with
  | MainMenu | Exited | ActorPrompt _ => True
  | ActorMenu threat_actors =>
      threat_actors = get_all_threat_actors content
  | Paging techniques _ total current_page =>
      techniques <> []
      /\ total_pages techniques page_size = Ok total
      /\ 1 <= current_page <= total
      /\ Forall (fun j => is_Some (get_objects content !! j)) techniques
  | ToolPrompt tools tool_names | ToolNav tools tool_names =>
      tool_names = map (fun kv => tool_name (snd kv)) tools
  | Crashed e => crash_cause width content e
  end.

End SessionInv.

(** ** cti-tech.py's session, line by line *)

Module TechSession.

Import Resolver Pager Session.

(** [tool_names] of cti-tech.py's [main]. *)
Definition tool_names_of (content : Content) : list string :=
  map (fun kv => tool_name (snd kv)) (load_tools content).

(** What one call of [main] prints for a line that selects a tool: the
    tool list, then the panel of the selected tool. *)
Definition tech_panel (content : Content) (text : string) : list Output :=
  match parse_choice (length (tool_names_of content)) text with
  | Ok choice =>
      match load_tools content !! choice with
      | Some (selected_tool_id, entry) =>
          [PrintedTools (tool_names_of content);
           PrintedRelated (tool_name entry)
             (get_techniques_for_tool content selected_tool_id)
             (get_actors_for_tool content selected_tool_id)]
      | None => []
      end
  | Raise _ => []
  end.

End TechSession.

(** ** The key of each grouped view *)

Module Views.

(** The field that the view of an axis groups by. *)
Definition axis_key (axis : Classifier.Axis)
  : Actors.ActorSummary -> string :=
  match axis with
  | Classifier.Geography => Actors.geo_info
  | Classifier.Activity => Actors.activity_type
  | Classifier.Sector => Actors.target_sector
  end.

(** The tags an axis can give: one per keyword, and the fallback. *)
Definition axis_tags (axis : Classifier.Axis) : list string :=
  map (Classifier.tag_of axis) (Classifier.keywords_of axis)
  ++ [Classifier.fallback_of axis].

End Views.

(** ** What the display functions put on the screen
    (super.py 91-121 and 285-328, cti-ta.py 87-117, cti-tech.py 101-144)

    A rich [Text] is the list of the pieces appended to it, each with its
    style; a table is its title and its rows; [console.print] calls are
    pairs of the text and the [end] string. *)

Module Display.

Import PyStr Resolver.

(** The string ['\n']. *)
Definition nl : string := String "010"%char EmptyString.

(** [s.strip()], on ASCII whitespace. *)
Definition strip (s : string) : string := PyNum.rstrip (PyNum.lstrip s).

(** [s[1:]] *)
Definition tail (s : string) : string :=
  match s with
  | EmptyString => EmptyString
  | String _ s' => s'
  end.

(** [s.split('\n')] *)
Fixpoint split_lines (s : string) : list string :=
  match s with
  | EmptyString => [EmptyString]
  | String c s' =>
      match split_lines s' with
      | line :: lines =>
          if Ascii.eqb c "010"%char then EmptyString :: line :: lines
          else String c line :: lines
      | [] => [String c EmptyString]
      end
  end.

(** No ['\n'] in the string. *)
Fixpoint no_newline (s : string) : Prop :=
  match s with
  | EmptyString => True
  | String c s' => c <> "010"%char /\ no_newline s'
  end.

(** One line of a description in [display_techniques]. *)
Definition formatted_description_line (line : string) : string :=
  if String.prefix "*" (strip line)
  then ("[green]•[/green]" ++ strip (tail line))%string
  else ("    " ++ line)%string.

(** [formatted_description] of [display_techniques]. *)
Definition formatted_description (description : string) : string :=
  join nl (map formatted_description_line (split_lines description)).

(** A row of the techniques table: No., Name, Platform, Kill Chain Phase,
    Description. *)
Record TechniqueRow : Type := mkRow {
  row_no : string;
  row_name : string;
  row_platform : string;
  row_kill_chain : string;
  row_description : string
}.

(** The [table.add_row] of [display_techniques] for the technique numbered
    [i]. *)
Definition technique_row (i : nat) (technique : StixObject) : TechniqueRow :=
  mkRow (str_of_nat i)
        (o_name technique)
        (match platforms technique with Some p => p | None => "N/A" end)
        (match kill_chain_phase technique with Some k => k | None => "N/A" end)
        (formatted_description
           (match o_description technique with Some d => d | None => "N/A" end)).

(** [for i, technique in enumerate(techniques, start=i)] *)
Fixpoint rows_enumerated (i : nat) (techniques : list StixObject)
  : list TechniqueRow :=
  match techniques with
  | [] => []
  | technique :: rest => technique_row i technique :: rows_enumerated (i + 1) rest
  end.

(** The table that [display_techniques] prints: its title and its rows. *)
Definition display_techniques (techniques : list StixObject)
           (actor_name : string) (total_techniques start_index : nat)
  : string * list TechniqueRow :=
  (("Techniques for " ++ actor_name ++ " - Total Techniques: "
    ++ str_of_nat total_techniques)%string,
   rows_enumerated start_index techniques).

(** The loop of [display_tools_in_columns] from number [index] on. *)
Fixpoint tool_items (index : nat) (tool_names : list string)
  : list (string * string) :=
  match tool_names with
  | [] => []
  | tool :: rest =>
      (("[bold yellow]" ++ str_of_nat index ++ "[/bold yellow]. "
        ++ tool ++ " ")%string,
       if (index mod 16 =? 0)%nat then (nl ++ nl)%string else "  ")
      :: tool_items (index + 1) rest
  end.

(** The [console.print] calls of [display_tools_in_columns]. *)
Definition display_tools_in_columns (tool_names : list string)
  : list (string * string) :=
  [((nl ++ nl ++ nl
     ++ "Select a tool to see which actors are known to use it:"
     ++ nl ++ nl)%string, nl)]
  ++ tool_items 1 tool_names
  ++ [(EmptyString, nl)].

(** *** rich [Text]s

    A [Text] is modelled by how the script builds it: the string and the
    style it is created with, and the [append] calls in their order, each
    with its string and its style.  Appending a [Text] that was created
    without a style appends what it was built of. *)
Definition Piece : Type := (string * option string)%type.

Record Text : Type := mkText {
  text_created : string;
  text_style : option string;
  text_appended : list Piece
}.

(** [Text.plain]: the characters of the pieces. *)
Definition plain (pieces : list Piece) : string :=
  String.concat EmptyString (map fst pieces).

(** [create_header] *)
Definition create_header (title : string) : string := title.

(** The loop over the techniques in [display_related_information];
    [current_kill_chain] is [None] before the first technique. *)
Fixpoint technique_entries (current_kill_chain : option string)
         (techniques : list ToolTechnique) : list Piece :=
  match techniques with
  | [] => []
  | technique :: rest =>
      (if decide (Some (kill_chain technique) = current_kill_chain) then []
       else [((nl ++ create_header (kill_chain technique) ++ nl)%string,
              Some "bold yellow")])
      ++ [((nl ++ "* Kill Chain: ")%string, Some "green");
          ((kill_chain technique ++ nl)%string, Some "cyan");
          ("    Name: ", Some "green");
          ((tech_name technique ++ nl)%string, Some "cyan");
          ("    Platform: ", Some "green");
          ((platform technique ++ nl)%string, Some "cyan");
          ("    Description: ", Some "green");
          ((tech_description technique ++ nl)%string, Some "cyan")]
      ++ technique_entries (Some (kill_chain technique)) rest
  end.

(** [technique_text] of [display_related_information]. *)
Definition technique_text (techniques : list ToolTechnique) : Text :=
  mkText (nl ++ "Associated Techniques:" ++ nl)%string (Some "bold yellow")
         (match techniques with
          | [] =>
              [(("No techniques found for this tool." ++ nl)%string,
                Some "bold red")]
          | _ :: _ => technique_entries None techniques
          end).

(** [actor_text] of [display_related_information]. *)
Definition actor_text (actors : list ToolActor) : Text :=
  mkText (nl ++ "Correlated Actors:" ++ nl)%string (Some "bold yellow")
         (match actors with
          | [] =>
              [(("No correlated actors found for this tool." ++ nl)%string,
                Some "bold red")]
          | _ :: _ =>
              flat_map
                (fun actor =>
                   [((nl ++ "* " ++ actor_name actor ++ ":")%string,
                     Some "yellow");
                    ((" " ++ actor_description actor ++ nl)%string,
                     Some "bold cyan")])
                actors
          end).

(** The kill-chain headers among appended pieces: the pieces appended in
    bold yellow. *)
Definition header_texts (pieces : list Piece) : list string :=
  map fst (filter (fun piece => snd piece = Some "bold yellow") pieces).

(** *** [format_description] (super.py 263-279, cti-tech.py 72-95) *)

(** [s.endswith(suffix)] *)
Fixpoint endswith (suffix s : string) : bool :=
  String.eqb suffix s
  || match s with
     | EmptyString => false
     | String _ s' => endswith suffix s'
     end.

(** What [.*?] followed by the character [close] matches at the head of
    [s], and what is left after it: the text up to the first [close], when
    no newline comes before it. *)
Fixpoint until (close : ascii) (s : string) : option (string * string) :=
  match s with
  | EmptyString => None
  | String c s' =>
      if Ascii.eqb c close then Some (EmptyString, s')
      else if Ascii.eqb c "010"%char then None
      else match until close s' with
           | Some (inner, rest) => Some (String c inner, rest)
           | None => None
           end
  end.

(** A match of the pattern [(\[.*?\]|\(.*?\))] at the head of [s]: the
    matched text and what follows it. *)
Definition match_here (s : string) : option (string * string) :=
  match s with
  | EmptyString => None
  | String c s' =>
      if Ascii.eqb c "["%char then
        match until "]"%char s' with
        | Some (inner, rest) => Some (String c (inner ++ "]"), rest)
        | None => None
        end
      else if Ascii.eqb c "("%char then
        match until ")"%char s' with
        | Some (inner, rest) => Some (String c (inner ++ ")"), rest)
        | None => None
        end
      else None
  end.

(** [re.split(r'(\[.*?\]|\(.*?\))', s)]: the text before the first match,
    the match, and the split of what follows it; [[s]] when nothing
    matches.  Every step takes a character off [s], so [fuel] at least
    the length of [s] is never used up. *)
Fixpoint re_split_from (fuel : nat) (s : string) : list string :=
  match fuel with
  | 0 => [s]
  | S fuel' =>
      match match_here s with
      | Some (matched, rest) =>
          EmptyString :: matched :: re_split_from fuel' rest
      | None =>
          match s with
          | EmptyString => [EmptyString]
          | String c s' =>
              match re_split_from fuel' s' with
              | part :: parts => String c part :: parts
              | [] => [String c EmptyString]
              end
          end
      end
  end.

Definition re_split (s : string) : list string :=
  re_split_from (String.length s) s.

(** [part.startswith("[") and part.endswith("]")] *)
Definition in_brackets (part : string) : bool :=
  String.prefix "[" part && endswith "]" part.

(** [part.startswith("(") and part.endswith(")")] *)
Definition in_parentheses (part : string) : bool :=
  String.prefix "(" part && endswith ")" part.

(** The shape of a list that begins with a part that is neither in
    brackets nor in parentheses and has such a part at every second
    position. *)
Inductive alternating : list string -> Prop :=
| alternating_last (text : string) :
    in_brackets text = false -> in_parentheses text = false ->
    alternating [text]
| alternating_cons (text matched : string) (parts : list string) :
    in_brackets text = false -> in_parentheses text = false ->
    alternating parts ->
    alternating (text :: matched :: parts).

(** The panel that [display_related_information] prints: its title, its
    width and the three texts that it holds, in their order. *)
Record Panel : Type := mkPanel {
  panel_title : string;
  panel_width : nat;
  panel_texts : list Text
}.

Section Related.

(** [format_description] and [panel_width] of the script at hand. *)
Variable format_description : string -> list Piece.
Variable width : nat.

Definition related_information
           (attack_stix_content : Content)
           (selected_tool_id selected_tool_name tool_description : string)
  : Panel :=
  let techniques :=
    get_techniques_for_tool attack_stix_content selected_tool_id in
  let actors := get_actors_for_tool attack_stix_content selected_tool_id in
  let description_text :=
    mkText nl None (format_description (tool_description ++ nl ++ nl)) in
  mkPanel selected_tool_name width
          [description_text; technique_text techniques; actor_text actors].

End Related.

(** super.py *)
Module Super.

Definition format_part (part : string) : Piece :=
  if in_brackets part then (part, Some "magenta")
  else if in_parentheses part then (part, Some "magenta")
  else (part, Some "bold green").

Definition formatted_line (line : string) : list Piece :=
  ("    ", None) :: map format_part (re_split line).

Definition format_description (text : string) : list Piece :=
  flat_map (fun line => formatted_line line ++ [(nl, None)]) (split_lines text).

Definition display_related_information :=
  related_information format_description 360.

End Super.

(** cti-tech.py *)
Module Tech.

(** The loop over the parts of a line, with the flag [skip_newline]. *)
Fixpoint format_parts (skip_newline : bool) (parts : list string)
  : list Piece :=
  match parts with
  | [] => []
  | part :: rest =>
      if in_brackets part then
        (if skip_newline then [] else [((nl ++ "    ")%string, None)])
        ++ (part, Some "magenta") :: format_parts false rest
      else if in_parentheses part then
        ((nl ++ "    ")%string, None)
        :: (part, Some "magenta") :: format_parts true rest
      else (part, Some "bold green") :: format_parts false rest
  end.

Definition formatted_line (line : string) : list Piece :=
  ("    ", None) :: format_parts false (re_split line).

Definition format_description (text : string) : list Piece :=
  flat_map (fun line => formatted_line line ++ [(nl, None)]) (split_lines text).

Definition display_related_information :=
  related_information format_description 300.

(** A line break and the indentation before a piece in magenta. *)
Definition break_before (piece : Piece) : list Piece :=
  if decide (snd piece = Some "magenta")
  then [((nl ++ "    ")%string, None); piece]
  else [piece].

End Tech.

End Display.

(** ** The loop of cti-ta.py (cti-ta.py 270-351)

    [main] of cti-ta.py has one menu, the three views and 'Exit', and
    computes [threat_actors] once, before its loop.  It prints what
    super.py prints, so its outputs are [Session.Output]s. *)

Module TaSession.

Import Actors Resolver Grouping Pager PyStr Session.

(** The choices of the [inquirer] menu. *)
Inductive Choice : Type :=
| View (axis : Classifier.Axis)
| ExitMenu.

Inductive TaInput : Type :=
| Pick (c : Choice)
| Typed (text : string).

Inductive TaMode : Type :=
| Menu
| NumberPrompt (actor_list : list string)
| Pages (techniques : list nat) (selected_actor : string)
        (total current_page : nat)
| Done
| Failed (e : exn).

Definition TaState : Type := (Content * TaMode)%type.

(** cti-ta.py 314-331: from the selected name to the first page. *)
Definition open_actor (content : Content) (selected_actor : string)
  : TaState * list Output :=
  match get_actor_id content selected_actor with
  | None => ((content, Menu), [PrintedActorNotFound selected_actor])
  | Some actor_id =>
      if String.eqb actor_id "" then
        ((content, Menu), [PrintedActorNotFound selected_actor])
      else
        let '(content', techniques) :=
          get_techniques_for_actor content actor_id in
        match techniques with
        | [] => ((content', Menu), [PrintedNoTechniques selected_actor])
        | _ :: _ =>
            match total_pages techniques page_size with
            | Raise e => ((content', Failed e), [])
            | Ok total =>
                ((content', Pages techniques selected_actor total 1),
                 [show_page content' techniques 1])
            end
        end
  end.

(** One pass of the loop from a prompt to the next prompt; [threat_actors]
    is the list computed before the loop.  [None]: the input is not one
    the prompt can deliver. *)
Definition step (threat_actors : list ActorSummary) (width : nat)
           (st : TaState) (input : TaInput)
  : option (TaState * list Output) :=
  let '(content, mode) := st in
  match mode, input with
  | Menu, Pick ExitMenu => Some ((content, Done), [])
  | Menu, Pick (View axis) =>
      match show_grouped axis threat_actors width with
      | Raise e => Some ((content, Failed e), [])
      | Ok (table, actor_list) =>
          Some ((content, NumberPrompt actor_list), [PrintedTable table])
      end
  | NumberPrompt actor_list, Typed text =>
      match select actor_list text with
      | Raise ValueError => Some ((content, Menu), [PrintedInvalidChoice])
      | Raise e => Some ((content, Failed e), [])
      | Ok selected_actor => Some (open_actor content selected_actor)
      end
  | Pages techniques selected_actor total current_page, Typed text =>
      match pager_step total current_page text with
      | Break => Some ((content, Menu), [])
      | Continue p invalid =>
          Some ((content, Pages techniques selected_actor total p),
                (if invalid then [PrintedInvalidInput] else [])
                ++ [show_page content techniques p])
      end
  | _, _ => None
  end.

Fixpoint run (threat_actors : list ActorSummary) (width : nat)
         (st : TaState) (inputs : list TaInput)
  : option (TaState * list Output) :=
  match inputs with
  | [] => Some (st, [])
  | input :: rest =>
      match step threat_actors width st input with
      | None => None
      | Some (st', out) =>
          match run threat_actors width st' rest with
          | None => None
          | Some (st'', out') => Some (st'', out ++ out')
          end
      end
  end.

(** [main] on a loaded bundle. *)
Definition main (width : nat) (attack_stix_content : Content)
           (inputs : list TaInput) : option (TaState * list Output) :=
  let threat_actors := get_all_threat_actors attack_stix_content in
  run threat_actors width (attack_stix_content, Menu) inputs.

(** The same session at the prompts of super.py: a view is reached there
    through 'Threat Actors' in the main menu. *)
Definition in_super (input : TaInput) : list Input :=
  match input with
  | Pick (View axis) => [PickMain ThreatActors; PickActor (ViewBy axis)]
  | Pick ExitMenu => [PickMain Exit]
  | Typed text => [Line text]
  end.

Definition mode_in_super (mode : TaMode) : Mode :=
  match mode with
  | Menu => MainMenu
  | NumberPrompt actor_list => ActorPrompt actor_list
  | Pages techniques selected_actor total current_page =>
      Paging techniques selected_actor total current_page
  | Done => Exited
  | Failed e => Crashed e
  end.

Definition result_in_super (r : option (TaState * list Output))
  : option (State * list Output) :=
  match r with
  | None => None
  | Some ((content, mode), out) => Some ((content, mode_in_super mode), out)
  end.

End TaSession.

(** * Properties *)

(** ** Strings *)

Section StringFacts.

Import PyStr.

Lemma append_cons (c : ascii) (s t : string) :
  (String c s ++ t)%string = String c (s ++ t)%string.
Proof. reflexivity. Qed.

Lemma append_nil (t : string) : (EmptyString ++ t)%string = t.
Proof. reflexivity. Qed.

Lemma prefix_iff (p s : string) :
  String.prefix p s = true <-> exists post, s = (p ++ post)%string.
Proof.
  revert s; induction p as [|c p IH]; intros s.
  - destruct s; simpl; split; eauto.
  - destruct s as [|d s]; simpl.
    + split; [discriminate|].
      intros [post H]. rewrite append_cons in H. discriminate.
    + destruct (ascii_dec c d) as [->|Hne].
      * rewrite IH. split; intros [post H]; exists post;
          rewrite append_cons in *; congruence.
      * split; [discriminate|].
        intros [post H]. rewrite append_cons in H. congruence.
Qed.

Lemma contains_iff (needle hay : string) :
  contains needle hay = true <-> substring_of needle hay.
Proof.
  unfold substring_of.
  induction hay as [|c hay IH]; cbn [contains].
  - rewrite orb_false_r, prefix_iff. split.
    + intros [post H]. exists EmptyString, post. exact H.
    + intros [pre [post H]]. destruct pre; [eauto|].
      rewrite append_cons in H. discriminate.
  - rewrite orb_true_iff, prefix_iff, IH. split.
    + intros [[post H] | [pre [post H]]].
      * exists EmptyString, post. exact H.
      * exists (String c pre), post. rewrite append_cons. congruence.
    + intros [pre [post H]]. destruct pre as [|d pre].
      * left. eauto.
      * right. exists pre, post. rewrite append_cons in H. congruence.
Qed.

Lemma contains_false_iff (needle hay : string) :
  contains needle hay = false <-> ~ substring_of needle hay.
Proof.
  rewrite <- contains_iff. destruct (contains needle hay); split; intros H;
    congruence.
Qed.

End StringFacts.

(** ** Classifier *)

Section ClassifierFacts.

Import PyStr Classifier.

Lemma first_keyword_Some (keywords : list string) (description keyword : string) :
  first_keyword keywords description = Some keyword ->
  exists pre post,
    keywords = pre ++ keyword :: post
    /\ occurs_ci keyword description
    /\ Forall (fun k => ~ occurs_ci k description) pre.
Proof.
  induction keywords as [|k rest IH]; simpl; [discriminate|].
  destruct (contains (lower k) (lower description)) eqn:E.
  - intros [= <-]. exists [], rest. repeat split; [|constructor].
    apply contains_iff, E.
  - intros H. destruct (IH H) as (pre & post & -> & Hocc & Hpre).
    exists (k :: pre), post. repeat split; [exact Hocc|].
    constructor; [|exact Hpre]. apply contains_false_iff, E.
Qed.

Lemma first_keyword_None (keywords : list string) (description : string) :
  first_keyword keywords description = None ->
  Forall (fun k => ~ occurs_ci k description) keywords.
Proof.
  induction keywords as [|k rest IH]; simpl; [constructor|].
  destruct (contains (lower k) (lower description)) eqn:E; [discriminate|].
  intros H. constructor; [|auto]. apply contains_false_iff, E.
Qed.

Lemma classify_first_keyword (description : string) (axis : Axis) :
  classify description axis =
  match first_keyword (keywords_of axis) description with
  | Some keyword => tag_of axis keyword
  | None => fallback_of axis
  end.
Proof. destruct axis; reflexivity. Qed.

End ClassifierFacts.

(** C6.  On every axis [classify] returns one tag.  Either some keyword of
    the axis's list occurs in the description as a case-insensitive
    substring, and the tag is that of the first such keyword in list order
    (the keyword itself for geography, the keyword capitalized for activity
    and sector), whatever else occurs and wherever in the text; or no
    keyword occurs and the tag is the axis's fallback.  An empty description
    gets the fallbacks, and so does an intrusion set without a
    description. *)
Theorem classify_first_match_wins :
  forall (description : string) (axis : Classifier.Axis),
    ((exists pre keyword post,
         Classifier.keywords_of axis = pre ++ keyword :: post
         /\ PyStr.occurs_ci keyword description
         /\ Forall (fun k => ~ PyStr.occurs_ci k description) pre
         /\ Classifier.classify description axis =
            match axis with
            | Classifier.Geography => keyword
            | _ => PyStr.capitalize keyword
            end)
     \/ (Forall (fun k => ~ PyStr.occurs_ci k description)
                (Classifier.keywords_of axis)
         /\ Classifier.classify description axis =
            match axis with
            | Classifier.Geography => "Unknown"
            | _ => "Other"
            end))
    /\ Classifier.classify "" axis = Classifier.fallback_of axis
    /\ (forall ty id nm rt src tgt plats phases p k,
           Actors.summarize
             (mkObject ty id nm None rt src tgt plats phases p k)
           = Actors.mkActor nm "Unknown" "Other" "Other").
Proof.
  intros description axis. split; [|split].
  - rewrite classify_first_keyword.
    destruct (Classifier.first_keyword (Classifier.keywords_of axis) description)
      as [keyword|] eqn:E.
    + left. destruct (first_keyword_Some _ _ _ E) as (pre & post & Hk & Hocc & Hpre).
      exists pre, keyword, post.
      split; [exact Hk|]. split; [exact Hocc|]. split; [exact Hpre|].
      destruct axis; reflexivity.
    + right. split; [apply first_keyword_None, E|]. destruct axis; reflexivity.
  - destruct axis; reflexivity.
  - reflexivity.
Qed.

(** The scenario of the specification. *)
Example classify_scenario :
  let d := "State-sponsored group targeting financial institutions in China" in
  Classifier.classify d Classifier.Geography = "China"
  /\ Classifier.classify d Classifier.Activity = "Financial"
  /\ Classifier.classify d Classifier.Sector = "Financial".
Proof. repeat split; vm_compute; reflexivity. Qed.

(** List order, not text position, decides: "india" comes first in the
    text, "China" first in the list. *)
Example classify_list_order :
  Classifier.classify "Seen in INDIA and later in china" Classifier.Geography
  = "China".
Proof. vm_compute. reflexivity. Qed.

(** ** [sorted] *)

Section SortFacts.

Context {A : Type} (key : A -> string).

Local Abbreviation key_le := (PySort.key_le key).

Lemma string_leb_refl (s : string) : String.leb s s = true.
Proof.
  unfold String.leb.
  pose proof (String.compare_antisym s s) as H.
  destruct (String.compare s s); simpl in H; congruence.
Qed.

Lemma insert_sorted_Permutation (x : A) (l : list A) :
  Permutation (PySort.insert_sorted key x l) (x :: l).
Proof.
  induction l as [|y l IH]; simpl; [reflexivity|].
  destruct (String.leb (key x) (key y)); [reflexivity|].
  rewrite IH. apply perm_swap.
Qed.

Lemma sorted_Permutation (l : list A) : Permutation (PySort.sorted key l) l.
Proof.
  induction l as [|x l IH]; simpl; [reflexivity|].
  rewrite insert_sorted_Permutation. now constructor.
Qed.

Lemma insert_sorted_HdRel (x y : A) (l : list A) :
  key_le y x -> HdRel key_le y l -> HdRel key_le y (PySort.insert_sorted key x l).
Proof.
  intros Hyx Hhd. destruct l as [|z l]; simpl.
  - now constructor.
  - destruct (String.leb (key x) (key z)); constructor; [exact Hyx|].
    now inversion Hhd.
Qed.

Lemma insert_sorted_Sorted (x : A) (l : list A) :
  Sorted key_le l -> Sorted key_le (PySort.insert_sorted key x l).
Proof.
  induction 1 as [|y l Hs IH Hhd]; simpl.
  - repeat constructor.
  - destruct (String.leb (key x) (key y)) eqn:E.
    + constructor; [now constructor|]. constructor. exact E.
    + constructor; [exact IH|].
      apply insert_sorted_HdRel; [|exact Hhd].
      destruct (String.leb_total (key x) (key y)) as [H|H]; [congruence|exact H].
Qed.

Lemma sorted_Sorted (l : list A) : Sorted key_le (PySort.sorted key l).
Proof.
  induction l as [|x l IH]; simpl; [constructor|].
  now apply insert_sorted_Sorted.
Qed.

(** Stability: the elements of one key keep their order. *)
Lemma insert_sorted_filter (k : string) (x : A) (l : list A) :
  filter (fun a => key a = k) (PySort.insert_sorted key x l)
  = filter (fun a => key a = k) (x :: l).
Proof.
  induction l as [|y l IH]; simpl; [reflexivity|].
  destruct (String.leb (key x) (key y)) eqn:E; [reflexivity|].
  rewrite filter_cons, IH, !filter_cons.
  destruct (decide (key x = k)) as [Hx|Hx]; [|reflexivity].
  destruct (decide (key y = k)) as [Hy|Hy]; [|reflexivity].
  rewrite Hx, Hy, string_leb_refl in E. discriminate.
Qed.

Lemma sorted_stable (k : string) (l : list A) :
  filter (fun a => key a = k) (PySort.sorted key l)
  = filter (fun a => key a = k) l.
Proof.
  induction l as [|x l IH]; simpl; [reflexivity|].
  rewrite insert_sorted_filter, !filter_cons, IH. reflexivity.
Qed.

End SortFacts.

(** ** Actor list *)

Section ActorFacts.

Import Actors.

Lemma flat_map_summarize (objs : list StixObject) :
  flat_map (fun obj => if is_intrusion_set obj then [summarize obj] else []) objs
  = map summarize (filter (fun obj => o_type obj = "intrusion-set") objs).
Proof.
  induction objs as [|obj objs IH]; simpl; [reflexivity|].
  rewrite filter_cons. unfold is_intrusion_set at 1.
  destruct (String.eqb_spec (o_type obj) "intrusion-set") as [E|E];
    destruct (decide (o_type obj = "intrusion-set")); try contradiction;
    simpl; now rewrite IH.
Qed.

Lemma map_filter_name (n : string) (objs : list StixObject) :
  filter (fun a => name a = n) (map summarize objs)
  = map summarize (filter (fun obj => o_name obj = n) objs).
Proof.
  induction objs as [|obj objs IH]; simpl; [reflexivity|].
  rewrite !filter_cons. simpl.
  destruct (decide (o_name obj = n)); simpl; now rewrite IH.
Qed.

End ActorFacts.

(** C7, as the code has it.  [get_all_threat_actors] returns one summary
    per intrusion set of the bundle, sorted by name, and summaries of equal
    name stay in the order their objects have in the bundle.  Nothing
    removes duplicates: the names of the list are pairwise distinct exactly
    when the names of the bundle's intrusion sets are. *)
Theorem get_all_threat_actors_sorted_stable :
  forall (attack_stix_content : Content),
    let actors := Actors.get_all_threat_actors attack_stix_content in
    let sets := filter (fun obj => o_type obj = "intrusion-set")
                       (get_objects attack_stix_content) in
    Permutation actors (map Actors.summarize sets)
    /\ Sorted (PySort.key_le Actors.name) actors
    /\ (forall n : string,
           filter (fun a => Actors.name a = n) actors
           = map Actors.summarize (filter (fun obj => o_name obj = n) sets))
    /\ (NoDup (map Actors.name actors) <-> NoDup (map o_name sets)).
Proof.
  intros content actors sets.
  assert (Hperm : Permutation actors (map Actors.summarize sets)).
  { unfold actors, Actors.get_all_threat_actors.
    rewrite sorted_Permutation, flat_map_summarize. reflexivity. }
  split; [exact Hperm|]. split; [|split].
  - apply sorted_Sorted.
  - intros n. unfold actors, Actors.get_all_threat_actors.
    rewrite sorted_stable, flat_map_summarize. apply map_filter_name.
  - assert (Hnames : Permutation (map Actors.name actors) (map o_name sets)).
    { rewrite Hperm, map_map. reflexivity. }
    rewrite Hnames. reflexivity.
Qed.

(** C7 as stated fails: two intrusion sets named APT1 give a list in which
    the name APT1 occurs twice. *)
Lemma actor_names_not_unique :
  map Actors.name (Actors.get_all_threat_actors Samples.two_apt1)
  = ["APT1"; "APT1"]
  /\ ~ NoDup (map Actors.name (Actors.get_all_threat_actors Samples.two_apt1)).
Proof.
  split; [vm_compute; reflexivity|].
  intros H. vm_compute in H.
  apply NoDup_cons in H as [Hnot _]. apply Hnot. left.
Qed.

(** ** Pagination *)

Section PagerFacts.

Import PyNum Pager.
Context {A : Type}.

Lemma ceil_div_bounds (a b total : nat) :
  ceil_div a b = Ok total -> a <= total * b < a + b.
Proof.
  unfold ceil_div. destruct (Nat.eqb_spec b 0) as [|Hb]; [discriminate|].
  pose proof (Nat.div_mod_eq a b) as Hdm.
  pose proof (Nat.mod_upper_bound a b Hb) as Hlt.
  destruct (Nat.eqb_spec (a mod b) 0) as [Hz|Hz]; intros [= <-]; nia.
Qed.

Lemma ceil_div_pos (a b : nat) :
  0 < b -> exists total, ceil_div a b = Ok total.
Proof.
  intros Hb. unfold ceil_div.
  destruct (Nat.eqb_spec b 0); [lia|]. eauto.
Qed.

Lemma page_slice_take_drop (items : list A) (size p : nat) :
  page_slice items size p = take size (drop ((p - 1) * size) items).
Proof. unfold page_slice, py_slice. f_equal. lia. Qed.

Lemma page_slice_succ (items : list A) (size p : nat) :
  1 <= p ->
  page_slice items size (S p) = page_slice (drop size items) size p.
Proof.
  intros Hp. rewrite !page_slice_take_drop, drop_drop.
  do 2 f_equal. nia.
Qed.

Lemma pages_concat (size n : nat) (items : list A) :
  length items <= n * size ->
  concat (map (page_slice items size) (seq 1 n)) = items.
Proof.
  revert items. induction n as [|n IH]; intros items Hlen.
  - destruct items; [reflexivity | simpl in Hlen; lia].
  - cbn [seq map concat]. rewrite <- seq_shift, map_map.
    rewrite (map_ext_in _ (page_slice (drop size items) size)).
    + rewrite IH.
      * rewrite page_slice_take_drop. simpl. apply take_drop.
      * rewrite length_drop. lia.
    + intros p Hp. apply in_seq in Hp. apply page_slice_succ. lia.
Qed.

Lemma page_slice_lookup (items : list A) (size p i : nat) :
  i < size ->
  page_slice items size p !! i = items !! ((p - 1) * size + i).
Proof.
  intros Hi. rewrite page_slice_take_drop.
  rewrite lookup_take_lt by exact Hi. apply lookup_drop.
Qed.

Lemma page_slice_length (items : list A) (size p : nat) :
  length (page_slice items size p)
  = Nat.min size (length items - (p - 1) * size).
Proof. rewrite page_slice_take_drop, length_take, length_drop. reflexivity. Qed.

End PagerFacts.

(** C8.  For a positive page size, the page count is the ceiling of
    [len(items) / size]; every page before the last holds exactly [size]
    items and the last holds between 1 and [size]; element [i] of page [p]
    is element [(p - 1) * size + i] of the list; and the pages 1, 2, ...,
    in that order, concatenate to the list. *)
Theorem pagination_partitions_items :
  forall (A : Type) (items : list A) (size : nat),
    0 < size ->
    exists total : nat,
      Pager.total_pages items size = Ok total
      /\ length items <= total * size < length items + size
      /\ concat (map (Pager.page_slice items size) (seq 1 total)) = items
      /\ (forall p, 1 <= p < total ->
                    length (Pager.page_slice items size p) = size)
      /\ (1 <= total ->
          1 <= length (Pager.page_slice items size total) <= size)
      /\ (forall p i, 1 <= p -> i < size ->
                      Pager.page_slice items size p !! i
                      = items !! ((p - 1) * size + i)).
Proof.
  intros A items size Hsize.
  destruct (ceil_div_pos (length items) size Hsize) as [total Htotal].
  pose proof (ceil_div_bounds _ _ _ Htotal) as Hb.
  exists total. split; [exact Htotal|]. split; [exact Hb|].
  split; [apply pages_concat; lia|]. split; [|split].
  - intros p Hp. rewrite page_slice_length. nia.
  - intros Ht. rewrite page_slice_length. nia.
  - intros p i _ Hi. apply page_slice_lookup, Hi.
Qed.

(** Seven items in pages of five. *)
Lemma pagination_partitions_items_witness :
  0 < 5
  /\ exists total : nat,
      Pager.total_pages [1; 2; 3; 4; 5; 6; 7] 5 = Ok total
      /\ length [1; 2; 3; 4; 5; 6; 7] <= total * 5 < length [1; 2; 3; 4; 5; 6; 7] + 5
      /\ concat (map (Pager.page_slice [1; 2; 3; 4; 5; 6; 7] 5) (seq 1 total))
         = [1; 2; 3; 4; 5; 6; 7]
      /\ (forall p, 1 <= p < total ->
                    length (Pager.page_slice [1; 2; 3; 4; 5; 6; 7] 5 p) = 5)
      /\ (1 <= total ->
          1 <= length (Pager.page_slice [1; 2; 3; 4; 5; 6; 7] 5 total) <= 5)
      /\ (forall p i, 1 <= p -> i < 5 ->
                      Pager.page_slice [1; 2; 3; 4; 5; 6; 7] 5 p !! i
                      = [1; 2; 3; 4; 5; 6; 7] !! ((p - 1) * 5 + i)).
Proof.
  split; [lia|].
  apply (pagination_partitions_items nat [1; 2; 3; 4; 5; 6; 7] 5). lia.
Defined.

(** The scenario of the specification: two techniques, page size 5, one
    page that holds both. *)
Example pagination_scenario :
  Pager.total_pages ["T1"; "T2"] Pager.page_size = Ok 1
  /\ Pager.page_slice ["T1"; "T2"] Pager.page_size 1 = ["T1"; "T2"].
Proof. split; reflexivity. Qed.

(** ** [int] and the range test *)

Section SelectionFacts.

Import PyStr PyNum Pager.

Lemma lstrip_digits (d : Decimal.uint) :
  lstrip (NilEmpty.string_of_uint d) = NilEmpty.string_of_uint d.
Proof. destruct d; reflexivity. Qed.

Lemma rstrip_digits (d : Decimal.uint) :
  rstrip (NilEmpty.string_of_uint d) = NilEmpty.string_of_uint d.
Proof.
  induction d as [|d IH|d IH|d IH|d IH|d IH|d IH|d IH|d IH|d IH|d IH];
    cbn [NilEmpty.string_of_uint rstrip]; [reflexivity|..];
    rewrite IH; reflexivity.
Qed.

Lemma digits_value_digit (c : ascii) (k acc : nat) (after_digit : bool)
      (s : string) :
  Ascii.eqb c "_" = false ->
  digit_of c = Some k ->
  digits_value acc after_digit (String c s)
  = digits_value (10 * acc + k) true s.
Proof. intros Hc Hk. cbn [digits_value]. rewrite Hc, Hk. reflexivity. Qed.

Local Ltac digit_case IH k :=
  cbn [NilEmpty.string_of_uint Nat.of_uint_acc];
  rewrite Nat.tail_mul_spec;
  rewrite (digits_value_digit _ k) by (vm_compute; reflexivity);
  rewrite IH by auto; do 2 f_equal; lia.

Lemma digits_value_uint (d : Decimal.uint) (acc : nat) (after_digit : bool) :
  d <> Decimal.Nil \/ after_digit = true ->
  digits_value acc after_digit (NilEmpty.string_of_uint d)
  = Some (Nat.of_uint_acc d acc).
Proof.
  revert acc after_digit.
  induction d as [|d IH|d IH|d IH|d IH|d IH|d IH|d IH|d IH|d IH|d IH];
    intros acc after_digit Hd.
  - destruct Hd as [Hd| ->]; [contradiction | reflexivity].
  - digit_case IH 0.
  - digit_case IH 1.
  - digit_case IH 2.
  - digit_case IH 3.
  - digit_case IH 4.
  - digit_case IH 5.
  - digit_case IH 6.
  - digit_case IH 7.
  - digit_case IH 8.
  - digit_case IH 9.
Qed.

Lemma py_int_str_of_nat (n : nat) : py_int (str_of_nat n) = Ok (Z.of_nat n).
Proof.
  unfold str_of_nat, py_int.
  rewrite lstrip_digits, rstrip_digits.
  assert (Hnn : Nat.to_uint n <> Decimal.Nil).
  { rewrite <- (DecimalNat.Unsigned.of_to n) at 1.
    rewrite DecimalNat.Unsigned.to_of. apply unorm_nonnil. }
  assert (Hv : digits_value 0 false (NilEmpty.string_of_uint (Nat.to_uint n))
               = Some n).
  { rewrite digits_value_uint by auto.
    f_equal. apply DecimalNat.Unsigned.of_to. }
  destruct (Nat.to_uint n); [contradiction|..];
    cbn [NilEmpty.string_of_uint] in *; rewrite Hv; reflexivity.
Qed.

Lemma parse_choice_Ok (len : nat) (input : string) (choice : nat) :
  parse_choice len input = Ok choice <->
  exists n : Z,
    py_int input = Ok n /\ (1 <= n <= Z.of_nat len)%Z
    /\ choice = Z.to_nat (n - 1).
Proof.
  unfold parse_choice. destruct (py_int input) as [n|e]; simpl.
  - destruct (Z.ltb_spec (n - 1) 0); simpl.
    + split; [discriminate|]. intros (m & [= <-] & Hm & _). lia.
    + destruct (Z.geb_spec (n - 1) (Z.of_nat len)).
      * split; [discriminate|]. intros (m & [= <-] & Hm & _). lia.
      * split.
        -- intros [= <-]. exists n. repeat split; lia.
        -- intros (m & [= <-] & _ & ->). reflexivity.
  - split; [discriminate|]. intros (m & Hm & _). discriminate.
Qed.

Lemma parse_choice_cases (len : nat) (input : string) :
  (exists choice, parse_choice len input = Ok choice /\ choice < len)
  \/ parse_choice len input = Raise ValueError.
Proof.
  unfold parse_choice, py_int.
  match goal with
  | |- context [match ?p with Some _ => _ | None => _ end] => destruct p as [n|]
  end; simpl; [|right; reflexivity].
  destruct (Z.ltb_spec (n - 1) 0); simpl; [right; reflexivity|].
  destruct (Z.geb_spec (n - 1) (Z.of_nat len)); [right; reflexivity|].
  left. eexists. split; [reflexivity|]. lia.
Qed.

Lemma select_cases {A : Type} (items : list A) (input : string) :
  (exists a, select items input = Ok a)
  \/ select items input = Raise ValueError.
Proof.
  unfold select.
  destruct (parse_choice_cases (length items) input) as [(c & -> & Hc)| ->];
    simpl; [|right; reflexivity].
  destruct (lookup_lt_is_Some_2 items c Hc) as [a ->]. left. eauto.
Qed.

Lemma select_Ok {A : Type} (items : list A) (input : string) (a : A) :
  select items input = Ok a <->
  exists n : Z,
    py_int input = Ok n /\ (1 <= n <= Z.of_nat (length items))%Z
    /\ items !! Z.to_nat (n - 1) = Some a.
Proof.
  unfold select. split.
  - destruct (parse_choice (length items) input) as [c|e] eqn:E; simpl;
      [|discriminate].
    apply parse_choice_Ok in E as (n & Hn & Hr & ->).
    destruct (items !! Z.to_nat (n - 1)) eqn:El; [|discriminate].
    intros [= <-]. eauto.
  - intros (n & Hn & Hr & Hl).
    assert (E : parse_choice (length items) input = Ok (Z.to_nat (n - 1))).
    { apply parse_choice_Ok. eauto. }
    rewrite E. simpl. rewrite Hl. reflexivity.
Qed.

End SelectionFacts.

(** ** The paging loop and the selection prompts *)

Section LoopFacts.

Import PyStr PyNum Pager Session.

Lemma pager_step_last_enter (total : nat) :
  pager_step total total "" = Break.
Proof. unfold pager_step. rewrite Nat.eqb_refl. reflexivity. Qed.

Lemma pager_step_last_q (total : nat) :
  pager_step total total "q" = Break.
Proof. unfold pager_step. rewrite Nat.eqb_refl. reflexivity. Qed.




Lemma step_paging (width : nat) (content : Content) (techniques : list nat)
      (selected_actor : string) (total current_page : nat) (input : string) :
  step width (content, Paging techniques selected_actor total current_page)
       (Line input)
  = match pager_step total current_page input with
    | Break => Some ((content, MainMenu), [])
    | Continue p invalid =>
        Some ((content, Paging techniques selected_actor total p),
              (if invalid then [PrintedInvalidInput] else [])
              ++ [show_page content techniques p])
    end.
Proof. reflexivity. Qed.




End LoopFacts.

(** C3, as the code has it.  On the last page the empty line is handled
    together with 'q': the paging loop is left and the program is back at
    its main menu, with the bundle as it was.  Nothing in the paging loop
    sets the page back to 1. *)
Theorem enter_on_last_page_leaves_pager :
  forall (width : nat) (content : Content) (techniques : list nat)
         (selected_actor : string) (total : nat),
    Pager.pager_step total total "" = Pager.Break
    /\ Pager.pager_step total total "q" = Pager.Break
    /\ Session.step width
         (content, Session.Paging techniques selected_actor total total)
         (Session.Line "")
       = Some ((content, Session.MainMenu), []).
Proof.
  intros width content techniques selected_actor total.
  split; [apply pager_step_last_enter|].
  split; [apply pager_step_last_q|].
  rewrite step_paging, pager_step_last_enter. reflexivity.
Qed.

(** C3 as stated fails.  A session of super.py on a bundle whose actor A
    has six technique entries: the actor is chosen from the geography view,
    Enter on page 1 of 2 gives page 2, and Enter on page 2, the last page,
    does not give page 1 of the pager: the program is back at its main
    menu. *)
Lemma enter_on_last_page_no_restart :
  let browse := [Session.PickMain Session.ThreatActors;
                 Session.PickActor (Session.ViewBy Classifier.Geography);
                 Session.Line "1"; Session.Line ""] in
  (snd <$> (fst <$> Session.run 80 (Samples.six_links, Session.MainMenu) browse))
  = Some (Session.Paging [1; 2; 1; 2; 1; 2] "A" 2 2)
  /\ (snd <$> (fst <$> Session.run 80 (Samples.six_links, Session.MainMenu)
                                   (browse ++ [Session.Line ""])))
     = Some Session.MainMenu
  /\ Pager.pager_step 2 2 "" = Pager.Break
  /\ Pager.pager_step 2 2 "" <> Pager.Continue 1 false.
Proof.
  split; [vm_compute; reflexivity|]. split; [vm_compute; reflexivity|].
  split; [reflexivity | discriminate].
Qed.



(** The scenario of the specification: "0" and "999" against ten entities
    are both refused with [ValueError]. *)
Example selection_scenario :
  let ten := ["a"; "b"; "c"; "d"; "e"; "f"; "g"; "h"; "i"; "j"] in
  Pager.select ten "0" = Raise ValueError
  /\ Pager.select ten "999" = Raise ValueError
  /\ Pager.select ten "10" = Ok "j".
Proof. repeat split; vm_compute; reflexivity. Qed.

(** ** Resolvers *)

Section ResolverFacts.

Import PyStr Resolver.

Lemma enrich_idempotent (t : StixObject) : enrich (enrich t) = enrich t.
Proof. destruct t; reflexivity. Qed.

Lemma links_from_enrich (anchor : string) (o : StixObject) :
  links_from anchor (enrich o) = links_from anchor o.
Proof. destruct o; reflexivity. Qed.

Lemma enrich_at_nil (objs : list StixObject) : enrich_at [] objs = objs.
Proof.
  apply list_eq. intros i. unfold enrich_at. rewrite list_lookup_imap.
  destruct (objs !! i); simpl; [|reflexivity].
  destruct (decide (i ∈ [])) as [H|_]; [|reflexivity].
  now apply not_elem_of_nil in H.
Qed.

Lemma enrich_at_snoc (refs : list nat) (objs : list StixObject) (j : nat)
      (t : StixObject) :
  objs !! j = Some t ->
  <[j := enrich (if decide (j ∈ refs) then enrich t else t)]>
    (enrich_at refs objs)
  = enrich_at (refs ++ [j]) objs.
Proof.
  intros Hj. apply list_eq. intros i. unfold enrich_at.
  destruct (decide (i = j)) as [->|Hne].
  - rewrite list_lookup_insert_eq
      by (rewrite length_imap; eapply lookup_lt_Some, Hj).
    rewrite list_lookup_imap, Hj. simpl.
    destruct (decide (j ∈ refs ++ [j])) as [_|Hn].
    + destruct (decide (j ∈ refs)); [rewrite enrich_idempotent|]; reflexivity.
    + exfalso. apply Hn, elem_of_app. right.
      apply list_elem_of_singleton. reflexivity.
  - rewrite list_lookup_insert_ne by congruence.
    rewrite !list_lookup_imap. destruct (objs !! i); simpl; [|reflexivity].
    destruct (decide (i ∈ refs)) as [Hi|Hi];
      destruct (decide (i ∈ refs ++ [j])) as [Hi'|Hi']; try reflexivity.
    + exfalso. apply Hi', elem_of_app. now left.
    + exfalso. apply elem_of_app in Hi' as [Hi'|Hi']; [tauto|].
      apply list_elem_of_singleton in Hi'. congruence.
Qed.

(** Looking an object up by type and id does not see the enrichment. *)
Lemma find_object_enrich_at (refs : list nat) (objs : list StixObject)
      (ty ref : string) :
  find_object (enrich_at refs objs) ty ref
  = match find_object objs ty ref with
    | Some (j, t) => Some (j, if decide (j ∈ refs) then enrich t else t)
    | None => None
    end.
Proof.
  unfold find_object, enrich_at.
  set (P := fun item : StixObject => o_type item = ty /\ o_id item = ref).
  assert (HP : forall i o, P (if decide (i ∈ refs) then enrich o else o) <-> P o).
  { intros i o. destruct (decide (i ∈ refs)); [|reflexivity].
    destruct o; reflexivity. }
  destruct (list_find P objs) as [[j t]|] eqn:E.
  - apply list_find_Some in E as (Hj & Ht & Hmin).
    apply list_find_Some. split; [|split].
    + rewrite list_lookup_imap, Hj. reflexivity.
    + apply HP, Ht.
    + intros i y Hy Hlt.
      rewrite list_lookup_imap in Hy.
      destruct (objs !! i) as [o|] eqn:Ho; simpl in Hy; [|discriminate].
      injection Hy as <-. rewrite HP. eapply Hmin; eassumption.
  - apply list_find_None in E. apply list_find_None.
    apply Forall_lookup. intros i y Hy.
    rewrite list_lookup_imap in Hy.
    destruct (objs !! i) as [o|] eqn:Ho; simpl in Hy; [|discriminate].
    injection Hy as <-. rewrite HP.
    eapply Forall_lookup_1 in E; eassumption.
Qed.

Lemma find_object_lookup (objs : list StixObject) (ty ref : string)
      (j : nat) (t : StixObject) :
  find_object objs ty ref = Some (j, t) ->
  objs !! j = Some t /\ o_type t = ty /\ o_id t = ref.
Proof.
  unfold find_object. intros H.
  apply list_find_Some in H as (Hj & [Hty Hid] & _). auto.
Qed.

End ResolverFacts.

Section ActorLoop.

Import PyStr Resolver.

Variable actor_id : string.
Variable objs : list StixObject.

Local Abbreviation refs_upto part :=
  (resolve_part (links_from actor_id) target_ref "attack-pattern"
                (fun j _ => j) objs part).

(** One iteration, when the store is the bundle enriched at the
    references collected so far. *)
Lemma actor_step_closed (refs : list nat) (i : nat) (obj : StixObject) :
  objs !! i = Some obj ->
  actor_step actor_id (enrich_at refs objs, refs) i
  = (enrich_at (refs ++ refs_upto [obj]) objs, refs ++ refs_upto [obj]).
Proof.
  intros Hi. unfold actor_step, resolve_part. cbn [flat_map].
  rewrite app_nil_r.
  unfold enrich_at at 1. rewrite list_lookup_imap, Hi. cbn [fmap option_fmap option_map].
  fold (enrich_at refs objs).
  assert (Hl : links_from actor_id (if decide (i ∈ refs) then enrich obj else obj)
               = links_from actor_id obj).
  { destruct (decide (i ∈ refs)); [apply links_from_enrich | reflexivity]. }
  assert (Hr : target_ref (if decide (i ∈ refs) then enrich obj else obj)
               = target_ref obj).
  { destruct (decide (i ∈ refs)); [destruct obj|]; reflexivity. }
  rewrite Hl, Hr.
  destruct (links_from actor_id obj); [|now rewrite app_nil_r].
  rewrite find_object_enrich_at.
  destruct (find_object objs "attack-pattern" (target_ref obj))
    as [[j t]|] eqn:E; [|now rewrite app_nil_r].
  apply find_object_lookup in E as (Hj & _).
  now rewrite (enrich_at_snoc refs objs j t Hj).
Qed.

Lemma actor_fold_closed (k : nat) :
  k <= length objs ->
  fold_left (actor_step actor_id) (seq 0 k) (objs, [])
  = (enrich_at (refs_upto (take k objs)) objs, refs_upto (take k objs)).
Proof.
  induction k as [|k IH]; intros Hk.
  - simpl. now rewrite enrich_at_nil.
  - rewrite seq_S, fold_left_app, IH by lia. cbn [fold_left Nat.add].
    destruct (lookup_lt_is_Some_2 objs k) as [obj Hobj]; [lia|].
    rewrite (actor_step_closed _ _ _ Hobj).
    rewrite (take_S_r _ _ _ Hobj).
    unfold resolve_part. now rewrite flat_map_app.
Qed.

Lemma get_techniques_for_actor_closed :
  get_techniques_for_actor (mkContent (Some objs)) actor_id
  = (mkContent (Some (enrich_at (actor_refs objs actor_id) objs)),
     actor_refs objs actor_id).
Proof.
  unfold get_techniques_for_actor. cbn [objects].
  rewrite actor_fold_closed by lia.
  rewrite firstn_all. reflexivity.
Qed.

(** Reading the enriched bundle through the collected references gives
    the enriched targets, in the order of the scan. *)
Lemma deref_enriched (refs : list nat) (part : list StixObject) :
  (forall j, j ∈ refs_upto part -> j ∈ refs) ->
  omap (fun j => enrich_at refs objs !! j) (refs_upto part)
  = resolve_part (links_from actor_id) target_ref "attack-pattern"
                 (fun _ t => enrich t) objs part.
Proof.
  induction part as [|obj part IH]; intros Hin; [reflexivity|].
  unfold resolve_part in *. cbn [flat_map] in *.
  rewrite omap_app, IH.
  - f_equal. destruct (links_from actor_id obj); [|reflexivity].
    destruct (find_object objs "attack-pattern" (target_ref obj))
      as [[j t]|] eqn:E; [|reflexivity].
    destruct (find_object_lookup _ _ _ _ _ E) as (Hj & _).
    cbn [omap list_omap]. unfold enrich_at. rewrite list_lookup_imap, Hj.
    cbn [fmap option_fmap option_map].
    rewrite decide_True; [reflexivity|].
    apply Hin, elem_of_app. left.
    apply list_elem_of_singleton. reflexivity.
  - intros j Hj. apply Hin, elem_of_app. now right.
Qed.

Lemma techniques_seen_closed :
  techniques_seen (mkContent (Some objs)) actor_id
  = resolve_scan (links_from actor_id) target_ref "attack-pattern"
                 (fun _ t => enrich t) objs.
Proof.
  unfold techniques_seen. rewrite get_techniques_for_actor_closed.
  unfold deref, get_objects. cbn [objects].
  unfold actor_refs, resolve_scan. apply deref_enriched. auto.
Qed.

End ActorLoop.

Section ScanFacts.

Import PyStr Resolver.

Context {B : Type}.
Variable links : StixObject -> bool.
Variable ref_of : StixObject -> string.
Variable ty : string.

(** An object of another type is invisible to a lookup by type. *)
Lemma find_object_remove (pre post : list StixObject) (r : StixObject)
      (ref : string) :
  o_type r <> ty ->
  snd <$> find_object (pre ++ r :: post) ty ref
  = snd <$> find_object (pre ++ post) ty ref.
Proof.
  intros Hty. unfold find_object.
  set (P := fun item : StixObject => o_type item = ty /\ o_id item = ref).
  destruct (list_find P pre) as [[j t]|] eqn:E.
  - rewrite !(list_find_app_l _ pre _ j t) by exact E. reflexivity.
  - rewrite !list_find_app_r by exact E.
    cbn [list_find]. rewrite decide_False by (unfold P; tauto).
    destruct (list_find P post) as [[j t]|]; reflexivity.
Qed.

Lemma resolve_scan_remove (mk : StixObject -> B)
      (pre post : list StixObject) (r : StixObject) :
  o_type r <> ty ->
  (links r = true -> find_object (pre ++ r :: post) ty (ref_of r) = None) ->
  resolve_scan links ref_of ty (fun _ => mk) (pre ++ r :: post)
  = resolve_scan links ref_of ty (fun _ => mk) (pre ++ post).
Proof.
  intros Hty Hr. unfold resolve_scan, resolve_part.
  assert (Hbody : forall obj,
             (if links obj then
                match find_object (pre ++ r :: post) ty (ref_of obj) with
                | Some (_, found) => [mk found]
                | None => []
                end
              else [])
             = (if links obj then
                  match find_object (pre ++ post) ty (ref_of obj) with
                  | Some (_, found) => [mk found]
                  | None => []
                  end
                else [])).
  { intros obj. destruct (links obj); [|reflexivity].
    pose proof (find_object_remove pre post r (ref_of obj) Hty) as H.
    destruct (find_object (pre ++ r :: post) ty (ref_of obj)) as [[j t]|];
      destruct (find_object (pre ++ post) ty (ref_of obj)) as [[j' t']|];
      simpl in H; congruence. }
  rewrite (flat_map_ext _ _ Hbody).
  rewrite !flat_map_app. f_equal. cbn [flat_map].
  rewrite <- Hbody.
  destruct (links r); [rewrite Hr by reflexivity|]; reflexivity.
Qed.

Lemma find_object_map (g : StixObject -> StixObject)
      (objs : list StixObject) (ref : string) :
  (forall o, o_type (g o) = o_type o /\ o_id (g o) = o_id o) ->
  find_object (map g objs) ty ref = prod_map id g <$> find_object objs ty ref.
Proof.
  intros Hg. unfold find_object.
  change (map g objs) with (g <$> objs).
  rewrite list_find_fmap. f_equal.
  apply list_find_ext. intros o. simpl.
  destruct (Hg o) as [-> ->]. reflexivity.
Qed.

Lemma resolve_scan_map (g : StixObject -> StixObject)
      (mk : nat -> StixObject -> B) (objs : list StixObject) :
  (forall o, links (g o) = links o) ->
  (forall o, ref_of (g o) = ref_of o) ->
  (forall o, o_type (g o) = o_type o /\ o_id (g o) = o_id o) ->
  (forall j t, o_type t = ty -> mk j (g t) = mk j t) ->
  resolve_scan links ref_of ty mk (map g objs)
  = resolve_scan links ref_of ty mk objs.
Proof.
  intros Hl Hr Hk Hmk. unfold resolve_scan, resolve_part.
  rewrite flat_map_concat_map, map_map, <- flat_map_concat_map.
  apply flat_map_ext. intros obj.
  rewrite Hl, Hr. destruct (links obj); [|reflexivity].
  rewrite find_object_map by exact Hk.
  destruct (find_object objs ty (ref_of obj)) as [[j t]|] eqn:E;
    [|reflexivity].
  apply find_object_lookup in E as (_ & Ht & _).
  simpl. now rewrite Hmk.
Qed.

End ScanFacts.

Section RelabelFacts.

Import PyStr Resolver.

Variable f : StixObject -> string.

Lemma relabel_keys (o : StixObject) :
  o_type (relabel f o) = o_type o /\ o_id (relabel f o) = o_id o.
Proof.
  unfold relabel. destruct (String.eqb (o_type o) "relationship");
    split; reflexivity.
Qed.

Lemma relabel_refs (o : StixObject) :
  source_ref (relabel f o) = source_ref o
  /\ target_ref (relabel f o) = target_ref o.
Proof.
  unfold relabel. destruct (String.eqb (o_type o) "relationship");
    split; reflexivity.
Qed.

Lemma relabel_links_from (anchor : string) (o : StixObject) :
  links_from anchor (relabel f o) = links_from anchor o.
Proof.
  unfold links_from.
  destruct (relabel_keys o) as [-> _], (relabel_refs o) as [-> ->].
  reflexivity.
Qed.

Lemma relabel_links_to (anchor : string) (o : StixObject) :
  links_to anchor (relabel f o) = links_to anchor o.
Proof.
  unfold links_to.
  destruct (relabel_keys o) as [-> _], (relabel_refs o) as [-> ->].
  reflexivity.
Qed.

Lemma relabel_entity (ty : string) (t : StixObject) :
  ty <> "relationship" -> o_type t = ty -> relabel f t = t.
Proof.
  intros Hty Ht. unfold relabel. rewrite Ht.
  apply String.eqb_neq in Hty. now rewrite Hty.
Qed.

End RelabelFacts.

Section ResolverResults.

Import PyStr Resolver.

Lemma tool_techniques_scan_closed (objs : list StixObject) (tool_id : string) :
  tool_techniques_scan objs tool_id
  = resolve_scan (links_from tool_id) target_ref "attack-pattern"
                 (fun _ t => tool_technique t) objs.
Proof. reflexivity. Qed.

Lemma tool_actors_scan_closed (objs : list StixObject) (tool_id : string) :
  tool_actors_scan objs tool_id
  = resolve_scan (links_to tool_id) source_ref "intrusion-set"
                 (fun _ t => tool_actor t) objs.
Proof. reflexivity. Qed.

Lemma resolve_scan_In {B : Type} (links : StixObject -> bool)
      (ref_of : StixObject -> string) (ty : string)
      (mk : nat -> StixObject -> B) (objs : list StixObject)
      (r t : StixObject) (j : nat) :
  In r objs -> links r = true ->
  find_object objs ty (ref_of r) = Some (j, t) ->
  In (mk j t) (resolve_scan links ref_of ty mk objs).
Proof.
  intros Hr Hl Hf. unfold resolve_scan, resolve_part.
  apply in_flat_map. exists r. split; [exact Hr|].
  rewrite Hl, Hf. now left.
Qed.

Lemma actor_refs_valid (objs : list StixObject) (actor_id : string) (j : nat) :
  In j (actor_refs objs actor_id) ->
  exists t, enrich_at (actor_refs objs actor_id) objs !! j = Some t
            /\ o_type t = "attack-pattern".
Proof.
  unfold actor_refs at 1, resolve_scan, resolve_part. intros Hj.
  apply in_flat_map in Hj as (obj & _ & Hj).
  destruct (links_from actor_id obj); [|contradiction].
  destruct (find_object objs "attack-pattern" (target_ref obj))
    as [[j' t]|] eqn:E; [|contradiction].
  destruct Hj as [<-|[]].
  apply find_object_lookup in E as (Hl & Ht & _).
  unfold enrich_at. rewrite list_lookup_imap, Hl. simpl.
  eexists. split; [reflexivity|].
  destruct (decide (j' ∈ actor_refs objs actor_id)); [destruct t|]; exact Ht.
Qed.

End ResolverResults.

(** C2 fails on the code.  On a bundle in which actor X1 uses techniques T1
    and T2, [get_techniques_for_actor] leaves a different bundle behind: the
    stored attack-pattern object T1, which had no [platforms] key, now has
    [platforms] and [kill_chain_phase]; and what the call returns are
    references to the stored objects, not copies. *)
Lemma get_techniques_for_actor_writes_bundle :
  let before := Samples.small_bundle in
  let '(after, refs) :=
    Resolver.get_techniques_for_actor before "intrusion-set--X1" in
  after <> before
  /\ refs = [1; 2]
  /\ get_objects before !! 1 = Some Samples.technique_T1
  /\ platforms Samples.technique_T1 = None
  /\ (platforms <$> get_objects after !! 1) = Some (Some "Windows, Linux")
  /\ (kill_chain_phase <$> get_objects after !! 1) = Some (Some "initial-access").
Proof.
  vm_compute. split; [discriminate|]. repeat split; reflexivity.
Qed.

(** What the call writes, in general: the objects at the collected
    references are enriched, every other object is as it was. *)
Lemma get_techniques_for_actor_frame :
  forall (objs : list StixObject) (actor_id : string) (i : nat),
    let '(after, refs) :=
      Resolver.get_techniques_for_actor (mkContent (Some objs)) actor_id in
    get_objects after !! i
    = (fun o => if decide (i ∈ refs) then Resolver.enrich o else o)
        <$> objs !! i.
Proof.
  intros objs actor_id i. rewrite get_techniques_for_actor_closed.
  unfold get_objects, Resolver.enrich_at. cbn [objects].
  apply list_lookup_imap.
Qed.

(** C9.  A relationship object whose ref finds no object of the target type
    in the bundle adds nothing to a resolver's result: each of the three
    resolvers returns what it returns on the bundle without that
    relationship, so the other entries are as they would be without it.
    The resolvers are total functions, and every reference that
    [get_techniques_for_actor] returns points at an attack-pattern object
    of the bundle: no entry is null. *)
Theorem dangling_relationship_is_skipped :
  forall (pre post : list StixObject) (r : StixObject) (anchor : string),
    o_type r = "relationship" ->
    (Resolver.find_object (pre ++ r :: post) "attack-pattern" (target_ref r)
     = None ->
     Resolver.get_techniques_for_tool (mkContent (Some (pre ++ r :: post))) anchor
     = Resolver.get_techniques_for_tool (mkContent (Some (pre ++ post))) anchor
     /\ Resolver.techniques_seen (mkContent (Some (pre ++ r :: post))) anchor
        = Resolver.techniques_seen (mkContent (Some (pre ++ post))) anchor)
    /\ (Resolver.find_object (pre ++ r :: post) "intrusion-set" (source_ref r)
        = None ->
        Resolver.get_actors_for_tool (mkContent (Some (pre ++ r :: post))) anchor
        = Resolver.get_actors_for_tool (mkContent (Some (pre ++ post))) anchor)
    /\ (forall j : nat,
           In j (snd (Resolver.get_techniques_for_actor
                        (mkContent (Some (pre ++ r :: post))) anchor)) ->
           exists t : StixObject,
             get_objects (fst (Resolver.get_techniques_for_actor
                                 (mkContent (Some (pre ++ r :: post))) anchor))
               !! j = Some t
             /\ o_type t = "attack-pattern").
Proof.
  intros pre post r anchor Hr.
  assert (Hap : o_type r <> "attack-pattern") by (rewrite Hr; discriminate).
  assert (His : o_type r <> "intrusion-set") by (rewrite Hr; discriminate).
  split; [|split].
  - intros Hnone. split.
    + unfold Resolver.get_techniques_for_tool, get_objects. cbn [objects].
      rewrite !tool_techniques_scan_closed.
      now rewrite (resolve_scan_remove _ _ _ _ pre post r Hap).
    + rewrite !techniques_seen_closed.
      now rewrite (resolve_scan_remove _ _ _ _ pre post r Hap).
  - intros Hnone.
    unfold Resolver.get_actors_for_tool, get_objects. cbn [objects].
    rewrite !tool_actors_scan_closed.
    now rewrite (resolve_scan_remove _ _ _ _ pre post r His).
  - intros j. rewrite get_techniques_for_actor_closed. cbn [fst snd].
    unfold get_objects. cbn [objects]. apply actor_refs_valid.
Qed.

(** The sample bundle around its relationship to the absent technique T9. *)
Lemma dangling_relationship_is_skipped_witness :
  o_type Samples.dangling = "relationship"
  /\ Resolver.find_object
       (Samples.before_dangling ++ Samples.dangling :: Samples.after_dangling)
       "attack-pattern" (target_ref Samples.dangling) = None
  /\ Resolver.techniques_seen
       (mkContent (Some (Samples.before_dangling
                         ++ Samples.dangling :: Samples.after_dangling)))
       "intrusion-set--X1"
     = Resolver.techniques_seen
         (mkContent (Some (Samples.before_dangling ++ Samples.after_dangling)))
         "intrusion-set--X1".
Proof.
  split; [reflexivity|]. split; [vm_compute; reflexivity|].
  apply (dangling_relationship_is_skipped
           Samples.before_dangling Samples.after_dangling Samples.dangling
           "intrusion-set--X1"); [reflexivity | vm_compute; reflexivity].
Defined.

(** The scenario of the specification: the actor's two resolvable
    relationships give T1 and T2 in scan order, the dangling one between
    them gives nothing. *)
Example resolve_scenario :
  map o_id (Resolver.techniques_seen Samples.small_bundle "intrusion-set--X1")
  = ["attack-pattern--T1"; "attack-pattern--T2"].
Proof. vm_compute. reflexivity. Qed.

(** C10.  The resolvers never read [relationship_type]: giving the
    relationship objects of a bundle any other types changes no result, and
    a relationship that passes the test and resolves contributes its target
    whatever its type.  The test is on the text of the ref: a relationship
    whose ref lacks the literal "attack-pattern" (or "intrusion-set", for
    the actors of a tool) is left out, whatever the ref resolves to. *)
Theorem resolvers_test_ref_text_only :
  forall (f : StixObject -> string) (objs pre post : list StixObject)
         (r t : StixObject) (j : nat) (anchor : string),
    (Resolver.get_techniques_for_tool
       (mkContent (Some (map (Resolver.relabel f) objs))) anchor
     = Resolver.get_techniques_for_tool (mkContent (Some objs)) anchor
     /\ Resolver.get_actors_for_tool
          (mkContent (Some (map (Resolver.relabel f) objs))) anchor
        = Resolver.get_actors_for_tool (mkContent (Some objs)) anchor
     /\ snd (Resolver.get_techniques_for_actor
               (mkContent (Some (map (Resolver.relabel f) objs))) anchor)
        = snd (Resolver.get_techniques_for_actor (mkContent (Some objs)) anchor)
     /\ Resolver.techniques_seen
          (mkContent (Some (map (Resolver.relabel f) objs))) anchor
        = Resolver.techniques_seen (mkContent (Some objs)) anchor)
    /\ (In r objs -> o_type r = "relationship" -> source_ref r = anchor ->
        PyStr.contains "attack-pattern" (target_ref r) = true ->
        Resolver.find_object objs "attack-pattern" (target_ref r) = Some (j, t) ->
        In (Resolver.tool_technique t)
           (Resolver.get_techniques_for_tool (mkContent (Some objs)) anchor)
        /\ In (Resolver.enrich t)
              (Resolver.techniques_seen (mkContent (Some objs)) anchor))
    /\ (In r objs -> o_type r = "relationship" -> target_ref r = anchor ->
        PyStr.contains "intrusion-set" (source_ref r) = true ->
        Resolver.find_object objs "intrusion-set" (source_ref r) = Some (j, t) ->
        In (Resolver.tool_actor t)
           (Resolver.get_actors_for_tool (mkContent (Some objs)) anchor))
    /\ (o_type r = "relationship" ->
        PyStr.contains "attack-pattern" (target_ref r) = false ->
        Resolver.get_techniques_for_tool
          (mkContent (Some (pre ++ r :: post))) anchor
        = Resolver.get_techniques_for_tool (mkContent (Some (pre ++ post))) anchor
        /\ Resolver.techniques_seen (mkContent (Some (pre ++ r :: post))) anchor
           = Resolver.techniques_seen (mkContent (Some (pre ++ post))) anchor)
    /\ (o_type r = "relationship" ->
        PyStr.contains "intrusion-set" (source_ref r) = false ->
        Resolver.get_actors_for_tool (mkContent (Some (pre ++ r :: post))) anchor
        = Resolver.get_actors_for_tool (mkContent (Some (pre ++ post))) anchor).
Proof.
  intros f objs pre post r t j anchor.
  split; [|split; [|split; [|split]]].
  - split; [|split; [|split]].
    + unfold Resolver.get_techniques_for_tool, get_objects. cbn [objects].
      rewrite !tool_techniques_scan_closed. f_equal.
      apply resolve_scan_map;
        [apply relabel_links_from | apply relabel_refs | apply relabel_keys |].
      intros _ t' Ht'. now rewrite (relabel_entity f "attack-pattern").
    + unfold Resolver.get_actors_for_tool, get_objects. cbn [objects].
      rewrite !tool_actors_scan_closed.
      apply resolve_scan_map;
        [apply relabel_links_to | apply relabel_refs | apply relabel_keys |].
      intros _ t' Ht'. now rewrite (relabel_entity f "intrusion-set").
    + rewrite !get_techniques_for_actor_closed. cbn [snd].
      apply resolve_scan_map;
        [apply relabel_links_from | apply relabel_refs | apply relabel_keys |].
      reflexivity.
    + rewrite !techniques_seen_closed.
      apply resolve_scan_map;
        [apply relabel_links_from | apply relabel_refs | apply relabel_keys |].
      intros _ t' Ht'. now rewrite (relabel_entity f "attack-pattern").
  - intros Hin Hty Hsrc Hsub Hfind.
    assert (Hl : Resolver.links_from anchor r = true).
    { unfold Resolver.links_from.
      rewrite Hty, Hsrc, Hsub, !String.eqb_refl. reflexivity. }
    split.
    + unfold Resolver.get_techniques_for_tool, get_objects. cbn [objects].
      eapply Permutation_in; [symmetry; apply sorted_Permutation|].
      rewrite tool_techniques_scan_closed.
      apply (resolve_scan_In _ _ _ (fun _ t => Resolver.tool_technique t)
                             objs r t j Hin Hl Hfind).
    + rewrite techniques_seen_closed.
      apply (resolve_scan_In _ _ _ (fun _ t => Resolver.enrich t)
                             objs r t j Hin Hl Hfind).
  - intros Hin Hty Htgt Hsub Hfind.
    assert (Hl : Resolver.links_to anchor r = true).
    { unfold Resolver.links_to.
      rewrite Hty, Htgt, Hsub, !String.eqb_refl. reflexivity. }
    unfold Resolver.get_actors_for_tool, get_objects. cbn [objects].
    rewrite tool_actors_scan_closed.
    apply (resolve_scan_In _ _ _ (fun _ t => Resolver.tool_actor t)
                           objs r t j Hin Hl Hfind).
  - intros Hty Hsub.
    assert (Hap : o_type r <> "attack-pattern") by (rewrite Hty; discriminate).
    assert (Hl : Resolver.links_from anchor r = true ->
                 Resolver.find_object (pre ++ r :: post) "attack-pattern"
                                      (target_ref r) = None).
    { unfold Resolver.links_from. rewrite Hsub, andb_false_r. discriminate. }
    split.
    + unfold Resolver.get_techniques_for_tool, get_objects. cbn [objects].
      rewrite !tool_techniques_scan_closed.
      now rewrite (resolve_scan_remove _ _ _ _ pre post r Hap).
    + rewrite !techniques_seen_closed.
      now rewrite (resolve_scan_remove _ _ _ _ pre post r Hap).
  - intros Hty Hsub.
    assert (His : o_type r <> "intrusion-set") by (rewrite Hty; discriminate).
    assert (Hl : Resolver.links_to anchor r = true ->
                 Resolver.find_object (pre ++ r :: post) "intrusion-set"
                                      (source_ref r) = None).
    { unfold Resolver.links_to. rewrite Hsub, andb_false_r. discriminate. }
    unfold Resolver.get_actors_for_tool, get_objects. cbn [objects].
    rewrite !tool_actors_scan_closed.
    now rewrite (resolve_scan_remove _ _ _ _ pre post r His).
Qed.

(** A technique object with the id "T1" has the required type, but the
    relationship that points at it is not admitted: the id lacks the text
    "attack-pattern". *)
Example odd_id_is_excluded :
  Resolver.find_object (get_objects Samples.odd_id_bundle) "attack-pattern" "T1"
  = Some (1, Samples.entity "attack-pattern" "T1" "Phishing")
  /\ Resolver.get_techniques_for_tool Samples.odd_id_bundle "tool--1" = [].
Proof. split; vm_compute; reflexivity. Qed.

(** ** Grouped views *)

Section GroupingFacts.

Import Actors Grouping PyStr PyNum.

Lemma cell_text_non_blank (index : nat) (actor_name : string) :
  cell_text index actor_name <> "".
Proof.
  unfold cell_text. destruct (str_of_nat index) as [|c s].
  - rewrite append_nil. discriminate.
  - rewrite append_cons. discriminate.
Qed.

Variable groups : Groups.

Lemma fold_cells (row : nat) (buckets : Groups) (actor_list : list string)
      (index : nat) (row_data : list string) :
  fold_left (cell_step row) buckets (actor_list, index, row_data)
  = (actor_list ++ map name (row_members buckets row),
     index + length (row_members buckets row),
     row_data ++ row_cells row index buckets).
Proof.
  revert actor_list index row_data.
  induction buckets as [|bucket rest IH]; intros actor_list index row_data.
  - simpl. now rewrite !app_nil_r, Nat.add_0_r.
  - cbn [fold_left cell_step row_cells]. unfold row_members in *.
    cbn [omap list_omap].
    destruct (snd bucket !! row) as [actor|]; rewrite IH.
    + cbn [map length app]. rewrite <- !app_assoc. cbn [app].
      f_equal. f_equal. lia.
    + rewrite <- app_assoc. reflexivity.
Qed.

Lemma fold_rows (n row : nat) (actor_list : list string) (index : nat)
      (table_rows : list (list string)) :
  fold_left (row_step groups) (seq row n) (actor_list, index, table_rows)
  = (actor_list ++ map name (flat_map (row_members groups) (seq row n)),
     index + length (flat_map (row_members groups) (seq row n)),
     table_rows ++ rows_from groups row n index).
Proof.
  revert row actor_list index table_rows.
  induction n as [|n IH]; intros row actor_list index table_rows.
  - simpl. now rewrite !app_nil_r, Nat.add_0_r.
  - cbn [seq fold_left row_step flat_map rows_from].
    rewrite fold_cells. cbn [app]. rewrite IH.
    rewrite map_app, length_app, <- !app_assoc. cbn [app].
    f_equal. f_equal. lia.
Qed.

Lemma row_cells_non_blank (row : nat) (buckets : Groups) (index : nat) :
  non_blank_cells (row_cells row index buckets)
  = imap (fun i actor => cell_text (index + i) (name actor))
         (row_members buckets row).
Proof.
  unfold non_blank_cells, row_members. revert index.
  induction buckets as [|bucket rest IH]; intros index; [reflexivity|].
  cbn [row_cells omap list_omap].
  destruct (snd bucket !! row) as [actor|].
  - rewrite filter_cons_True by apply cell_text_non_blank.
    rewrite imap_cons, Nat.add_0_r. f_equal.
    rewrite IH. apply imap_ext. intros i a _. simpl. f_equal. lia.
  - rewrite filter_cons_False by (intros H; now apply H).
    apply IH.
Qed.

Lemma rows_from_non_blank (n row index : nat) :
  non_blank_cells (concat (rows_from groups row n index))
  = imap (fun i actor => cell_text (index + i) (name actor))
         (flat_map (row_members groups) (seq row n)).
Proof.
  revert row index. induction n as [|n IH]; intros row index; [reflexivity|].
  cbn [rows_from concat seq flat_map].
  unfold non_blank_cells in *. rewrite filter_app.
  fold (non_blank_cells (row_cells row index groups)).
  rewrite row_cells_non_blank, IH, imap_app. f_equal.
  apply imap_ext. intros i a _. f_equal. lia.
Qed.

Lemma rows_from_length (n row index : nat) :
  length (rows_from groups row n index) = n.
Proof.
  revert row index. induction n as [|n IH]; intros row index;
    simpl; [reflexivity|]. now rewrite IH.
Qed.



End GroupingFacts.

Section BucketFacts.

Import Actors Grouping.

Variable key_of : ActorSummary -> string.

Lemma first_seen_snoc (keys : list string) (k : string) :
  first_seen (keys ++ [k])
  = if decide (k ∈ first_seen keys) then first_seen keys
    else first_seen keys ++ [k].
Proof. unfold first_seen. now rewrite fold_left_app. Qed.

Lemma first_seen_elem (keys : list string) (k : string) :
  k ∈ first_seen keys <-> k ∈ keys.
Proof.
  induction keys as [|k' keys IH] using rev_ind.
  - reflexivity.
  - rewrite first_seen_snoc, elem_of_app, list_elem_of_singleton.
    destruct (decide (k' ∈ first_seen keys)) as [Hin|Hin].
    + rewrite IH. split; [tauto|]. intros [H| ->]; [exact H|].
      apply IH, Hin.
    + rewrite elem_of_app, list_elem_of_singleton, IH. reflexivity.
Qed.

Lemma first_seen_NoDup (keys : list string) : NoDup (first_seen keys).
Proof.
  induction keys as [|k keys IH] using rev_ind.
  - constructor.
  - rewrite first_seen_snoc.
    destruct (decide (k ∈ first_seen keys)) as [Hin|Hin]; [exact IH|].
    apply NoDup_app. split; [exact IH|]. split; [|apply NoDup_singleton].
    intros x Hx Hx'. apply list_elem_of_singleton in Hx'. congruence.
Qed.

Lemma bucket_append_map (seen : list string)
      (members : string -> list ActorSummary) (k : string)
      (actor : ActorSummary) :
  NoDup seen ->
  bucket_append k actor (map (fun k' => (k', members k')) seen)
  = map (fun k' => (k', members k' ++ if decide (k' = k) then [actor] else []))
        seen
    ++ (if decide (k ∈ seen) then [] else [(k, [actor])]).
Proof.
  induction seen as [|k' seen IH]; intros Hnd.
  - reflexivity.
  - apply NoDup_cons in Hnd as [Hk' Hnd]. cbn [map bucket_append].
    destruct (String.eqb_spec k' k) as [->|Hne].
    + rewrite decide_True by reflexivity.
      rewrite decide_True by (apply elem_of_cons; now left).
      rewrite app_nil_r. cbn [app]. f_equal.
      apply map_ext_in. intros k'' Hin.
      rewrite decide_False; [now rewrite app_nil_r|].
      intros ->. apply Hk', list_elem_of_In, Hin.
    + rewrite decide_False by exact Hne. rewrite app_nil_r.
      rewrite IH by exact Hnd. cbn [app]. f_equal. f_equal.
      destruct (decide (k ∈ seen)) as [Hin|Hin].
      * rewrite decide_True by (apply elem_of_cons; now right). reflexivity.
      * rewrite decide_False; [reflexivity|].
        rewrite elem_of_cons. intros [->|H]; [now apply Hne | now apply Hin].
Qed.

Lemma group_actors_snoc (l : list ActorSummary) (actor : ActorSummary) :
  group_actors key_of (l ++ [actor])
  = bucket_append (key_of actor) actor (group_actors key_of l).
Proof. unfold group_actors. now rewrite fold_left_app. Qed.

Lemma filter_key_absent (l : list ActorSummary) (k : string) :
  k ∉ map key_of l -> filter (fun a => key_of a = k) l = [].
Proof.
  induction l as [|a l IH]; intros Hk; [reflexivity|].
  cbn [map] in Hk. apply not_elem_of_cons in Hk as [Hne Hk].
  rewrite filter_cons_False by congruence. now apply IH.
Qed.

(** The buckets are the keys in first-seen order, each with the actors of
    that key in list order. *)
Lemma group_actors_closed (l : list ActorSummary) :
  group_actors key_of l
  = map (fun k => (k, filter (fun a => key_of a = k) l))
        (first_seen (map key_of l)).
Proof.
  induction l as [|actor l IH] using rev_ind; [reflexivity|].
  rewrite group_actors_snoc, IH, map_app. cbn [map].
  rewrite bucket_append_map by apply first_seen_NoDup.
  rewrite first_seen_snoc.
  assert (Hmap : map (fun k' => (k', filter (fun a => key_of a = k') l
                                     ++ if decide (k' = key_of actor)
                                        then [actor] else []))
                     (first_seen (map key_of l))
                 = map (fun k => (k, filter (fun a => key_of a = k)
                                            (l ++ [actor])))
                       (first_seen (map key_of l))).
  { apply map_ext. intros k. rewrite filter_app. do 2 f_equal.
    rewrite filter_cons, filter_nil.
    destruct (decide (k = key_of actor)) as [->|Hne].
    - now rewrite decide_True.
    - now rewrite decide_False by congruence. }
  rewrite Hmap.
  destruct (decide (key_of actor ∈ first_seen (map key_of l))) as [Hin|Hin].
  - now rewrite app_nil_r.
  - rewrite map_app. cbn [map]. do 3 f_equal.
    rewrite filter_app, filter_cons_True, filter_nil by reflexivity.
    rewrite filter_key_absent; [reflexivity|].
    intros H. now apply Hin, first_seen_elem.
Qed.

End BucketFacts.

Section DisplayFacts.

Import Actors Grouping PyStr PyNum.

Variable key_of : ActorSummary -> string.

Lemma display_grouped_Ok (threat_actors : list ActorSummary) (width : nat)
      (table : Table) (actor_list : list string) :
  display_grouped key_of threat_actors width = Ok (table, actor_list) ->
  let groups := group_actors key_of threat_actors in
  exists max_actors num_rows,
    py_max (map (fun g => length (snd g)) groups) = Ok max_actors
    /\ ceil_div max_actors (Nat.min 6 (width / 15)) = Ok num_rows
    /\ table = mkTable (map fst groups) (rows_from groups 0 num_rows 1)
    /\ actor_list = map name (scan_members groups num_rows).
Proof.
  intros H groups. unfold display_grouped in H. fold groups in H.
  destruct (py_max (map (fun g => length (snd g)) groups))
    as [max_actors|e] eqn:Emax; cbn [rbind] in H; [|discriminate].
  destruct (ceil_div max_actors (Nat.min 6 (width / 15)))
    as [num_rows|e] eqn:Erows; cbn [rbind] in H; [|discriminate].
  rewrite fold_rows in H. cbv beta iota in H. cbn [app] in H.
  injection H as <- <-.
  exists max_actors, num_rows.
  split; [reflexivity|]. split; [exact Erows|]. split; reflexivity.
Qed.

Lemma group_actors_nonempty (threat_actors : list ActorSummary) :
  threat_actors <> [] -> group_actors key_of threat_actors <> [].
Proof.
  intros Hne Hg. destruct threat_actors as [|a l]; [contradiction|].
  rewrite group_actors_closed in Hg. apply map_eq_nil in Hg.
  assert (Hin : key_of a ∈ first_seen (map key_of (a :: l))).
  { apply first_seen_elem. cbn [map]. apply elem_of_cons. now left. }
  rewrite Hg in Hin. now apply not_elem_of_nil in Hin.
Qed.

(** The view is produced for a non-empty list on a terminal at least 15
    columns wide. *)
Lemma display_grouped_returns (threat_actors : list ActorSummary)
      (width : nat) :
  threat_actors <> [] -> 15 <= width ->
  exists table actor_list,
    display_grouped key_of threat_actors width = Ok (table, actor_list).
Proof.
  intros Hne Hw. unfold display_grouped.
  pose proof (group_actors_nonempty threat_actors Hne) as Hg.
  destruct (group_actors key_of threat_actors) as [|g gs] eqn:E;
    [contradiction|].
  cbn [map py_max rbind]. unfold ceil_div.
  assert (Hc : Nat.min 6 (width / 15) <> 0).
  { pose proof (Nat.div_le_lower_bound width 15 1). lia. }
  apply Nat.eqb_neq in Hc. rewrite Hc. cbn [rbind].
  rewrite fold_rows. cbv beta iota. eauto.
Qed.

(** Below 15 columns the row count divides by zero. *)
Lemma display_grouped_narrow (threat_actors : list ActorSummary)
      (width : nat) :
  threat_actors <> [] -> width < 15 ->
  display_grouped key_of threat_actors width = Raise ZeroDivisionError.
Proof.
  intros Hne Hw. unfold display_grouped.
  pose proof (group_actors_nonempty threat_actors Hne) as Hg.
  destruct (group_actors key_of threat_actors) as [|g gs] eqn:E;
    [contradiction|].
  cbn [map py_max rbind].
  rewrite (Nat.div_small width 15 Hw). reflexivity.
Qed.

(** Where the view is produced, the column count needs no clamp and the
    table has [ceil(max_actors / num_columns)] rows. *)
Lemma display_grouped_layout (threat_actors : list ActorSummary)
      (width : nat) (table : Table) (actor_list : list string) :
  display_grouped key_of threat_actors width = Ok (table, actor_list) ->
  Nat.min 6 (width / 15) = spec_num_columns width
  /\ exists max_actors,
      py_max (map (fun g => length (snd g))
                  (group_actors key_of threat_actors)) = Ok max_actors
      /\ ceil_div max_actors (spec_num_columns width)
         = Ok (length (rows table)).
Proof.
  intros H.
  destruct (display_grouped_Ok _ _ _ _ H)
    as (max_actors & num_rows & Hmax & Hrows & -> & _).
  assert (Hc : Nat.min 6 (width / 15) <> 0).
  { intros Hz. rewrite Hz in Hrows. discriminate. }
  assert (Hs : Nat.min 6 (width / 15) = spec_num_columns width)
    by (unfold spec_num_columns; lia).
  split; [exact Hs|]. exists max_actors. split; [exact Hmax|].
  rewrite <- Hs, Hrows. cbn [rows]. now rewrite rows_from_length.
Qed.

End DisplayFacts.



(** The table has one column per bucket, whatever the width; the column
    count [min(6, width // 15)] only divides the largest bucket size to give
    the row count.  At width 80 that count is 5, the table of the three
    sample actors gets [ceil(2 / 5) = 1] row, and APT41, second in its
    bucket, is neither shown nor selectable. *)
Example columns_are_buckets :
  Grouping.display_threat_actors_by_geo Samples.three_actors 80
  = Ok (Grouping.mkTable ["China"; "Russia"] [["1. APT1"; "2. APT28"]],
        ["APT1"; "APT28"]).
Proof. vm_compute. reflexivity. Qed.

(** C4 fails on the code.  The column count is [min(6, width // 15)] with
    no clamp: on a terminal 14 columns wide it is 0, where the clamped count
    is 1, and the row count divides by it. *)
Lemma narrow_terminal_divides_by_zero :
  Nat.min 6 (14 / 15) = 0
  /\ Grouping.spec_num_columns 14 = 1
  /\ Grouping.display_threat_actors_by_geo Samples.three_actors 14
     = Raise ZeroDivisionError
  /\ Grouping.display_threat_actors_by_activity Samples.three_actors 14
     = Raise ZeroDivisionError
  /\ Grouping.display_threat_actors_by_sector Samples.three_actors 14
     = Raise ZeroDivisionError.
Proof. repeat split; vm_compute; reflexivity. Qed.

(** * Further properties of the scripts *)

(** ** What the resolvers return *)

Section ResolverEntries.

Import PyStr Resolver.

Lemma resolve_scan_In_inv {B : Type} (links : StixObject -> bool)
      (ref_of : StixObject -> string) (ty : string)
      (mk : nat -> StixObject -> B) (objs : list StixObject) (x : B) :
  In x (resolve_scan links ref_of ty mk objs) ->
  exists r j t,
    In r objs /\ links r = true
    /\ find_object objs ty (ref_of r) = Some (j, t) /\ x = mk j t.
Proof.
  unfold resolve_scan, resolve_part. intros H.
  apply in_flat_map in H as (r & Hr & H).
  destruct (links r) eqn:El; [|contradiction].
  destruct (find_object objs ty (ref_of r)) as [[j t]|] eqn:Ef;
    [|contradiction].
  destruct H as [<-|[]]. exists r, j, t. auto.
Qed.

Lemma links_from_true (anchor : string) (r : StixObject) :
  links_from anchor r = true <->
  o_type r = "relationship" /\ source_ref r = anchor
  /\ contains "attack-pattern" (target_ref r) = true.
Proof.
  unfold links_from. rewrite !andb_true_iff, !String.eqb_eq. tauto.
Qed.

Lemma links_to_true (anchor : string) (r : StixObject) :
  links_to anchor r = true <->
  o_type r = "relationship" /\ target_ref r = anchor
  /\ contains "intrusion-set" (source_ref r) = true.
Proof.
  unfold links_to. rewrite !andb_true_iff, !String.eqb_eq. tauto.
Qed.

Lemma resolve_part_length {B : Type} (links : StixObject -> bool)
      (ref_of : StixObject -> string) (ty : string)
      (mk : nat -> StixObject -> B) (objs part : list StixObject) :
  length (resolve_part links ref_of ty mk objs part)
  = length (filter (fun r => links r = true
                             /\ is_Some (find_object objs ty (ref_of r)))
                   part).
Proof.
  induction part as [|r part IH]; [reflexivity|].
  unfold resolve_part in *. cbn [flat_map].
  rewrite length_app, IH, filter_cons.
  destruct (links r) eqn:El.
  - destruct (find_object objs ty (ref_of r)) as [[j t]|] eqn:Ef.
    + rewrite decide_True by (split; [reflexivity | eauto]). reflexivity.
    + rewrite decide_False; [reflexivity|].
      intros [_ [x Hx]]. discriminate.
  - rewrite decide_False; [reflexivity|]. intros [H _]. discriminate.
Qed.

End ResolverEntries.

(** X1.  A resolver invents nothing: every entry of a result is the summary
    of an object of the bundle that has the target type, found through a
    relationship object of the bundle that passes the resolver's test and
    carries the object's id as its ref. *)
Theorem resolver_entries_are_linked :
  forall (objs : list StixObject) (anchor : string),
    (forall x : Resolver.ToolTechnique,
        In x (Resolver.get_techniques_for_tool (mkContent (Some objs)) anchor) ->
        exists r t j,
          In r objs /\ o_type r = "relationship" /\ source_ref r = anchor
          /\ PyStr.contains "attack-pattern" (target_ref r) = true
          /\ objs !! j = Some t /\ o_type t = "attack-pattern"
          /\ o_id t = target_ref r /\ x = Resolver.tool_technique t)
    /\ (forall x : Resolver.ToolActor,
           In x (Resolver.get_actors_for_tool (mkContent (Some objs)) anchor) ->
           exists r t j,
             In r objs /\ o_type r = "relationship" /\ target_ref r = anchor
             /\ PyStr.contains "intrusion-set" (source_ref r) = true
             /\ objs !! j = Some t /\ o_type t = "intrusion-set"
             /\ o_id t = source_ref r /\ x = Resolver.tool_actor t)
    /\ (forall x : StixObject,
           In x (Resolver.techniques_seen (mkContent (Some objs)) anchor) ->
           exists r t j,
             In r objs /\ o_type r = "relationship" /\ source_ref r = anchor
             /\ PyStr.contains "attack-pattern" (target_ref r) = true
             /\ objs !! j = Some t /\ o_type t = "attack-pattern"
             /\ o_id t = target_ref r /\ x = Resolver.enrich t).
Proof.
  intros objs anchor. split; [|split]; intros x Hx.
  - unfold Resolver.get_techniques_for_tool, get_objects in Hx.
    cbn [objects] in Hx.
    eapply Permutation_in in Hx; [|apply sorted_Permutation].
    rewrite tool_techniques_scan_closed in Hx.
    apply resolve_scan_In_inv in Hx as (r & j & t & Hr & Hl & Hf & ->).
    apply links_from_true in Hl as (H1 & H2 & H3).
    apply find_object_lookup in Hf as (H4 & H5 & H6).
    exists r, t, j. auto 10.
  - unfold Resolver.get_actors_for_tool, get_objects in Hx.
    cbn [objects] in Hx. rewrite tool_actors_scan_closed in Hx.
    apply resolve_scan_In_inv in Hx as (r & j & t & Hr & Hl & Hf & ->).
    apply links_to_true in Hl as (H1 & H2 & H3).
    apply find_object_lookup in Hf as (H4 & H5 & H6).
    exists r, t, j. auto 10.
  - rewrite techniques_seen_closed in Hx.
    apply resolve_scan_In_inv in Hx as (r & j & t & Hr & Hl & Hf & ->).
    apply links_from_true in Hl as (H1 & H2 & H3).
    apply find_object_lookup in Hf as (H4 & H5 & H6).
    exists r, t, j. auto 10.
Qed.

(** X2.  A resolver neither merges nor drops edges: its result has one
    entry for each object of the bundle that passes its test and whose ref
    finds an object of the target type, so that an edge stored twice is
    returned twice. *)
Theorem resolver_one_entry_per_edge :
  forall (objs : list StixObject) (anchor : string),
    length (Resolver.get_techniques_for_tool (mkContent (Some objs)) anchor)
    = length (filter (fun r => Resolver.links_from anchor r = true
                               /\ is_Some (Resolver.find_object
                                             objs "attack-pattern" (target_ref r)))
                     objs)
    /\ length (Resolver.get_actors_for_tool (mkContent (Some objs)) anchor)
       = length (filter (fun r => Resolver.links_to anchor r = true
                                  /\ is_Some (Resolver.find_object
                                                objs "intrusion-set" (source_ref r)))
                        objs)
    /\ length (snd (Resolver.get_techniques_for_actor
                      (mkContent (Some objs)) anchor))
       = length (filter (fun r => Resolver.links_from anchor r = true
                                  /\ is_Some (Resolver.find_object
                                                objs "attack-pattern" (target_ref r)))
                        objs)
    /\ length (Resolver.techniques_seen (mkContent (Some objs)) anchor)
       = length (snd (Resolver.get_techniques_for_actor
                        (mkContent (Some objs)) anchor)).
Proof.
  intros objs anchor. split; [|split; [|split]].
  - unfold Resolver.get_techniques_for_tool, get_objects. cbn [objects].
    rewrite (Permutation_length (sorted_Permutation _ _)).
    apply resolve_part_length.
  - apply resolve_part_length.
  - rewrite get_techniques_for_actor_closed. cbn [snd].
    apply resolve_part_length.
  - rewrite techniques_seen_closed, get_techniques_for_actor_closed. cbn [snd].
    unfold Resolver.actor_refs, Resolver.resolve_scan.
    now rewrite !resolve_part_length.
Qed.

(** X3.  The techniques of a tool come back ordered by their kill-chain
    string, and techniques with the same kill-chain string keep the order
    in which the scan of the bundle met them. *)
Theorem tool_techniques_sorted_by_kill_chain :
  forall (attack_stix_content : Content) (tool_id : string),
    let result :=
      Resolver.get_techniques_for_tool attack_stix_content tool_id in
    let scan :=
      Resolver.tool_techniques_scan (get_objects attack_stix_content) tool_id in
    Sorted (PySort.key_le Resolver.kill_chain) result
    /\ Permutation result scan
    /\ (forall k : string,
           filter (fun x => Resolver.kill_chain x = k) result
           = filter (fun x => Resolver.kill_chain x = k) scan).
Proof.
  intros content tool_id result scan. split; [|split].
  - apply sorted_Sorted.
  - apply sorted_Permutation.
  - intros k. apply sorted_stable.
Qed.

(** ** The bundle under the writes of [get_techniques_for_actor] *)

Section FrameFacts.

Import PyStr Resolver Actors Frame.

Lemma erase_enrich (o : StixObject) : erase (enrich o) = erase o.
Proof. destruct o; reflexivity. Qed.

Lemma enrich_erase (o : StixObject) : enrich (erase o) = enrich o.
Proof. destruct o; reflexivity. Qed.

Lemma erase_keys (o : StixObject) :
  o_type (erase o) = o_type o /\ o_id (erase o) = o_id o.
Proof. split; reflexivity. Qed.

Lemma map_erase_enrich_at (refs : list nat) (objs : list StixObject) :
  map erase (enrich_at refs objs) = map erase objs.
Proof.
  apply list_eq. intros i. unfold enrich_at.
  change (map erase ?l) with (erase <$> l).
  rewrite !list_lookup_fmap, list_lookup_imap.
  destruct (objs !! i) as [o|]; [|reflexivity]. simpl.
  destruct (decide (i ∈ refs)); [rewrite erase_enrich|]; reflexivity.
Qed.

Lemma threat_actors_erase (objs : list StixObject) :
  get_all_threat_actors (mkContent (Some (map erase objs)))
  = get_all_threat_actors (mkContent (Some objs)).
Proof.
  unfold get_all_threat_actors, get_objects. cbn [objects]. f_equal.
  rewrite flat_map_concat_map, map_map, <- flat_map_concat_map.
  reflexivity.
Qed.

Lemma first_actor_id_erase (objs : list StixObject) (actor_name : string) :
  first_actor_id (map erase objs) actor_name = first_actor_id objs actor_name.
Proof.
  induction objs as [|o objs IH]; [reflexivity|].
  cbn [map first_actor_id]. now rewrite IH.
Qed.

Lemma load_tools_erase (objs : list StixObject) :
  load_tools (mkContent (Some (map erase objs)))
  = load_tools (mkContent (Some objs)).
Proof.
  unfold load_tools, get_objects. cbn [objects].
  generalize (@nil (string * ToolEntry)).
  induction objs as [|o objs IH]; intros acc; [reflexivity|].
  cbn [map fold_left]. now rewrite IH.
Qed.

Lemma scan_erase {B : Type} (links : StixObject -> bool)
      (ref_of : StixObject -> string) (ty : string)
      (mk : nat -> StixObject -> B) (objs : list StixObject) :
  (forall o, links (erase o) = links o) ->
  (forall o, ref_of (erase o) = ref_of o) ->
  (forall j t, mk j (erase t) = mk j t) ->
  resolve_scan links ref_of ty mk (map erase objs)
  = resolve_scan links ref_of ty mk objs.
Proof.
  intros Hl Hr Hmk. apply resolve_scan_map; auto using erase_keys.
Qed.

(** Everything the scripts derive from a bundle is derived from the erased
    objects. *)
Lemma views_of_erased (objs : list StixObject) :
  get_all_threat_actors (mkContent (Some (map erase objs)))
  = get_all_threat_actors (mkContent (Some objs))
  /\ (forall n, get_actor_id (mkContent (Some (map erase objs))) n
                = get_actor_id (mkContent (Some objs)) n)
  /\ load_tools (mkContent (Some (map erase objs)))
     = load_tools (mkContent (Some objs))
  /\ (forall id, get_techniques_for_tool (mkContent (Some (map erase objs))) id
                 = get_techniques_for_tool (mkContent (Some objs)) id)
  /\ (forall id, get_actors_for_tool (mkContent (Some (map erase objs))) id
                 = get_actors_for_tool (mkContent (Some objs)) id)
  /\ (forall id, actor_refs (map erase objs) id = actor_refs objs id)
  /\ (forall id, techniques_seen (mkContent (Some (map erase objs))) id
                 = techniques_seen (mkContent (Some objs)) id).
Proof.
  split; [apply threat_actors_erase|].
  split; [intros n; apply first_actor_id_erase|].
  split; [apply load_tools_erase|].
  split; [|split; [|split]]; intros id.
  - unfold get_techniques_for_tool, get_objects. cbn [objects].
    rewrite !tool_techniques_scan_closed. f_equal.
    apply scan_erase; first [reflexivity | intros _ t; now destruct t].
  - unfold get_actors_for_tool, get_objects. cbn [objects].
    rewrite !tool_actors_scan_closed.
    apply scan_erase; first [reflexivity | intros _ t; now destruct t].
  - apply scan_erase; reflexivity.
  - rewrite !techniques_seen_closed.
    apply scan_erase; first [reflexivity | intros _ t; apply enrich_erase].
Qed.

Lemma views_same_raw (c1 c2 : Content) :
  same_raw c1 c2 ->
  get_all_threat_actors c1 = get_all_threat_actors c2
  /\ (forall n, get_actor_id c1 n = get_actor_id c2 n)
  /\ load_tools c1 = load_tools c2
  /\ (forall id, get_techniques_for_tool c1 id = get_techniques_for_tool c2 id)
  /\ (forall id, get_actors_for_tool c1 id = get_actors_for_tool c2 id)
  /\ (forall id, snd (get_techniques_for_actor c1 id)
                 = snd (get_techniques_for_actor c2 id))
  /\ (forall id, techniques_seen c1 id = techniques_seen c2 id).
Proof.
  destruct c1 as [[objs1|]], c2 as [[objs2|]]; unfold same_raw; cbn [objects];
    intros H; try contradiction; [|repeat split].
  destruct (views_of_erased objs1) as (A1 & A2 & A3 & A4 & A5 & A6 & A7).
  destruct (views_of_erased objs2) as (B1 & B2 & B3 & B4 & B5 & B6 & B7).
  rewrite H in A1, A2, A3, A4, A5, A6, A7.
  split; [congruence|]. split; [intros n; rewrite <- A2, <- B2; reflexivity|].
  split; [congruence|].
  split; [intros id; rewrite <- A4, <- B4; reflexivity|].
  split; [intros id; rewrite <- A5, <- B5; reflexivity|].
  split; [|intros id; rewrite <- A7, <- B7; reflexivity].
  intros id. rewrite !get_techniques_for_actor_closed. cbn [snd].
  rewrite <- A6, <- B6. reflexivity.
Qed.

Lemma same_raw_refl (c : Content) : same_raw c c.
Proof. destruct c as [[objs|]]; unfold same_raw; cbn [objects]; auto. Qed.

Lemma same_raw_trans (c1 c2 c3 : Content) :
  same_raw c1 c2 -> same_raw c2 c3 -> same_raw c1 c3.
Proof.
  destruct c1 as [[o1|]], c2 as [[o2|]], c3 as [[o3|]]; unfold same_raw;
    cbn [objects]; try tauto; congruence.
Qed.

Lemma same_raw_after_call (c : Content) (actor_id : string) :
  same_raw (fst (get_techniques_for_actor c actor_id)) c.
Proof.
  destruct c as [[objs|]]; [|exact I].
  rewrite get_techniques_for_actor_closed. cbn [fst]. unfold same_raw.
  cbn [objects]. apply map_erase_enrich_at.
Qed.

Lemma enrich_at_twice (r1 r2 : list nat) (objs : list StixObject) :
  enrich_at r2 (enrich_at r1 objs) = enrich_at (r1 ++ r2) objs.
Proof.
  apply list_eq. intros i. unfold enrich_at. rewrite !list_lookup_imap.
  destruct (objs !! i) as [o|]; [|reflexivity]. simpl. f_equal.
  destruct (decide (i ∈ r1)) as [H1|H1], (decide (i ∈ r2)) as [H2|H2],
    (decide (i ∈ r1 ++ r2)) as [H|H];
    rewrite ?enrich_idempotent; try reflexivity;
    exfalso; rewrite elem_of_app in H; tauto.
Qed.

Lemma enrich_at_ext (r1 r2 : list nat) (objs : list StixObject) :
  (forall i, i ∈ r1 <-> i ∈ r2) -> enrich_at r1 objs = enrich_at r2 objs.
Proof.
  intros H. unfold enrich_at. apply imap_ext. intros i o _. simpl.
  destruct (decide (i ∈ r1)) as [H1|H1], (decide (i ∈ r2)) as [H2|H2];
    try reflexivity; exfalso; apply H in H1 || apply H in H2; tauto.
Qed.

Lemma call_after_call (objs : list StixObject) (a b : string) :
  get_techniques_for_actor
    (fst (get_techniques_for_actor (mkContent (Some objs)) a)) b
  = (mkContent (Some (enrich_at (actor_refs objs a ++ actor_refs objs b) objs)),
     actor_refs objs b).
Proof.
  rewrite get_techniques_for_actor_closed. cbn [fst].
  rewrite get_techniques_for_actor_closed.
  assert (Hrefs : actor_refs (enrich_at (actor_refs objs a) objs) b
                  = actor_refs objs b).
  { destruct (views_of_erased (enrich_at (actor_refs objs a) objs))
      as (_ & _ & _ & _ & _ & H1 & _).
    destruct (views_of_erased objs) as (_ & _ & _ & _ & _ & H2 & _).
    rewrite <- H1, map_erase_enrich_at. apply H2. }
  rewrite Hrefs, enrich_at_twice. reflexivity.
Qed.

End FrameFacts.

(** X4.  What [get_techniques_for_actor] writes into the bundle is seen by
    nothing else: on the bundle it leaves behind, the actor list, the lookup
    of an actor's id, the tool dict, the techniques and the actors of every
    tool, and the techniques of every actor are what they are on the bundle
    it was given. *)
Theorem actor_call_is_invisible :
  forall (attack_stix_content : Content) (actor_id : string),
    let after :=
      fst (Resolver.get_techniques_for_actor attack_stix_content actor_id) in
    Actors.get_all_threat_actors after
    = Actors.get_all_threat_actors attack_stix_content
    /\ (forall n, Actors.get_actor_id after n
                  = Actors.get_actor_id attack_stix_content n)
    /\ Resolver.load_tools after = Resolver.load_tools attack_stix_content
    /\ (forall id, Resolver.get_techniques_for_tool after id
                   = Resolver.get_techniques_for_tool attack_stix_content id)
    /\ (forall id, Resolver.get_actors_for_tool after id
                   = Resolver.get_actors_for_tool attack_stix_content id)
    /\ (forall id, snd (Resolver.get_techniques_for_actor after id)
                   = snd (Resolver.get_techniques_for_actor
                            attack_stix_content id))
    /\ (forall id, Resolver.techniques_seen after id
                   = Resolver.techniques_seen attack_stix_content id).
Proof.
  intros content actor_id after.
  apply views_same_raw, same_raw_after_call.
Qed.

(** X5.  Asking for the techniques of the same actor again returns the same
    references and writes nothing new; and after the techniques of two
    actors have been asked for, the bundle is the same whichever was asked
    first. *)
Theorem actor_call_idempotent_and_commutes :
  forall (attack_stix_content : Content) (a b : string),
    let once := Resolver.get_techniques_for_actor attack_stix_content a in
    Resolver.get_techniques_for_actor (fst once) a = once
    /\ fst (Resolver.get_techniques_for_actor (fst once) b)
       = fst (Resolver.get_techniques_for_actor
                (fst (Resolver.get_techniques_for_actor attack_stix_content b))
                a).
Proof.
  intros [[objs|]] a b; [|split; reflexivity]. cbn zeta.
  rewrite !call_after_call. split.
  - rewrite get_techniques_for_actor_closed. do 3 f_equal.
    apply enrich_at_ext. intros i. rewrite elem_of_app. tauto.
  - cbn [fst]. do 2 f_equal.
    apply enrich_at_ext. intros i. rewrite !elem_of_app. tauto.
Qed.

(** ** From a listed name back to the object *)

Section ActorIdFacts.

Import PyStr Actors.

(** The test of [get_actor_id] on one object. *)
Local Abbreviation named obj actor_name :=
  (o_type obj = "intrusion-set" /\ lower (o_name obj) = lower actor_name).

Lemma first_actor_id_test (obj : StixObject) (actor_name : string) :
  is_intrusion_set obj && String.eqb (lower (o_name obj)) (lower actor_name)
  = true
  <-> named obj actor_name.
Proof.
  unfold is_intrusion_set. rewrite andb_true_iff, !String.eqb_eq. tauto.
Qed.

Lemma first_actor_id_Some (objs : list StixObject) (actor_name id : string) :
  first_actor_id objs actor_name = Some id ->
  exists pre obj post,
    objs = pre ++ obj :: post /\ named obj actor_name /\ o_id obj = id
    /\ Forall (fun o => ~ named o actor_name) pre.
Proof.
  induction objs as [|o objs IH]; [discriminate|]. cbn [first_actor_id].
  destruct (is_intrusion_set o
            && String.eqb (lower (o_name o)) (lower actor_name)) eqn:E.
  - intros [= <-]. exists [], o, objs.
    split; [reflexivity|]. split; [now apply first_actor_id_test|]. auto.
  - intros H. destruct (IH H) as (pre & obj & post & -> & Hn & Hid & Hpre).
    exists (o :: pre), obj, post. repeat split; try tauto.
    constructor; [|exact Hpre].
    rewrite <- first_actor_id_test, E. discriminate.
Qed.

Lemma first_actor_id_None (objs : list StixObject) (actor_name : string) :
  first_actor_id objs actor_name = None <->
  Forall (fun o => ~ named o actor_name) objs.
Proof.
  induction objs as [|o objs IH]; cbn [first_actor_id].
  - split; auto.
  - destruct (is_intrusion_set o
              && String.eqb (lower (o_name o)) (lower actor_name)) eqn:E.
    + split; [discriminate|]. intros H. apply Forall_cons in H as [H _].
      exfalso. apply H, first_actor_id_test, E.
    + rewrite IH. split; intros H.
      * constructor; [|exact H]. rewrite <- first_actor_id_test, E.
        discriminate.
      * now apply Forall_cons in H as [_ H].
Qed.

End ActorIdFacts.

(** X6.  [get_actor_id] returns the id of the first intrusion set, in
    bundle order, whose name equals the given name up to case, and [None]
    exactly when there is none.  Every name in the list of
    [get_all_threat_actors] is found.  Two names that differ only in case
    get the same answer, so of two intrusion sets with such names only the
    first can be reached from the list. *)
Theorem get_actor_id_first_match :
  forall (attack_stix_content : Content) (actor_name : string),
    (forall id : string,
        Actors.get_actor_id attack_stix_content actor_name = Some id ->
        exists pre obj post,
          get_objects attack_stix_content = pre ++ obj :: post
          /\ o_type obj = "intrusion-set"
          /\ PyStr.lower (o_name obj) = PyStr.lower actor_name
          /\ o_id obj = id
          /\ Forall (fun o => ~ (o_type o = "intrusion-set"
                                 /\ PyStr.lower (o_name o)
                                    = PyStr.lower actor_name)) pre)
    /\ (Actors.get_actor_id attack_stix_content actor_name = None <->
        Forall (fun o => ~ (o_type o = "intrusion-set"
                            /\ PyStr.lower (o_name o)
                               = PyStr.lower actor_name))
               (get_objects attack_stix_content))
    /\ (forall a : Actors.ActorSummary,
           In a (Actors.get_all_threat_actors attack_stix_content) ->
           exists id,
             Actors.get_actor_id attack_stix_content (Actors.name a) = Some id)
    /\ (forall other : string,
           PyStr.lower other = PyStr.lower actor_name ->
           Actors.get_actor_id attack_stix_content other
           = Actors.get_actor_id attack_stix_content actor_name).
Proof.
  intros content actor_name. unfold Actors.get_actor_id.
  split; [|split; [|split]].
  - intros id H.
    destruct (first_actor_id_Some _ _ _ H)
      as (pre & obj & post & H1 & [H2 H3] & H4 & H5).
    exists pre, obj, post. auto.
  - apply first_actor_id_None.
  - intros a Ha.
    unfold Actors.get_all_threat_actors in Ha.
    eapply Permutation_in in Ha; [|apply sorted_Permutation].
    rewrite flat_map_summarize in Ha.
    apply in_map_iff in Ha as (obj & <- & Hobj).
    apply list_elem_of_In, list_elem_of_filter in Hobj as [Hty Hobj].
    destruct (Actors.first_actor_id (get_objects content)
                                    (Actors.name (Actors.summarize obj)))
      as [id|] eqn:E; [eauto|].
    apply first_actor_id_None in E.
    rewrite Forall_forall in E. exfalso.
    apply (E obj Hobj). split; [exact Hty|reflexivity].
  - intros other Hother.
    induction (get_objects content) as [|o objs IH]; [reflexivity|].
    cbn [Actors.first_actor_id]. now rewrite Hother, IH.
Qed.

(** ** Invariants of super.py's loop *)

Section SessionFacts.

Import PyStr PyNum Actors Resolver Grouping Pager Session Frame SessionInv.

Lemma display_grouped_Raise (key_of : ActorSummary -> string)
      (threat_actors : list ActorSummary) (width : nat) (e : exn) :
  display_grouped key_of threat_actors width = Raise e ->
  (e = ValueError /\ threat_actors = [])
  \/ (e = ZeroDivisionError /\ threat_actors <> [] /\ width < 15).
Proof.
  intros H. destruct threat_actors as [|a l].
  - left. vm_compute in H. split; congruence.
  - right. destruct (Nat.lt_ge_cases width 15) as [Hw|Hw].
    + rewrite display_grouped_narrow in H by (auto; discriminate).
      split; [congruence|]. split; [discriminate | exact Hw].
    + destruct (display_grouped_returns key_of (a :: l) width)
        as (t & al & Hok); [discriminate | exact Hw|]. congruence.
Qed.

Lemma pager_step_range (total current_page p : nat) (input : string)
      (invalid : bool) :
  1 <= current_page <= total ->
  pager_step total current_page input = Continue p invalid ->
  1 <= p <= total.
Proof.
  intros Hr. unfold pager_step.
  destruct (Nat.eqb_spec current_page total);
    destruct (String.eqb (lower input) ""), (String.eqb (lower input) "p"),
      (String.eqb (lower input) "q");
    destruct (Nat.ltb_spec 1 current_page),
      (Nat.ltb_spec current_page total);
    cbn; intros [= <- <-] || discriminate; lia.
Qed.

Lemma total_pages_nonempty {A : Type} (items : list A) (total : nat) :
  items <> [] -> total_pages items page_size = Ok total -> 1 <= total.
Proof.
  intros Hne H. apply ceil_div_bounds in H.
  destruct items; [contradiction|]. cbn [length] in H. unfold page_size in H.
  lia.
Qed.

Lemma open_actor_wf (width : nat) (content content' : Content)
      (selected_actor : string) (mode' : Mode) (out : list Output) :
  open_actor content selected_actor = ((content', mode'), out) ->
  same_raw content' content /\ wf_mode width content' mode'.
Proof.
  unfold open_actor.
  destruct (get_actor_id content selected_actor) as [actor_id|];
    [|intros [= <- <- <-]; split; [apply same_raw_refl | exact I]].
  destruct (String.eqb actor_id "");
    [intros [= <- <- <-]; split; [apply same_raw_refl | exact I]|].
  pose proof (same_raw_after_call content actor_id) as Hraw.
  destruct (get_techniques_for_actor content actor_id)
    as [c1 techniques] eqn:E. cbn [fst] in Hraw.
  destruct techniques as [|j techniques];
    [intros [= <- <- <-]; split; [exact Hraw | exact I]|].
  destruct (total_pages (j :: techniques) page_size) as [total|e] eqn:Et.
  - intros [= <- <- <-]. split; [exact Hraw|]. cbn [wf_mode].
    split; [discriminate|]. split; [exact Et|].
    split; [split; [lia | eapply total_pages_nonempty; [|exact Et]; discriminate]|].
    destruct content as [[objs|]]; [|discriminate].
    rewrite get_techniques_for_actor_closed in E. injection E as <- E.
    apply Forall_forall. intros i Hi. apply list_elem_of_In in Hi.
    rewrite <- E in Hi. unfold get_objects. cbn [objects].
    destruct (actor_refs_valid _ _ _ Hi) as (t & Ht & _). eauto.
  - unfold total_pages, ceil_div, page_size in Et. discriminate.
Qed.

Lemma step_wf (width : nat) (content content' : Content) (mode mode' : Mode)
      (input : Input) (out : list Output) :
  wf_mode width content mode ->
  step width (content, mode) input = Some ((content', mode'), out) ->
  same_raw content' content /\ wf_mode width content' mode'.
Proof.
  intros Hwf. unfold step.
  destruct mode as [|ta|al|techs nm total cp|tools names|tools names| |e];
    destruct input as [[| |]|[axis|]|text]; try discriminate;
    cbn [wf_mode] in Hwf.
  - (* main menu: Threat Actors *)
    intros [= <- <- <-]. split; [apply same_raw_refl | reflexivity].
  - (* main menu: Tools *)
    intros [= <- <- <-]. split; [apply same_raw_refl | reflexivity].
  - (* main menu: Exit *)
    intros [= <- <- <-]. split; [apply same_raw_refl | exact I].
  - (* actor menu: a view *)
    unfold show_grouped, display_threat_actors_by_geo,
      display_threat_actors_by_activity, display_threat_actors_by_sector.
    destruct axis;
      match goal with
      | |- context [display_grouped ?k ta width] =>
          destruct (display_grouped k ta width) as [[table al]|e] eqn:E
      end;
      intros [= <- <- <-]; (split; [apply same_raw_refl|]);
      try exact I; cbn [wf_mode]; unfold crash_cause; rewrite <- Hwf;
      apply display_grouped_Raise in E; exact E.
  - (* actor menu: back *)
    intros [= <- <- <-]. split; [apply same_raw_refl | exact I].
  - (* actor prompt *)
    destruct (select_cases al text) as [[a Ha]|Ha]; rewrite Ha.
    + intros [= H]. eapply open_actor_wf. exact H.
    + intros [= <- <- <-]. split; [apply same_raw_refl | exact I].
  - (* paging *)
    destruct Hwf as (Hne & Ht & Hr & Hv).
    destruct (pager_step total cp text) as [|p invalid] eqn:E.
    + intros [= <- <- <-]. split; [apply same_raw_refl | exact I].
    + intros [= <- <- <-]. split; [apply same_raw_refl|]. cbn [wf_mode].
      pose proof (pager_step_range _ _ _ _ _ Hr E) as Hp. tauto.
  - (* tool prompt *)
    destruct (parse_choice_cases (length names) text) as [(c & Hc & Hlt)|Hc];
      rewrite Hc.
    + subst names. rewrite length_map in Hlt.
      destruct (lookup_lt_is_Some_2 tools c Hlt) as [[id entry] Hl].
      change (map ?f tools) with (f <$> tools).
      rewrite list_lookup_fmap, Hl. cbn.
      intros [= <- <- <-]. split; [apply same_raw_refl | reflexivity].
    + intros [= <- <- <-]. split; [apply same_raw_refl | exact Hwf].
  - (* tool panel shown *)
    destruct (String.eqb (lower text) "q"); intros [= <- <- <-];
      (split; [apply same_raw_refl|]); [exact I | exact Hwf].
Qed.

Lemma run_wf (width : nat) (inputs : list Input) (content content' : Content)
      (mode mode' : Mode) (out : list Output) :
  wf_mode width content mode ->
  run width (content, mode) inputs = Some ((content', mode'), out) ->
  same_raw content' content /\ wf_mode width content' mode'.
Proof.
  revert content mode out.
  induction inputs as [|input rest IH]; intros content mode out Hwf.
  - intros [= <- <- <-]. split; [apply same_raw_refl | exact Hwf].
  - cbn [run].
    destruct (step width (content, mode) input) as [[[c1 m1] o1]|] eqn:E;
      [|discriminate].
    destruct (step_wf _ _ _ _ _ _ _ Hwf E) as [Hraw1 Hwf1].
    destruct (run width (c1, m1) rest) as [[[c2 m2] o2]|] eqn:E2;
      [|discriminate].
    intros [= <- <- <-].
    destruct (IH _ _ _ Hwf1 E2) as [Hraw2 Hwf2].
    split; [eapply same_raw_trans; eassumption | exact Hwf2].
Qed.

Lemma deref_length (content : Content) (refs : list nat) :
  Forall (fun j => is_Some (get_objects content !! j)) refs ->
  length (deref content refs) = length refs.
Proof.
  unfold deref. induction 1 as [|j refs [t Ht] _ IH]; [reflexivity|].
  cbn [omap list_omap]. rewrite Ht. cbn [length]. now rewrite IH.
Qed.

End SessionFacts.

(** X7.  Started at its main menu, super.py's loop stops with an uncaught
    exception in two cases only: [ValueError], when a grouped view is asked
    for and the bundle has no intrusion set, and [ZeroDivisionError], when
    a grouped view is asked for on a terminal less than 15 columns wide.
    No line typed at a prompt makes it crash. *)
Theorem session_crash_causes :
  forall (width : nat) (content0 content : Content) (inputs : list Session.Input)
         (e : exn) (out : list Session.Output),
    Session.run width (content0, Session.MainMenu) inputs
    = Some ((content, Session.Crashed e), out) ->
    (e = ValueError /\ Actors.get_all_threat_actors content0 = [])
    \/ (e = ZeroDivisionError /\ Actors.get_all_threat_actors content0 <> []
        /\ width < 15).
Proof.
  intros width content0 content inputs e out H.
  destruct (run_wf width inputs content0 content Session.MainMenu _ out I H)
    as [Hraw Hwf].
  cbn [SessionInv.wf_mode] in Hwf. unfold SessionInv.crash_cause in Hwf.
  destruct (views_same_raw _ _ Hraw) as (Ha & _). now rewrite Ha in Hwf.
Qed.

(** The three sample actors' bundle asked for its geography view, 14
    columns wide. *)
Lemma session_crash_causes_witness :
  Session.run 14 (Samples.small_bundle, Session.MainMenu)
    [Session.PickMain Session.ThreatActors;
     Session.PickActor (Session.ViewBy Classifier.Geography)]
  = Some ((Samples.small_bundle, Session.Crashed ZeroDivisionError), [])
  /\ ((ZeroDivisionError = ValueError
       /\ Actors.get_all_threat_actors Samples.small_bundle = [])
      \/ (ZeroDivisionError = ZeroDivisionError
          /\ Actors.get_all_threat_actors Samples.small_bundle <> []
          /\ 14 < 15)).
Proof.
  assert (H : Session.run 14 (Samples.small_bundle, Session.MainMenu)
                [Session.PickMain Session.ThreatActors;
                 Session.PickActor (Session.ViewBy Classifier.Geography)]
              = Some ((Samples.small_bundle, Session.Crashed ZeroDivisionError),
                      []))
    by (vm_compute; reflexivity).
  split; [exact H|].
  exact (session_crash_causes 14 Samples.small_bundle Samples.small_bundle
           _ ZeroDivisionError [] H).
Defined.

(** X8.  Whenever super.py's loop, started at its main menu, is at the
    paging prompt, the page number lies between 1 and the page count, the
    page count is [ceil(len(techniques) / 5)], and the page on the screen
    shows at least one and at most five techniques, each of them an object
    of the bundle. *)
Theorem paging_prompt_invariant :
  forall (width : nat) (content0 content : Content) (inputs : list Session.Input)
         (techniques : list nat) (selected_actor : string)
         (total current_page : nat) (out : list Session.Output),
    Session.run width (content0, Session.MainMenu) inputs
    = Some ((content,
             Session.Paging techniques selected_actor total current_page), out) ->
    1 <= current_page <= total
    /\ Pager.total_pages techniques Pager.page_size = Ok total
    /\ 1 <= length (Pager.page_slice techniques Pager.page_size current_page) <= 5
    /\ length (Resolver.deref content
                 (Pager.page_slice techniques Pager.page_size current_page))
       = length (Pager.page_slice techniques Pager.page_size current_page).
Proof.
  intros width content0 content inputs techniques selected_actor total
         current_page out H.
  destruct (run_wf width inputs content0 content Session.MainMenu _ out I H)
    as [_ (Hne & Ht & Hr & Hv)].
  split; [exact Hr|]. split; [exact Ht|].
  pose proof (ceil_div_bounds _ _ _ Ht) as Hb. unfold Pager.page_size in *.
  split; [rewrite page_slice_length; nia|].
  apply deref_length. rewrite page_slice_take_drop.
  apply Forall_take, Forall_drop, Hv.
Qed.

(** Actor A of the six-entry bundle, on page 2 of 2. *)
Lemma paging_prompt_invariant_witness :
  exists content out,
    Session.run 80 (Samples.six_links, Session.MainMenu)
      [Session.PickMain Session.ThreatActors;
       Session.PickActor (Session.ViewBy Classifier.Geography);
       Session.Line "1"; Session.Line ""]
    = Some ((content, Session.Paging [1; 2; 1; 2; 1; 2] "A" 2 2), out)
    /\ 1 <= 2 <= 2.
Proof.
  eexists _, _.
  refine ((fun H => conj H (proj1 (paging_prompt_invariant 80 Samples.six_links
                                     _ _ _ _ _ _ _ H))) _).
  vm_compute. reflexivity.
Defined.

(** X9.  Whatever has been browsed in a session of super.py, the bundle
    differs from the one the session started with only in what
    [get_techniques_for_actor] wrote: the actor list, the tool dict and
    every resolver give what they give on the bundle as it was loaded. *)
Theorem session_views_unchanged :
  forall (width : nat) (content0 content : Content) (mode : Session.Mode)
         (inputs : list Session.Input) (out : list Session.Output),
    Session.run width (content0, Session.MainMenu) inputs
    = Some ((content, mode), out) ->
    Actors.get_all_threat_actors content = Actors.get_all_threat_actors content0
    /\ (forall n, Actors.get_actor_id content n = Actors.get_actor_id content0 n)
    /\ Resolver.load_tools content = Resolver.load_tools content0
    /\ (forall id, Resolver.get_techniques_for_tool content id
                   = Resolver.get_techniques_for_tool content0 id)
    /\ (forall id, Resolver.get_actors_for_tool content id
                   = Resolver.get_actors_for_tool content0 id)
    /\ (forall id, snd (Resolver.get_techniques_for_actor content id)
                   = snd (Resolver.get_techniques_for_actor content0 id))
    /\ (forall id, Resolver.techniques_seen content id
                   = Resolver.techniques_seen content0 id).
Proof.
  intros width content0 content mode inputs out H.
  apply views_same_raw.
  exact (proj1 (run_wf width inputs content0 content Session.MainMenu _ out I H)).
Qed.

(** The six-entry bundle after its actor has been browsed. *)
Lemma session_views_unchanged_witness :
  exists content mode out,
    Session.run 80 (Samples.six_links, Session.MainMenu)
      [Session.PickMain Session.ThreatActors;
       Session.PickActor (Session.ViewBy Classifier.Geography);
       Session.Line "1"]
    = Some ((content, mode), out)
    /\ content <> Samples.six_links
    /\ Actors.get_all_threat_actors content
       = Actors.get_all_threat_actors Samples.six_links.
Proof.
  eexists _, _, _. split; [vm_compute; reflexivity|].
  split; [discriminate|].
  refine (proj1 (session_views_unchanged 80 Samples.six_links _ _
                   [Session.PickMain Session.ThreatActors;
                    Session.PickActor (Session.ViewBy Classifier.Geography);
                    Session.Line "1"] _ _)).
  vm_compute. reflexivity.
Defined.

(** ** cti-tech.py's session *)

Section TechSessionFacts.

Import Resolver Pager Session TechSession.


End TechSessionFacts.



(** ** Which actors a grouped view shows *)

Section ShownFacts.

Import Actors Grouping PyStr PyNum Pager.

Lemma row_members_cons (bucket : string * list ActorSummary) (gs : Groups)
      (row : nat) :
  row_members (bucket :: gs) row
  = option_list (snd bucket !! row) ++ row_members gs row.
Proof.
  unfold row_members. cbn [omap list_omap].
  destruct (snd bucket !! row); reflexivity.
Qed.

Lemma take_S_option {A : Type} (l : list A) (n : nat) :
  take (S n) l = take n l ++ option_list (l !! n).
Proof.
  destruct (l !! n) as [x|] eqn:E.
  - now apply take_S_r.
  - apply lookup_ge_None in E. cbn [option_list].
    rewrite app_nil_r, !take_ge by lia. reflexivity.
Qed.

Lemma shown_S (gs : Groups) (n : nat) :
  Permutation (concat (map (fun b => take (S n) (snd b)) gs))
              (concat (map (fun b => take n (snd b)) gs) ++ row_members gs n).
Proof.
  induction gs as [|b gs IH]; [reflexivity|].
  cbn [map concat]. rewrite row_members_cons, take_S_option, IH.
  rewrite <- !app_assoc. apply Permutation_app_head.
  rewrite !app_assoc. apply Permutation_app_tail, Permutation_app_comm.
Qed.

(** A scan of [n] rows meets the first [n] members of every bucket. *)
Lemma scan_members_shown (gs : Groups) (n : nat) :
  Permutation (scan_members gs n)
              (concat (map (fun b => take n (snd b)) gs)).
Proof.
  unfold scan_members. induction n as [|n IH].
  - simpl. induction gs as [|b gs IHg]; [reflexivity|].
    cbn [map concat]. now rewrite take_0.
  - rewrite seq_S, flat_map_app. cbn [flat_map Nat.add].
    rewrite app_nil_r, IH. symmetry. apply shown_S.
Qed.

Lemma concat_bucket_append (k : string) (actor : ActorSummary) (gs : Groups) :
  Permutation (concat (map snd (bucket_append k actor gs)))
              (concat (map snd gs) ++ [actor]).
Proof.
  induction gs as [|[k' members] gs IH]; [reflexivity|].
  cbn [bucket_append]. destruct (String.eqb k' k); cbn [map concat snd].
  - rewrite <- !app_assoc. apply Permutation_app_head, Permutation_app_comm.
  - rewrite IH. now rewrite app_assoc.
Qed.

(** The buckets together hold every actor once. *)
Lemma group_actors_Permutation (key_of : ActorSummary -> string)
      (l : list ActorSummary) :
  Permutation (concat (map snd (group_actors key_of l))) l.
Proof.
  induction l as [|actor l IH] using rev_ind; [reflexivity|].
  rewrite group_actors_snoc, concat_bucket_append, IH. reflexivity.
Qed.

Lemma fold_max_spec (xs : list nat) (x : nat) :
  Forall (fun y => y <= fold_left Nat.max xs x) (x :: xs)
  /\ In (fold_left Nat.max xs x) (x :: xs).
Proof.
  revert x. induction xs as [|y xs IH]; intros x.
  - split; [repeat constructor | now left].
  - cbn [fold_left]. destruct (IH (Nat.max x y)) as [Hle Hin].
    apply Forall_cons in Hle as [H0 Hle]. split.
    + constructor; [lia|]. constructor; [lia | exact Hle].
    + destruct Hin as [Hin|Hin]; [|right; now right].
      destruct (Nat.max_spec x y) as [[_ E]|[_ E]].
      * right. left. congruence.
      * left. congruence.
Qed.

Lemma py_max_spec (xs : list nat) (m : nat) :
  py_max xs = Ok m -> Forall (fun y => y <= m) xs /\ In m xs.
Proof.
  destruct xs as [|x xs]; [discriminate|]. intros [= <-].
  apply fold_max_spec.
Qed.

Lemma shown_length_le (gs : Groups) (n : nat) :
  length (concat (map (fun b => take n (snd b)) gs))
  <= length (concat (map snd gs))
  /\ ((exists b, In b gs /\ n < length (snd b)) ->
      length (concat (map (fun b => take n (snd b)) gs))
      < length (concat (map snd gs))).
Proof.
  induction gs as [|b gs [IH1 IH2]].
  - split; [reflexivity|]. intros (b & [] & _).
  - cbn [map concat]. rewrite !length_app, length_take. split; [lia|].
    intros (b' & [<-|Hin] & Hlt); [lia|].
    assert (length (concat (map (fun b => take n (snd b)) gs))
            < length (concat (map snd gs))) by eauto.
    lia.
Qed.

Lemma shown_all (gs : Groups) (n : nat) :
  Forall (fun len => len <= n) (map (fun g => length (snd g)) gs) ->
  concat (map (fun b => take n (snd b)) gs) = concat (map snd gs).
Proof.
  induction gs as [|b gs IH]; [reflexivity|]. cbn [map concat].
  intros H. apply Forall_cons in H as [Hb H].
  rewrite take_ge by exact Hb. now rewrite IH.
Qed.

End ShownFacts.

(** X11.  A grouped view shows the first [num_rows] members of every bucket
    and nothing else, [num_rows] being the row count of the table.  On a
    terminal 15 to 29 columns wide the column count is 1, [num_rows] is the
    size of the largest bucket, and every actor is shown exactly once. *)
Theorem grouped_view_shows_leading_members :
  forall (key_of : Actors.ActorSummary -> string)
         (threat_actors : list Actors.ActorSummary) (width : nat)
         (table : Grouping.Table) (actor_list : list string),
    Grouping.display_grouped key_of threat_actors width
    = Ok (table, actor_list) ->
    Permutation actor_list
      (map Actors.name
           (concat (map (fun b => take (length (Grouping.rows table)) (snd b))
                        (Grouping.group_actors key_of threat_actors))))
    /\ (width < 30 ->
        Permutation actor_list (map Actors.name threat_actors)).
Proof.
  intros key_of threat_actors width table actor_list H.
  destruct (display_grouped_Ok _ _ _ _ _ H)
    as (max_actors & num_rows & Hmax & Hrows & -> & ->).
  cbn [Grouping.rows]. rewrite rows_from_length. split.
  - apply Permutation_map, scan_members_shown.
  - intros Hw.
    assert (Hnc : Nat.min 6 (width / 15) = 1).
    { assert (Hc : Nat.min 6 (width / 15) <> 0)
        by (intros Hz; rewrite Hz in Hrows; discriminate).
      pose proof (Nat.Div0.div_lt_upper_bound width 15 2). lia. }
    rewrite Hnc in Hrows. apply ceil_div_bounds in Hrows.
    assert (num_rows = max_actors) as -> by lia.
    apply Permutation_map. rewrite scan_members_shown.
    rewrite shown_all by (apply py_max_spec, Hmax).
    apply group_actors_Permutation.
Qed.

(** The three sample actors, 15 columns wide. *)
Lemma grouped_view_shows_leading_members_witness :
  exists table actor_list,
    Grouping.display_grouped Actors.geo_info Samples.three_actors 15
    = Ok (table, actor_list)
    /\ (15 < 30 ->
        Permutation actor_list (map Actors.name Samples.three_actors)).
Proof.
  eexists _, _.
  refine ((fun H => conj H (proj2 (grouped_view_shows_leading_members
                                     Actors.geo_info Samples.three_actors 15
                                     _ _ H))) _).
  vm_compute. reflexivity.
Defined.

(** X12.  On a terminal at least 30 columns wide, a grouped view in which
    some bucket has two or more members leaves actors out: [actor_list] is
    shorter than the list of actors, and the actors left out cannot be
    selected. *)
Theorem grouped_view_drops_actors :
  forall (key_of : Actors.ActorSummary -> string)
         (threat_actors : list Actors.ActorSummary) (width : nat)
         (table : Grouping.Table) (actor_list : list string) (k : string),
    Grouping.display_grouped key_of threat_actors width
    = Ok (table, actor_list) ->
    30 <= width ->
    2 <= length (filter (fun a => key_of a = k) threat_actors) ->
    length actor_list < length threat_actors.
Proof.
  intros key_of threat_actors width table actor_list k H Hw Hk.
  destruct (display_grouped_Ok _ _ _ _ _ H)
    as (max_actors & num_rows & Hmax & Hrows & -> & ->).
  set (groups := Grouping.group_actors key_of threat_actors) in *.
  rewrite length_map, (Permutation_length (scan_members_shown groups num_rows)).
  rewrite <- (Permutation_length (group_actors_Permutation key_of threat_actors)).
  fold groups. apply shown_length_le.
  destruct (py_max_spec _ _ Hmax) as [Hle Hin].
  apply in_map_iff in Hin as (b & Hb & Hin). exists b. split; [exact Hin|].
  rewrite Hb.
  (* the bucket of [k] is one of the buckets, so the largest has two members *)
  assert (Hkin : In (k, filter (fun a => key_of a = k) threat_actors) groups).
  { unfold groups. rewrite group_actors_closed.
    apply in_map_iff. exists k. split; [reflexivity|].
    apply list_elem_of_In, first_seen_elem.
    destruct (filter (fun a => key_of a = k) threat_actors) as [|a l] eqn:E;
      [cbn in Hk; lia|].
    assert (Ha : a ∈ filter (fun a => key_of a = k) threat_actors)
      by (rewrite E; apply elem_of_cons; now left).
    apply list_elem_of_filter in Ha as [Hka Ha].
    rewrite <- Hka. change (map key_of ?l) with (key_of <$> l).
    now apply list_elem_of_fmap_2. }
  assert (Hm : 2 <= max_actors).
  { rewrite Forall_forall in Hle.
    specialize (Hle (length (filter (fun a => key_of a = k) threat_actors))).
    etransitivity; [exact Hk|]. apply Hle, list_elem_of_In, in_map_iff.
    eexists. split; [|exact Hkin]. reflexivity. }
  assert (Hnc : 2 <= Nat.min 6 (width / 15)).
  { pose proof (Nat.div_le_lower_bound width 15 2). lia. }
  apply ceil_div_bounds in Hrows. nia.
Qed.

(** The three sample actors, 80 columns wide: APT41 is left out. *)
Lemma grouped_view_drops_actors_witness :
  exists table actor_list,
    Grouping.display_grouped Actors.geo_info Samples.three_actors 80
    = Ok (table, actor_list)
    /\ 30 <= 80
    /\ 2 <= length (filter (fun a => Actors.geo_info a = "China")
                           Samples.three_actors)
    /\ length actor_list < length Samples.three_actors.
Proof.
  eexists _, _.
  refine ((fun H =>
             conj H (conj _ (conj _
               (grouped_view_drops_actors Actors.geo_info Samples.three_actors
                  80 _ _ "China" H _ _)))) _);
    try (vm_compute; reflexivity); try lia; vm_compute; lia.
Defined.

(** X13.  The number shown in a cell of a grouped view selects the name
    shown in that cell: typing the decimal numeral in the [i]'th non-blank
    cell at the actor prompt yields the name that follows it in the cell. *)
Theorem grouped_view_number_selects_name :
  forall (key_of : Actors.ActorSummary -> string)
         (threat_actors : list Actors.ActorSummary) (width : nat)
         (table : Grouping.Table) (actor_list : list string)
         (i : nat) (cell : string),
    Grouping.display_grouped key_of threat_actors width
    = Ok (table, actor_list) ->
    Grouping.non_blank_cells (Grouping.scan_cells table) !! i = Some cell ->
    exists nm : string,
      cell = Grouping.cell_text (i + 1) nm
      /\ Pager.select actor_list (PyStr.str_of_nat (i + 1)) = Ok nm.
Proof.
  intros key_of threat_actors width table actor_list i cell H Hcell.
  destruct (display_grouped_Ok _ _ _ _ _ H)
    as (max_actors & num_rows & _ & _ & -> & ->).
  unfold Grouping.scan_cells in Hcell. cbn [Grouping.rows] in Hcell.
  rewrite rows_from_non_blank, list_lookup_imap in Hcell.
  unfold Grouping.scan_members.
  destruct (flat_map _ (seq 0 num_rows) !! i) as [actor|] eqn:E;
    [|discriminate].
  injection Hcell as <-. exists (Actors.name actor).
  split; [do 2 f_equal; lia|].
  apply select_Ok. exists (Z.of_nat (i + 1)).
  split; [apply py_int_str_of_nat|].
  assert (Hlt : i < length (flat_map (Grouping.row_members
                    (Grouping.group_actors key_of threat_actors))
                    (seq 0 num_rows))) by (eapply lookup_lt_Some, E).
  rewrite length_map. split; [lia|].
  replace (Z.to_nat (Z.of_nat (i + 1) - 1)) with i by lia.
  change (map Actors.name ?l) with (Actors.name <$> l).
  now rewrite list_lookup_fmap, E.
Qed.

(** Cell 3 of the sample view reads "3. APT41", and "3" selects APT41. *)
Lemma grouped_view_number_selects_name_witness :
  exists table actor_list,
    Grouping.display_grouped Actors.geo_info Samples.three_actors 15
    = Ok (table, actor_list)
    /\ Grouping.non_blank_cells (Grouping.scan_cells table) !! 2
       = Some "3. APT41"
    /\ exists nm : string,
        "3. APT41" = Grouping.cell_text (2 + 1) nm
        /\ Pager.select actor_list (PyStr.str_of_nat (2 + 1)) = Ok nm.
Proof.
  exists (Grouping.mkTable ["China"; "Russia"]
                           [["1. APT1"; "2. APT28"]; ["3. APT41"; ""]]),
         ["APT1"; "APT28"; "APT41"].
  assert (H : Grouping.display_grouped Actors.geo_info Samples.three_actors 15
              = Ok (Grouping.mkTable ["China"; "Russia"]
                      [["1. APT1"; "2. APT28"]; ["3. APT41"; ""]],
                    ["APT1"; "APT28"; "APT41"]))
    by (vm_compute; reflexivity).
  assert (H2 : Grouping.non_blank_cells
                 (Grouping.scan_cells
                    (Grouping.mkTable ["China"; "Russia"]
                       [["1. APT1"; "2. APT28"]; ["3. APT41"; ""]])) !! 2
               = Some "3. APT41")
    by (vm_compute; reflexivity).
  split; [exact H|]. split; [exact H2|].
  exact (grouped_view_number_selects_name
           Actors.geo_info Samples.three_actors 15 _ _ 2 "3. APT41" H H2).
Defined.

(** ** How many columns a grouped view can have *)

Section ColumnFacts.

Import Classifier Actors Grouping Session Views.

Lemma first_keyword_In (keywords : list string) (description k : string) :
  first_keyword keywords description = Some k -> In k keywords.
Proof.
  induction keywords as [|k' rest IH]; cbn [first_keyword]; [discriminate|].
  destruct (PyStr.contains (PyStr.lower k') (PyStr.lower description)).
  - intros [= <-]. now left.
  - intros H. right. auto.
Qed.

(** The tags an axis can give. *)
Lemma classify_values (description : string) (axis : Axis) :
  In (classify description axis)
     (axis_tags axis).
Proof.
  unfold axis_tags. rewrite classify_first_keyword. apply in_or_app.
  destruct (first_keyword (keywords_of axis) description) as [k|] eqn:E.
  - left. apply in_map, (first_keyword_In _ _ _ E).
  - right. now left.
Qed.

Lemma show_grouped_display (axis : Axis) (threat_actors : list ActorSummary)
      (width : nat) :
  show_grouped axis threat_actors width
  = display_grouped (axis_key axis) threat_actors width.
Proof. destruct axis; reflexivity. Qed.

Lemma summarize_key (axis : Axis) (obj : StixObject) :
  axis_key axis (summarize obj) = classify (description_or_empty obj) axis.
Proof. destruct axis; reflexivity. Qed.

Lemma threat_actor_keys (content : Content) (axis : Axis) (a : ActorSummary) :
  In a (get_all_threat_actors content) -> In (axis_key axis a) (axis_tags axis).
Proof.
  intros Ha. unfold get_all_threat_actors in Ha.
  eapply Permutation_in in Ha; [|apply sorted_Permutation].
  rewrite flat_map_summarize in Ha.
  apply in_map_iff in Ha as (obj & <- & _).
  rewrite summarize_key. apply classify_values.
Qed.

End ColumnFacts.

(** X14.  The grouped views of the actor list of a bundle have few columns:
    every column header is a tag of the axis (a keyword, capitalized for
    activity and sector, or the fallback), no header occurs twice, and so
    the geography view has at most 9 columns and the activity and sector
    views at most 7, however many actors the bundle holds. *)
Theorem grouped_view_columns_bounded :
  forall (attack_stix_content : Content) (axis : Classifier.Axis)
         (width : nat) (table : Grouping.Table) (actor_list : list string),
    Session.show_grouped axis
      (Actors.get_all_threat_actors attack_stix_content) width
    = Ok (table, actor_list) ->
    Forall (fun header => In header (Views.axis_tags axis))
           (Grouping.columns table)
    /\ NoDup (Grouping.columns table)
    /\ length (Grouping.columns table)
       <= match axis with Classifier.Geography => 9 | _ => 7 end.
Proof.
  intros content axis width table actor_list H.
  rewrite show_grouped_display in H.
  destruct (display_grouped_Ok _ _ _ _ _ H) as (_ & n & _ & _ & -> & _).
  cbn [Grouping.columns]. rewrite group_actors_closed, map_map. cbn [fst].
  rewrite map_id.
  set (keys := map (Views.axis_key axis)
                   (Actors.get_all_threat_actors content)).
  assert (Hsub : forall h, h ∈ Grouping.first_seen keys
                           -> h ∈ Views.axis_tags axis).
  { intros h Hh. apply (proj1 (first_seen_elem _ _)) in Hh. unfold keys in Hh.
    apply list_elem_of_In, in_map_iff in Hh as (a & <- & Ha).
    apply list_elem_of_In. eapply threat_actor_keys, Ha. }
  split; [|split].
  - apply Forall_forall. intros h Hh. apply list_elem_of_In. auto.
  - apply first_seen_NoDup.
  - pose proof (submseteq_length _ _
                  (NoDup_submseteq _ _ (first_seen_NoDup keys) Hsub)) as Hlen.
    destruct axis; exact Hlen.
Qed.

(** The geography view of the sample bundle's one actor. *)
Lemma grouped_view_columns_bounded_witness :
  exists table actor_list,
    Session.show_grouped Classifier.Geography
      (Actors.get_all_threat_actors Samples.small_bundle) 80
    = Ok (table, actor_list)
    /\ length (Grouping.columns table) <= 9.
Proof.
  eexists _, _.
  refine ((fun H => conj H (proj2 (proj2 (grouped_view_columns_bounded
                                            Samples.small_bundle
                                            Classifier.Geography 80 _ _ H))))
            _).
  vm_compute. reflexivity.
Defined.


(** ** The techniques table of the pager *)

Section TechniqueTableFacts.

Import PyStr Resolver Pager Display.

Lemma rows_enumerated_lookup (techniques : list StixObject) (i k : nat)
      (t : StixObject) :
  techniques !! k = Some t ->
  rows_enumerated i techniques !! k = Some (technique_row (i + k) t).
Proof.
  revert i k. induction techniques as [|t0 rest IH]; intros i k H;
    [discriminate|].
  destruct k as [|k]; cbn [rows_enumerated].
  - injection H as ->. simpl. now rewrite Nat.add_0_r.
  - simpl in H. simpl. rewrite (IH (i + 1) k H). do 2 f_equal. lia.
Qed.

Lemma rows_enumerated_length (techniques : list StixObject) (i : nat) :
  length (rows_enumerated i techniques) = length techniques.
Proof.
  revert i. induction techniques as [|t rest IH]; intros i; simpl;
    [reflexivity | now rewrite IH].
Qed.

Lemma enrich_fields (t : StixObject) :
  platforms (enrich t) = Some (platforms_of t)
  /\ kill_chain_phase (enrich t) = Some (phases_of t)
  /\ o_name (enrich t) = o_name t
  /\ o_description (enrich t) = o_description t.
Proof. destruct t. repeat split. Qed.

End TechniqueTableFacts.

(** X15.  The pager numbers the techniques through the pages: the technique
    at position [n] of the actor's list is shown on page [n / 5 + 1], in
    row [n mod 5] of that page's table, under the number [n + 1]; and a
    page's table has as many rows as the page has techniques. *)
Theorem technique_row_number_is_position :
  forall (techniques : list StixObject) (selected_actor : string)
         (n : nat) (t : StixObject),
    techniques !! n = Some t ->
    let current_page := n / Pager.page_size + 1 in
    let start_index := (current_page - 1) * Pager.page_size in
    let page_techniques :=
      Pager.page_slice techniques Pager.page_size current_page in
    let table :=
      Display.display_techniques page_techniques selected_actor
                                 (length techniques) (start_index + 1) in
    snd table !! (n mod Pager.page_size)
    = Some (Display.technique_row (n + 1) t)
    /\ length (snd table) = length page_techniques.
Proof.
  intros techniques selected_actor n t H current_page start_index
         page_techniques table.
  unfold table, Display.display_techniques. cbn [snd]. split.
  - assert (Hn : n = start_index + n mod Pager.page_size).
    { unfold start_index, current_page, Pager.page_size.
      pose proof (Nat.div_mod_eq n 5). lia. }
    assert (Hl : page_techniques !! (n mod Pager.page_size) = Some t).
    { unfold page_techniques. rewrite page_slice_lookup.
      - fold start_index. now rewrite <- Hn.
      - apply Nat.mod_upper_bound. discriminate. }
    rewrite (rows_enumerated_lookup _ _ _ _ Hl). do 2 f_equal. lia.
  - apply rows_enumerated_length.
Qed.

Lemma technique_row_number_is_position_witness :
  exists t,
    [Samples.technique_T1; Samples.technique_T2; Samples.technique_T1;
     Samples.technique_T2; Samples.technique_T1; Samples.technique_T2] !! 5
    = Some t
    /\ snd (Display.display_techniques
              (Pager.page_slice
                 [Samples.technique_T1; Samples.technique_T2;
                  Samples.technique_T1; Samples.technique_T2;
                  Samples.technique_T1; Samples.technique_T2]
                 Pager.page_size 2)
              "A" 6 6) !! 0
       = Some (Display.technique_row 6 t).
Proof.
  eexists. split; [reflexivity|].
  exact (proj1 (technique_row_number_is_position
                  [Samples.technique_T1; Samples.technique_T2;
                   Samples.technique_T1; Samples.technique_T2;
                   Samples.technique_T1; Samples.technique_T2]
                  "A" 5 Samples.technique_T2 eq_refl)).
Defined.

(** X16.  The fallbacks of [display_techniques] for the platform and the
    kill-chain cell are never used on what [get_techniques_for_actor]
    returns: every returned technique carries both keys.  The platform cell
    is the joined [x_mitre_platforms] of the stored object, and "N/A" when
    the object has none; the kill-chain cell is the joined phase names, and
    is empty, not "N/A", when the object has no [kill_chain_phases]. *)
Theorem technique_cells_come_from_resolver :
  forall (objs : list StixObject) (actor_id : string) (t : StixObject)
         (i : nat),
    In t (Resolver.techniques_seen (mkContent (Some objs)) actor_id) ->
    exists t0 : StixObject,
      In t0 objs /\ o_type t0 = "attack-pattern"
      /\ platforms t <> None /\ kill_chain_phase t <> None
      /\ Display.row_name (Display.technique_row i t) = o_name t0
      /\ Display.row_platform (Display.technique_row i t)
         = Resolver.platforms_of t0
      /\ Display.row_kill_chain (Display.technique_row i t)
         = Resolver.phases_of t0
      /\ (x_mitre_platforms t0 = None ->
          Display.row_platform (Display.technique_row i t) = "N/A")
      /\ (kill_chain_phases t0 = None ->
          Display.row_kill_chain (Display.technique_row i t) = "").
Proof.
  intros objs actor_id t i Hin.
  rewrite techniques_seen_closed in Hin.
  apply resolve_scan_In_inv in Hin as (r & j & t0 & Hr & Hl & Hf & ->).
  apply find_object_lookup in Hf as (Hj & Hty & Hid).
  exists t0. destruct (enrich_fields t0) as (Hp & Hk & Hn & Hd).
  unfold Display.technique_row. cbn [Display.row_name Display.row_platform
                                       Display.row_kill_chain].
  rewrite Hp, Hk, Hn.
  split; [apply list_elem_of_In; eapply list_elem_of_lookup_2, Hj|].
  split; [exact Hty|].
  repeat split; try discriminate.
  - intros E. unfold Resolver.platforms_of. now rewrite E.
  - intros E. unfold Resolver.phases_of. now rewrite E.
Qed.

Lemma technique_cells_come_from_resolver_witness :
  exists t0 : StixObject,
    In t0 [Samples.technique_T2;
           Samples.relationship "relationship--1" "uses" "intrusion-set--X1"
                                "attack-pattern--T2"]
    /\ Display.row_platform
         (Display.technique_row 1 (Resolver.enrich Samples.technique_T2))
       = Resolver.platforms_of t0
    /\ Display.row_kill_chain
         (Display.technique_row 1 (Resolver.enrich Samples.technique_T2))
       = Resolver.phases_of t0.
Proof.
  destruct (technique_cells_come_from_resolver
              [Samples.technique_T2;
               Samples.relationship "relationship--1" "uses"
                                    "intrusion-set--X1" "attack-pattern--T2"]
              "intrusion-set--X1" (Resolver.enrich Samples.technique_T2) 1)
    as (t0 & H1 & _ & _ & _ & _ & H2 & H3 & _).
  - vm_compute. left. reflexivity.
  - exists t0. split; [exact H1|]. split; [exact H2 | exact H3].
Defined.

(** ** Description lines in the techniques table *)

Section DescriptionFacts.

Import PyStr PyNum Display.

Lemma split_lines_cons (c : ascii) (s : string) :
  split_lines (String c s)
  = if Ascii.eqb c "010"%char then EmptyString :: split_lines s
    else match split_lines s with
         | line :: lines => String c line :: lines
         | [] => [String c EmptyString]
         end.
Proof.
  cbn [split_lines]. destruct (split_lines s) as [|line lines] eqn:E.
  - destruct s; simpl in E; [discriminate|].
    destruct (split_lines s); [discriminate|].
    destruct (Ascii.eqb a "010"%char); discriminate.
  - reflexivity.
Qed.

Lemma split_lines_no_newline (s : string) :
  Forall no_newline (split_lines s).
Proof.
  induction s as [|c s IH]; [repeat constructor|].
  rewrite split_lines_cons.
  destruct (Ascii.eqb_spec c "010"%char) as [->|Hc].
  - constructor; [exact I | exact IH].
  - destruct (split_lines s) as [|line lines].
    + repeat constructor. exact Hc.
    + inversion IH; subst. constructor; [split; assumption | assumption].
Qed.

Lemma split_lines_plain (s : string) :
  no_newline s -> split_lines s = [s].
Proof.
  induction s as [|c s IH]; intros H; [reflexivity|].
  destruct H as [Hc Hs]. rewrite split_lines_cons, (IH Hs).
  destruct (Ascii.eqb_spec c "010"%char); [contradiction | reflexivity].
Qed.

Lemma split_lines_app (x r : string) :
  no_newline x ->
  split_lines (x ++ nl ++ r) = x :: split_lines r.
Proof.
  induction x as [|c x IH]; intros H.
  - rewrite append_nil. unfold nl. rewrite append_cons, append_nil.
    now rewrite split_lines_cons.
  - destruct H as [Hc Hx]. rewrite append_cons, split_lines_cons, (IH Hx).
    destruct (Ascii.eqb_spec c "010"%char); [contradiction | reflexivity].
Qed.

(** Splitting what [join] built of newline-free lines gives the lines
    back. *)
Lemma split_lines_join (lines : list string) :
  lines <> [] -> Forall no_newline lines ->
  split_lines (join nl lines) = lines.
Proof.
  unfold join. induction lines as [|x lines IH]; intros Hne Hall;
    [contradiction|].
  inversion Hall as [|? ? Hx Hrest]; subst.
  destruct lines as [|y lines].
  - simpl. now apply split_lines_plain.
  - cbn [String.concat]. rewrite split_lines_app by exact Hx.
    f_equal. apply IH; [discriminate | exact Hrest].
Qed.

Lemma no_newline_app (s t : string) :
  no_newline s -> no_newline t -> no_newline (s ++ t).
Proof.
  induction s as [|c s IH]; intros Hs Ht; [now rewrite append_nil|].
  rewrite append_cons. destruct Hs. split; auto.
Qed.

Lemma no_newline_lstrip (s : string) : no_newline s -> no_newline (lstrip s).
Proof.
  induction s as [|c s IH]; intros H; [exact I|].
  cbn [lstrip]. destruct (is_space c); [apply IH, H | exact H].
Qed.

Lemma no_newline_rstrip (s : string) : no_newline s -> no_newline (rstrip s).
Proof.
  induction s as [|c s IH]; intros H; [exact I|].
  cbn [rstrip]. destruct H as [Hc Hs].
  destruct (is_space c && String.eqb (rstrip s) EmptyString);
    [exact I | split; auto].
Qed.

Lemma no_newline_strip (s : string) : no_newline s -> no_newline (strip s).
Proof. intros H. apply no_newline_rstrip, no_newline_lstrip, H. Qed.

Lemma no_newline_tail (s : string) : no_newline s -> no_newline (tail s).
Proof. destruct s; [auto | intros [_ H]; exact H]. Qed.

Lemma no_newline_format_line (line : string) :
  no_newline line -> no_newline (formatted_description_line line).
Proof.
  intros H. unfold formatted_description_line.
  destruct (String.prefix "*" (strip line)).
  - apply no_newline_app.
    + vm_compute. repeat split; discriminate.
    + apply no_newline_strip, no_newline_tail, H.
  - apply no_newline_app; [|exact H].
    vm_compute. repeat split; discriminate.
Qed.

Lemma split_lines_nonempty (s : string) : split_lines s <> [].
Proof.
  destruct s as [|c s]; [discriminate|]. rewrite split_lines_cons.
  destruct (Ascii.eqb c "010"%char); [discriminate|].
  destruct (split_lines s); discriminate.
Qed.

Lemma strip_space_cons (c : ascii) (s : string) :
  is_space c = true -> strip (String c s) = strip s.
Proof. intros H. unfold strip. cbn [lstrip]. now rewrite H. Qed.

Lemma rstrip_nonspace_cons (c : ascii) (s : string) :
  is_space c = false -> rstrip (String c s) = String c (rstrip s).
Proof. intros H. cbn [rstrip]. now rewrite H. Qed.

End DescriptionFacts.

(** X17.  [display_techniques] keeps the line structure of a description:
    the cell has one line for each line of the description, and each line
    of the cell is the formatted form of the description line at the same
    position. *)
Theorem description_cell_keeps_lines :
  forall description : string,
    Display.split_lines (Display.formatted_description description)
    = map Display.formatted_description_line (Display.split_lines description).
Proof.
  intros description. unfold Display.formatted_description.
  apply split_lines_join.
  - pose proof (split_lines_nonempty description) as H.
    destruct (Display.split_lines description); [contradiction | discriminate].
  - pose proof (split_lines_no_newline description) as H.
    induction H as [|line lines Hl _ IH]; constructor;
      [now apply no_newline_format_line | exact IH].
Qed.

(** X18.  A bullet line loses its first character, whatever that is.  A
    line that begins with the star is shown as the bullet and the trimmed
    text after the star.  A line whose star comes after a blank loses the
    blank instead: the star stays and is shown after the bullet. *)
Theorem bullet_line_drops_first_character :
  (forall rest : string,
      Display.formatted_description_line (String "*" rest)
      = ("[green]•[/green]" ++ Display.strip rest)%string)
  /\ (forall (c : ascii) (rest : string),
         PyNum.is_space c = true ->
         String.prefix "*" (Display.strip rest) = true ->
         exists text : string,
           Display.strip rest = String "*" text
           /\ Display.formatted_description_line (String c rest)
              = ("[green]•[/green]*" ++ text)%string).
Proof.
  split.
  - intros rest. unfold Display.formatted_description_line.
    replace (Display.strip (String "*" rest))
      with (String "*" (PyNum.rstrip rest)).
    + cbn [String.prefix Display.tail].
      destruct (ascii_dec "*" "*"); [|congruence].
      now destruct (PyNum.rstrip rest).
    + unfold Display.strip. cbn [PyNum.lstrip].
      replace (PyNum.is_space "*") with false by reflexivity.
      now rewrite rstrip_nonspace_cons.
  - intros c rest Hc Hp. unfold Display.formatted_description_line.
    rewrite (strip_space_cons _ _ Hc), Hp. cbn [Display.tail].
    apply prefix_iff in Hp as [text Hp].
    rewrite append_cons, append_nil in Hp.
    exists text. rewrite Hp. split; reflexivity.
Qed.

Lemma bullet_line_drops_first_character_witness :
  exists text : string,
    Display.strip "* indented" = String "*" text
    /\ Display.formatted_description_line " * indented"
       = ("[green]•[/green]*" ++ text)%string.
Proof.
  exact (proj2 bullet_line_drops_first_character " "%char "* indented"
               eq_refl eq_refl).
Defined.

(** ** The tool list and the tool panel of cti-tech.py *)

Section ToolMenuFacts.

Import PyStr Resolver Pager Session TechSession Display.

Lemma tool_items_lookup (tool_names : list string) (i k : nat)
      (tool : string) :
  tool_names !! k = Some tool ->
  tool_items i tool_names !! k
  = Some (("[bold yellow]" ++ str_of_nat (i + k) ++ "[/bold yellow]. "
           ++ tool ++ " ")%string,
          if ((i + k) mod 16 =? 0)%nat then (nl ++ nl)%string else "  ").
Proof.
  revert i k. induction tool_names as [|t0 rest IH]; intros i k H;
    [discriminate|].
  destruct k as [|k]; cbn [tool_items].
  - injection H as ->. simpl. now rewrite Nat.add_0_r.
  - simpl in H. simpl. rewrite (IH (i + 1) k H).
    replace (i + 1 + k) with (i + S k) by lia. reflexivity.
Qed.

Lemma tool_items_length (tool_names : list string) (i : nat) :
  length (tool_items i tool_names) = length tool_names.
Proof.
  revert i. induction tool_names as [|t rest IH]; intros i; simpl;
    [reflexivity | now rewrite IH].
Qed.

Lemma parse_choice_number (len k : nat) :
  k < len -> parse_choice len (str_of_nat (k + 1)) = Ok k.
Proof.
  intros Hk. apply parse_choice_Ok. exists (Z.of_nat (k + 1)).
  split; [apply py_int_str_of_nat|]. split; lia.
Qed.

End ToolMenuFacts.

(** X19.  The number that cti-tech.py prints before a tool selects that
    tool: the tool at position [k] of the list is printed with the number
    [k + 1], followed by a blank line after every sixteenth tool and by
    two blanks otherwise, and the line [k + 1] opens the panel of the tool
    stored at position [k], titled with the name that was printed. *)
Theorem tool_menu_number_selects_tool :
  forall (content : Content) (k : nat) (tool : string),
    TechSession.tool_names_of content !! k = Some tool ->
    Display.display_tools_in_columns (TechSession.tool_names_of content)
      !! (S k)
    = Some (("[bold yellow]" ++ PyStr.str_of_nat (k + 1)
             ++ "[/bold yellow]. " ++ tool ++ " ")%string,
            if ((k + 1) mod 16 =? 0)%nat
            then (Display.nl ++ Display.nl)%string else "  ")
    /\ exists (selected_tool_id : string) (entry : Resolver.ToolEntry),
        Resolver.load_tools content !! k = Some (selected_tool_id, entry)
        /\ Resolver.tool_name entry = tool
        /\ TechSession.tech_panel content (PyStr.str_of_nat (k + 1))
           = [Session.PrintedTools (TechSession.tool_names_of content);
              Session.PrintedRelated
                tool
                (Resolver.get_techniques_for_tool content selected_tool_id)
                (Resolver.get_actors_for_tool content selected_tool_id)].
Proof.
  intros content k tool H. split.
  - unfold Display.display_tools_in_columns. cbn [app].
    match goal with
    | |- (?a :: ?l) !! S ?i = _ => change ((a :: l) !! S i) with (l !! i)
    end.
    rewrite lookup_app_l
      by (rewrite tool_items_length; eapply lookup_lt_Some, H).
    rewrite (tool_items_lookup _ _ _ _ H).
    replace (1 + k) with (k + 1) by lia. reflexivity.
  - pose proof (lookup_lt_Some _ _ _ H) as Hk.
    unfold TechSession.tech_panel.
    rewrite (parse_choice_number _ _ Hk).
    unfold TechSession.tool_names_of in H.
    change (map ?f (Resolver.load_tools content))
      with (f <$> Resolver.load_tools content) in H.
    rewrite list_lookup_fmap in H.
    destruct (Resolver.load_tools content !! k) as [[id entry]|] eqn:E;
      [|discriminate].
    injection H as H. exists id, entry. rewrite H. auto.
Qed.

Lemma tool_menu_number_selects_tool_witness :
  exists (selected_tool_id : string) (entry : Resolver.ToolEntry),
    Resolver.load_tools Samples.small_bundle !! 0
    = Some (selected_tool_id, entry)
    /\ Resolver.tool_name entry = "Mimikatz".
Proof.
  destruct (proj2 (tool_menu_number_selects_tool
                     Samples.small_bundle 0 "Mimikatz" eq_refl))
    as (id & entry & H1 & H2 & _).
  exists id, entry. split; [exact H1 | exact H2].
Defined.

Section StringOrder.

Lemma ascii_compare_refl (a : ascii) : Ascii.compare a a = Eq.
Proof. unfold Ascii.compare. apply N.compare_refl. Qed.

Lemma ascii_compare_lt_trans (a b c : ascii) :
  Ascii.compare a b = Lt -> Ascii.compare b c = Lt -> Ascii.compare a c = Lt.
Proof. unfold Ascii.compare. rewrite !N.compare_lt_iff. lia. Qed.

Lemma string_compare_lt_trans (s1 s2 s3 : string) :
  String.compare s1 s2 = Lt -> String.compare s2 s3 = Lt ->
  String.compare s1 s3 = Lt.
Proof.
  revert s2 s3. induction s1 as [|a s1 IH]; intros [|b s2] [|c s3];
    simpl; try discriminate; try reflexivity.
  destruct (Ascii.compare a b) eqn:E1; try discriminate;
    destruct (Ascii.compare b c) eqn:E2; try discriminate; intros H1 H2.
  - apply Ascii.compare_eq_iff in E1, E2. subst.
    rewrite ascii_compare_refl. eapply IH; eassumption.
  - apply Ascii.compare_eq_iff in E1. subst. now rewrite E2.
  - apply Ascii.compare_eq_iff in E2. subst. now rewrite E1.
  - now rewrite (ascii_compare_lt_trans _ _ _ E1 E2).
Qed.

Lemma string_leb_trans (s1 s2 s3 : string) :
  String.leb s1 s2 = true -> String.leb s2 s3 = true ->
  String.leb s1 s3 = true.
Proof.
  unfold String.leb.
  destruct (String.compare s1 s2) eqn:E1; try discriminate;
    destruct (String.compare s2 s3) eqn:E2; try discriminate; intros _ _.
  - apply String.compare_eq_iff in E1, E2. subst.
    pose proof (string_leb_refl s3) as H. exact H.
  - apply String.compare_eq_iff in E1. subst. now rewrite E2.
  - apply String.compare_eq_iff in E2. subst. now rewrite E1.
  - now rewrite (string_compare_lt_trans _ _ _ E1 E2).
Qed.

Lemma string_length_append (s t : string) :
  String.length (s ++ t) = String.length s + String.length t.
Proof.
  induction s as [|a s IH]; [reflexivity|].
  rewrite append_cons. simpl. now rewrite IH.
Qed.

Lemma append_inj_r (s t u : string) : (s ++ u = t ++ u)%string -> s = t.
Proof.
  intros H.
  assert (Hlen : String.length s = String.length t).
  { apply (f_equal String.length) in H.
    rewrite !string_length_append in H. lia. }
  revert t H Hlen. induction s as [|a s IH]; intros [|b t] H Hlen;
    try discriminate; [reflexivity|].
  rewrite !append_cons in H. injection H as -> H.
  f_equal. apply IH; [exact H|]. simpl in Hlen. lia.
Qed.

End StringOrder.

Section PanelFacts.

Import PyStr Resolver Display.

Local Abbreviation header_of k := (nl ++ create_header k ++ nl)%string.

Lemma header_of_inj (k1 k2 : string) : header_of k1 = header_of k2 -> k1 = k2.
Proof.
  unfold create_header, nl. rewrite !append_cons, !append_nil.
  intros [= H]. eapply append_inj_r, H.
Qed.

Lemma header_texts_cons (cur : option string) (t : ToolTechnique)
      (rest : list ToolTechnique) :
  header_texts (technique_entries cur (t :: rest))
  = (if decide (Some (kill_chain t) = cur) then []
     else [header_of (kill_chain t)])
    ++ header_texts (technique_entries (Some (kill_chain t)) rest).
Proof.
  unfold header_texts. cbn [technique_entries].
  rewrite filter_app, map_app. f_equal.
  now destruct (decide (Some (kill_chain t) = cur)).
Qed.

Lemma headers_after (k : string) (l : list ToolTechnique) :
  StronglySorted (PySort.key_le kill_chain) l ->
  Forall (fun t => String.leb k (kill_chain t) = true) l ->
  NoDup (header_texts (technique_entries (Some k) l))
  /\ (forall h,
         h ∈ header_texts (technique_entries (Some k) l) <->
         exists t, t ∈ l /\ kill_chain t <> k /\ h = header_of (kill_chain t)).
Proof.
  intros Hs. revert k.
  induction Hs as [|t rest Hs IH Hle]; intros k Hk.
  - split; [constructor|]. intros h. split.
    + intros H. inversion H.
    + intros (t & H & _). inversion H.
  - inversion Hk as [|? ? Hkt Hkrest]; subst.
    rewrite header_texts_cons.
    destruct (decide (Some (kill_chain t) = Some k)) as [E|E].
    + injection E as E. cbn [app]. rewrite E.
      destruct (IH k Hkrest) as [Hnd Hmem]. split; [exact Hnd|].
      intros h. rewrite Hmem. split.
      * intros (t' & Ht' & Hne & ->). exists t'. split; [now right | auto].
      * intros (t' & Ht' & Hne & ->).
        apply elem_of_cons in Ht' as [->|Ht']; [congruence|].
        exists t'. auto.
    + assert (Hne : kill_chain t <> k) by congruence.
      assert (Hrest : Forall (fun t' => String.leb (kill_chain t)
                                                   (kill_chain t') = true) rest).
      { exact Hle. }
      destruct (IH (kill_chain t) Hrest) as [Hnd Hmem].
      cbn [app]. split.
      * constructor; [|exact Hnd].
        intros Hin. apply Hmem in Hin as (t' & _ & Hne' & Heq).
        apply header_of_inj in Heq. congruence.
      * intros h. rewrite elem_of_cons, Hmem. split.
        -- intros [->|(t' & Ht' & Hne' & ->)].
           ++ exists t. split; [now left | auto].
           ++ exists t'. split; [now right|]. split; [|reflexivity].
              intros Heq. apply Hne.
              apply String.leb_antisym; [|exact Hkt].
              rewrite <- Heq.
              rewrite Forall_forall in Hrest. now apply Hrest.
        -- intros (t' & Ht' & Hne' & ->).
           apply elem_of_cons in Ht' as [->|Ht']; [now left|].
           destruct (decide (kill_chain t' = kill_chain t)) as [Heq|Hneq].
           ++ left. now rewrite Heq.
           ++ right. exists t'. auto.
Qed.

Lemma key_le_StronglySorted (l : list ToolTechnique) :
  Sorted (PySort.key_le kill_chain) l ->
  StronglySorted (PySort.key_le kill_chain) l.
Proof.
  apply Sorted_StronglySorted. intros a b c. unfold PySort.key_le.
  apply string_leb_trans.
Qed.

End PanelFacts.

(** X20.  The panel of a tool prints one header for each kill-chain string
    among the tool's techniques: no header is printed twice, every printed
    header is the kill-chain string of one of the techniques, and every
    technique's kill-chain string has its header.  This rests on the order
    in which [get_techniques_for_tool] returns the techniques. *)
Theorem tool_panel_one_header_per_kill_chain :
  forall (attack_stix_content : Content) (tool_id : string),
    let techniques :=
      Resolver.get_techniques_for_tool attack_stix_content tool_id in
    let headers :=
      Display.header_texts (Display.technique_entries None techniques) in
    NoDup headers
    /\ forall h : string,
        In h headers <->
        exists t : Resolver.ToolTechnique,
          In t techniques
          /\ h = (Display.nl ++ Resolver.kill_chain t ++ Display.nl)%string.
Proof.
  intros content tool_id techniques headers.
  assert (Hs : StronglySorted (PySort.key_le Resolver.kill_chain) techniques).
  { apply key_le_StronglySorted, sorted_Sorted. }
  unfold headers. destruct Hs as [|t rest Hs Hle].
  - split; [constructor|]. intros h. split; [intros []|].
    intros (t & [] & _).
  - rewrite header_texts_cons.
    rewrite decide_False by discriminate. cbn [app].
    destruct (headers_after (Resolver.kill_chain t) rest Hs Hle)
      as [Hnd Hmem].
    split.
    + constructor; [|exact Hnd].
      intros Hin. apply Hmem in Hin as (t' & _ & Hne & Heq).
      apply header_of_inj in Heq. congruence.
    + intros h. rewrite <- list_elem_of_In, elem_of_cons, Hmem. split.
      * intros [->|(t' & Ht' & _ & ->)].
        -- exists t. split; [now left | reflexivity].
        -- exists t'. split; [right; now apply list_elem_of_In | reflexivity].
      * intros (t' & [<-|Ht'] & ->); [now left|].
        destruct (decide (Resolver.kill_chain t' = Resolver.kill_chain t))
          as [Heq|Hneq].
        -- left. now rewrite Heq.
        -- right. exists t'. split; [now apply list_elem_of_In | auto].
Qed.

(** ** [format_description] in the two scripts *)

Section SplitFacts.

Import PyStr Display.

Local Abbreviation chars := list_ascii_of_string.

Lemma append_nil_r (s : string) : (s ++ EmptyString)%string = s.
Proof.
  induction s as [|c s IH]; [reflexivity|]. now rewrite append_cons, IH.
Qed.

Lemma append_assoc (s t u : string) :
  ((s ++ t) ++ u)%string = (s ++ (t ++ u))%string.
Proof.
  induction s as [|c s IH]; [reflexivity|]. now rewrite !append_cons, IH.
Qed.

Lemma chars_app (s t : string) : chars (s ++ t) = chars s ++ chars t.
Proof.
  induction s as [|c s IH]; [reflexivity|].
  rewrite append_cons. simpl. now rewrite IH.
Qed.

Lemma concat_empty_cons (x : string) (l : list string) :
  String.concat EmptyString (x :: l)
  = (x ++ String.concat EmptyString l)%string.
Proof.
  destruct l as [|y l]; simpl; [now rewrite append_nil_r|].
  now rewrite append_nil.
Qed.

Lemma concat_empty_app (l1 l2 : list string) :
  String.concat EmptyString (l1 ++ l2)
  = (String.concat EmptyString l1 ++ String.concat EmptyString l2)%string.
Proof.
  induction l1 as [|x l1 IH]; [reflexivity|].
  rewrite <- app_comm_cons, !concat_empty_cons, IH. now rewrite append_assoc.
Qed.

Lemma no_newline_app_inv (s t : string) :
  no_newline (s ++ t) -> no_newline s /\ no_newline t.
Proof.
  induction s as [|c s IH].
  - rewrite append_nil. intros H. split; [exact I | exact H].
  - rewrite append_cons. intros [Hc H]. destruct (IH H). repeat split; auto.
Qed.

Lemma until_Some (close : ascii) (s inner rest : string) :
  until close s = Some (inner, rest) ->
  s = (inner ++ String close rest)%string.
Proof.
  revert inner. induction s as [|c s IH]; intros inner H; [discriminate|].
  cbn [until] in H. destruct (Ascii.eqb_spec c close) as [->|Hc].
  - now injection H as <- <-.
  - destruct (Ascii.eqb c "010"%char); [discriminate|].
    destruct (until close s) as [[inner' rest']|]; [|discriminate].
    injection H as <- <-. rewrite append_cons. f_equal. now apply IH.
Qed.

Lemma until_None (close : ascii) (s : string) :
  no_newline s -> until close s = None -> ~ In close (chars s).
Proof.
  induction s as [|c s IH]; intros Hs H; [intros []|].
  destruct Hs as [Hc Hs]. cbn [until] in H.
  destruct (Ascii.eqb_spec c close) as [->|Hne]; [discriminate|].
  destruct (Ascii.eqb_spec c "010"%char); [contradiction|].
  destruct (until close s) as [[inner rest]|]; [discriminate|].
  intros [Heq|Hin]; [contradiction | now apply IH].
Qed.

Lemma match_here_Some (s matched rest : string) :
  match_here s = Some (matched, rest) -> s = (matched ++ rest)%string.
Proof.
  destruct s as [|c s]; [discriminate|]. cbn [match_here].
  destruct (Ascii.eqb c "["%char).
  - destruct (until "]"%char s) as [[inner r]|] eqn:E; [|discriminate].
    intros [= <- <-]. apply until_Some in E.
    now rewrite append_cons, append_assoc, append_cons, append_nil, E.
  - destruct (Ascii.eqb c "("%char); [|discriminate].
    destruct (until ")"%char s) as [[inner r]|] eqn:E; [|discriminate].
    intros [= <- <-]. apply until_Some in E.
    now rewrite append_cons, append_assoc, append_cons, append_nil, E.
Qed.

Lemma match_here_shorter (s matched rest : string) :
  match_here s = Some (matched, rest) -> String.length rest < String.length s.
Proof.
  intros H. pose proof H as H'. apply match_here_Some in H'.
  rewrite H', string_length_append.
  destruct matched; [|simpl; lia].
  destruct s as [|c s]; [discriminate|]. cbn [match_here] in H.
  destruct (Ascii.eqb c "["%char).
  - destruct (until "]"%char s) as [[? ?]|]; discriminate.
  - destruct (Ascii.eqb c "("%char); [|discriminate].
    destruct (until ")"%char s) as [[? ?]|]; discriminate.
Qed.

(** [re.split] loses no character. *)
Lemma concat_re_split (fuel : nat) (s : string) :
  String.length s <= fuel ->
  String.concat EmptyString (re_split_from fuel s) = s.
Proof.
  revert s. induction fuel as [|fuel IH]; intros s Hlen; [reflexivity|].
  cbn [re_split_from].
  destruct (match_here s) as [[matched rest]|] eqn:E.
  - pose proof (match_here_shorter _ _ _ E) as Hr.
    rewrite !concat_empty_cons, IH by lia.
    rewrite append_nil. symmetry. now apply match_here_Some.
  - destruct s as [|c s]; [reflexivity|]. simpl in Hlen.
    specialize (IH s ltac:(lia)).
    destruct (re_split_from fuel s) as [|part parts].
    + simpl in IH. now subst.
    + rewrite concat_empty_cons in *. rewrite append_cons. now f_equal.
Qed.

Lemma endswith_In (a : ascii) (p : string) :
  endswith (String a EmptyString) p = true -> In a (chars p).
Proof.
  induction p as [|c p IH]; cbn [endswith]; intros H.
  - rewrite orb_false_r in H. apply String.eqb_eq in H. discriminate.
  - apply orb_true_iff in H as [H|H].
    + apply String.eqb_eq in H. injection H as -> _. now left.
    + right. now apply IH.
Qed.

Lemma prefix_one (a c : ascii) (t : string) :
  String.prefix (String a EmptyString) (String c t) = true -> a = c.
Proof.
  intros H. apply prefix_iff in H as [post H].
  rewrite append_cons in H. congruence.
Qed.

(** Where the pattern does not match, the text that begins there is in
    neither kind of brackets. *)
Lemma unmatched_plain (c : ascii) (s part rest : string) :
  no_newline s ->
  match_here (String c s) = None ->
  s = (part ++ rest)%string ->
  in_brackets (String c part) = false
  /\ in_parentheses (String c part) = false.
Proof.
  intros Hs Hm Heq. cbn [match_here] in Hm.
  assert (Hin : forall a, In a (chars part) -> In a (chars s)).
  { intros a Ha. rewrite Heq, chars_app. apply in_or_app. now left. }
  assert (Hends : forall close,
             until close s = None -> c <> close ->
             endswith (String close EmptyString) (String c part) = false).
  { intros close Hu Hne. apply not_true_is_false. intros He.
    cbn [endswith] in He. apply orb_true_iff in He as [He|He].
    - apply String.eqb_eq in He. congruence.
    - apply endswith_In in He. now apply (until_None _ _ Hs Hu), Hin. }
  unfold in_brackets, in_parentheses. split.
  - destruct (String.prefix "[" (String c part)) eqn:Ep; [|reflexivity].
    apply prefix_one in Ep as <-. cbn [Ascii.eqb Bool.eqb] in Hm.
    destruct (until "]"%char s) as [[? ?]|] eqn:Eu; [discriminate|].
    rewrite Hends; [reflexivity | exact Eu | discriminate].
  - destruct (String.prefix "(" (String c part)) eqn:Ep; [|reflexivity].
    apply prefix_one in Ep as <-. cbn [Ascii.eqb Bool.eqb] in Hm.
    destruct (until ")"%char s) as [[? ?]|] eqn:Eu; [discriminate|].
    rewrite Hends; [reflexivity | exact Eu | discriminate].
Qed.

(** The parts of a line alternate between text outside brackets and
    matches of the pattern. *)
Lemma re_split_alternating (fuel : nat) (s : string) :
  no_newline s -> String.length s <= fuel ->
  alternating (re_split_from fuel s).
Proof.
  revert s. induction fuel as [|fuel IH]; intros s Hs Hlen.
  - destruct s; [|simpl in Hlen; lia]. now constructor.
  - cbn [re_split_from].
    destruct (match_here s) as [[matched rest]|] eqn:E.
    + pose proof (match_here_shorter _ _ _ E) as Hr.
      constructor; [reflexivity | reflexivity|].
      apply IH; [|lia].
      apply match_here_Some in E. rewrite E in Hs.
      now apply no_newline_app_inv in Hs.
    + destruct s as [|c s]; [now constructor|].
      destruct Hs as [Hc Hs]. simpl in Hlen.
      pose proof (IH s Hs ltac:(lia)) as Halt.
      pose proof (concat_re_split fuel s ltac:(lia)) as Hcat.
      destruct Halt as [text Hb Hp | text matched parts Hb Hp Halt].
      * destruct (unmatched_plain c s text EmptyString Hs E) as [H1 H2].
        { simpl in Hcat. now rewrite append_nil_r. }
        now constructor.
      * rewrite concat_empty_cons in Hcat.
        destruct (unmatched_plain c s text _ Hs E (eq_sym Hcat)) as [H1 H2].
        now constructor.
Qed.

Lemma format_parts_alternating (parts : list string) :
  alternating parts ->
  forall skip_newline : bool,
    Tech.format_parts skip_newline parts
    = flat_map Tech.break_before (map Super.format_part parts).
Proof.
  induction 1 as [text Hb Hp | text matched parts Hb Hp Halt IH];
    intros skip_newline.
  - cbn [Tech.format_parts map flat_map]. unfold Super.format_part.
    rewrite Hb, Hp. reflexivity.
  - cbn [Tech.format_parts map flat_map]. unfold Super.format_part.
    rewrite Hb, Hp.
    destruct (in_brackets matched); [|destruct (in_parentheses matched)];
      rewrite IH; reflexivity.
Qed.

Lemma plain_app (l1 l2 : list Piece) :
  plain (l1 ++ l2) = (plain l1 ++ plain l2)%string.
Proof. unfold plain. now rewrite map_app, concat_empty_app. Qed.

Lemma plain_format_parts (parts : list string) :
  plain (map Super.format_part parts) = String.concat EmptyString parts.
Proof.
  unfold plain. rewrite map_map. f_equal.
  rewrite <- (map_id parts) at 2. apply map_ext. intros part.
  unfold Super.format_part.
  destruct (in_brackets part); [|destruct (in_parentheses part)]; reflexivity.
Qed.

End SplitFacts.

(** X21.  cti-tech.py formats a description as super.py does, with a line
    break and the indentation put before every part in brackets or
    parentheses, and before every such part: the flag [skip_newline] never
    holds one back, since between two such parts of a line there is always
    a part of ordinary text, which resets it. *)
Theorem tech_description_is_super_with_breaks :
  forall text : string,
    Display.Tech.format_description text
    = flat_map Display.Tech.break_before
               (Display.Super.format_description text).
Proof.
  intros text.
  unfold Display.Tech.format_description, Display.Super.format_description.
  pose proof (split_lines_no_newline text) as H.
  induction H as [|line lines Hl _ IH]; [reflexivity|].
  cbn [flat_map]. rewrite IH, !flat_map_app. f_equal.
  unfold Display.Tech.formatted_line, Display.Super.formatted_line.
  cbn [flat_map app].
  change (Display.Tech.break_before ("    ", None))
    with [("    ", @None string)].
  change (Display.Tech.break_before (Display.nl, None))
    with [(Display.nl, @None string)].
  cbn [app]. f_equal. f_equal.
  apply format_parts_alternating, re_split_alternating; [exact Hl | lia].
Qed.

(** X22.  [format_description] of super.py only colours: the characters of
    its result are the lines of the description, each after four blanks
    and before a newline, with no character of a line lost, added or
    moved. *)
Theorem super_description_only_colours :
  forall text : string,
    Display.plain (Display.Super.format_description text)
    = String.concat EmptyString
        (map (fun line => ("    " ++ line ++ Display.nl)%string)
             (Display.split_lines text)).
Proof.
  intros text. unfold Display.Super.format_description.
  induction (Display.split_lines text) as [|line lines IH]; [reflexivity|].
  cbn [flat_map map]. rewrite !plain_app, IH, concat_empty_cons.
  f_equal. unfold Display.Super.formatted_line.
  change (("    ", None) :: ?l) with ([("    ", @None string)] ++ l).
  rewrite plain_app, plain_format_parts.
  unfold Display.re_split. rewrite concat_re_split by lia.
  rewrite append_assoc. reflexivity.
Qed.


(** ** cti-ta.py against super.py *)

Section TaSessionFacts.

Import Actors Resolver Pager Session TaSession Frame.

Lemma step_in_super (content0 content : Content) (mode : TaMode)
      (width : nat) (input : TaInput) :
  same_raw content content0 ->
  Session.run width (content, mode_in_super mode) (in_super input)
  = result_in_super
      (TaSession.step (get_all_threat_actors content0) width
                      (content, mode) input)
  /\ (forall content' mode' out,
         TaSession.step (get_all_threat_actors content0) width
                        (content, mode) input
         = Some ((content', mode'), out) ->
         same_raw content' content0).
Proof.
  intros Hraw.
  pose proof (proj1 (views_same_raw _ _ Hraw)) as Hactors.
  destruct mode, input as [[axis|]|text]; cbn [in_super mode_in_super];
    try (split; [reflexivity | intros ? ? ?; cbn; congruence]).
  - cbn [Session.run Session.step TaSession.step]. rewrite Hactors.
    destruct (show_grouped axis (get_all_threat_actors content0) width)
      as [[table actor_list]|e]; cbn.
    + split; [reflexivity|]. intros ? ? ? [= <- _ _]. exact Hraw.
    + split; [reflexivity|]. intros ? ? ? [= <- _ _]. exact Hraw.
  - cbn [Session.run Session.step TaSession.step].
    destruct (select actor_list text) as [selected_actor|[]]; cbn;
      try (split; [reflexivity|]; intros ? ? ? [= <- _ _]; exact Hraw).
    unfold Session.open_actor, TaSession.open_actor.
    destruct (get_actor_id content selected_actor) as [actor_id|]; cbn;
      [|split; [reflexivity|]; intros ? ? ? [= <- _ _]; exact Hraw].
    destruct (String.eqb actor_id ""); cbn;
      [split; [reflexivity|]; intros ? ? ? [= <- _ _]; exact Hraw|].
    pose proof (same_raw_after_call content actor_id) as Hcall.
    destruct (get_techniques_for_actor content actor_id)
      as [content' techniques]. cbn [fst] in Hcall.
    assert (Hraw' : same_raw content' content0)
      by (eapply same_raw_trans; eassumption).
    destruct techniques as [|j techniques]; cbn;
      [split; [reflexivity|]; intros ? ? ? [= <- _ _]; exact Hraw'|].
    destruct (total_pages (j :: techniques) page_size) as [total|e]; cbn;
      split; try reflexivity; intros ? ? ? [= <- _ _]; exact Hraw'.
  - cbn [Session.run Session.step TaSession.step].
    destruct (pager_step total current_page text) as [|p invalid]; cbn.
    + split; [reflexivity|]. intros ? ? ? [= <- _ _]. exact Hraw.
    + rewrite app_nil_r. split; [reflexivity|].
      intros ? ? ? [= <- _ _]. exact Hraw.
Qed.

Lemma run_app (width : nat) (st : State) (l1 l2 : list Input) :
  Session.run width st (l1 ++ l2)
  = match Session.run width st l1 with
    | None => None
    | Some (st', out) =>
        match Session.run width st' l2 with
        | None => None
        | Some (st'', out') => Some (st'', out ++ out')
        end
    end.
Proof.
  revert st. induction l1 as [|input l1 IH]; intros st.
  - cbn. now destruct (Session.run width st l2) as [[? ?]|].
  - cbn [app Session.run].
    destruct (Session.step width st input) as [[st' out]|]; [|reflexivity].
    rewrite IH. destruct (Session.run width st' l1) as [[st1 out1]|];
      [|reflexivity].
    destruct (Session.run width st1 l2) as [[st2 out2]|]; [|reflexivity].
    now rewrite app_assoc.
Qed.

Lemma run_in_super (content0 : Content) (width : nat)
      (inputs : list TaInput) (content : Content) (mode : TaMode) :
  same_raw content content0 ->
  Session.run width (content, mode_in_super mode) (flat_map in_super inputs)
  = result_in_super
      (TaSession.run (get_all_threat_actors content0) width
                     (content, mode) inputs).
Proof.
  revert content mode. induction inputs as [|input inputs IH];
    intros content mode Hraw; [reflexivity|].
  cbn [flat_map TaSession.run]. rewrite run_app.
  destruct (step_in_super content0 content mode width input Hraw)
    as [Hstep Hkeep].
  rewrite Hstep.
  destruct (TaSession.step (get_all_threat_actors content0) width
                           (content, mode) input)
    as [[[content' mode'] out]|]; [|reflexivity].
  cbn [result_in_super]. rewrite (IH content' mode' (Hkeep _ _ _ eq_refl)).
  destruct (TaSession.run (get_all_threat_actors content0) width
                          (content', mode') inputs)
    as [[[content'' mode''] out']|]; reflexivity.
Qed.

End TaSessionFacts.

(** X23.  A session of cti-ta.py is the session of super.py in which every
    view is asked for through 'Threat Actors' in the main menu: the two
    print the same, end at the same prompt and leave the same bundle, and
    one is stuck on an input exactly when the other is.  That cti-ta.py
    computes the actor list once, before the loop, and super.py at every
    visit of the menu makes no difference, although the bundle is written
    to in between. *)
Theorem cti_ta_session_is_super_session :
  forall (width : nat) (attack_stix_content : Content)
         (inputs : list TaSession.TaInput),
    Session.run width (attack_stix_content, Session.MainMenu)
                (flat_map TaSession.in_super inputs)
    = TaSession.result_in_super
        (TaSession.main width attack_stix_content inputs).
Proof.
  intros width content inputs. unfold TaSession.main.
  apply (run_in_super content width inputs content TaSession.Menu).
  apply same_raw_refl.
Qed.


(** ** The tool dict *)

Section ToolDictFacts.

Import Resolver Grouping.

Context {V : Type}.

Lemma dict_set_keys (k : string) (v : V) (d : list (string * V)) :
  map fst (dict_set k v d)
  = if decide (k ∈ map fst d) then map fst d else map fst d ++ [k].
Proof.
  induction d as [|[k0 v0] d IH]; [reflexivity|].
  cbn [dict_set map fst]. destruct (String.eqb_spec k0 k) as [->|Hne].
  - rewrite decide_True by apply list_elem_of_here. reflexivity.
  - cbn [map fst]. rewrite IH.
    destruct (decide (k ∈ map fst d)) as [Hin|Hin].
    + rewrite decide_True by (now apply list_elem_of_further). reflexivity.
    + rewrite decide_False; [reflexivity|].
      intros H. apply elem_of_cons in H as [H|H]; [congruence | auto].
Qed.

Lemma dict_set_elem (k : string) (v : V) (d : list (string * V))
      (k' : string) (v' : V) :
  NoDup (map fst d) ->
  (k', v') ∈ dict_set k v d
  <-> (k' = k /\ v' = v) \/ (k' <> k /\ (k', v') ∈ d).
Proof.
  induction d as [|[k0 v0] d IH]; intros Hnd.
  - cbn [dict_set]. rewrite list_elem_of_singleton. split.
    + intros [= -> ->]. now left.
    + intros [[-> ->]|[_ H]]; [reflexivity | inversion H].
  - cbn [map fst] in Hnd. apply NoDup_cons in Hnd as [Hk0 Hnd].
    assert (Hrest : forall w, (k0, w) ∈ d -> False).
    { intros w Hw. apply Hk0.
      apply (list_elem_of_fmap_2 fst) in Hw. exact Hw. }
    cbn [dict_set]. destruct (String.eqb_spec k0 k) as [->|Hne].
    + rewrite !elem_of_cons. split.
      * intros [[= -> ->]|H]; [now left|].
        right. split; [|now right]. intros ->. eapply Hrest, H.
      * intros [[-> ->]|[Hk [[= -> ->]|H]]]; [now left | congruence | now right].
    + rewrite !elem_of_cons, (IH Hnd). split.
      * intros [[= -> ->]|[[-> ->]|[Hk H]]].
        -- right. split; [congruence | now left].
        -- now left.
        -- right. split; [exact Hk | now right].
      * intros [[-> ->]|[Hk [[= -> ->]|H]]].
        -- right. now left.
        -- now left.
        -- right. right. auto.
Qed.

End ToolDictFacts.

(** X24.  The tool dict has one entry for each id that a tool object of
    the bundle carries, in the order in which the ids first occur; the
    entry of an id holds the name and the description of the last tool
    object with that id, with "No description available" for an object
    that has no description. *)
Theorem load_tools_first_position_last_value :
  forall objs : list StixObject,
    let tools := Resolver.load_tools (mkContent (Some objs)) in
    let tool_objs := filter (fun obj => o_type obj = "tool") objs in
    map fst tools = Grouping.first_seen (map o_id tool_objs)
    /\ NoDup (map fst tools)
    /\ forall (id : string) (entry : Resolver.ToolEntry),
        In (id, entry) tools <->
        exists pre obj post,
          tool_objs = pre ++ obj :: post
          /\ o_id obj = id
          /\ Forall (fun later => o_id later <> id) post
          /\ Resolver.tool_name entry = o_name obj
          /\ Resolver.tool_description entry
             = match o_description obj with
               | Some d => d
               | None => "No description available"
               end.
Proof.
  intros objs tools tool_objs.
  assert (H : map fst tools = Grouping.first_seen (map o_id tool_objs)
              /\ forall id entry,
                  (id, entry) ∈ tools <->
                  exists pre obj post,
                    tool_objs = pre ++ obj :: post
                    /\ o_id obj = id
                    /\ Forall (fun later => o_id later <> id) post
                    /\ Resolver.tool_name entry = o_name obj
                    /\ Resolver.tool_description entry
                       = match o_description obj with
                         | Some d => d
                         | None => "No description available"
                         end).
  { unfold tools, tool_objs, Resolver.load_tools, get_objects.
    cbn [objects]. clear tools tool_objs.
    induction objs as [|o objs [IHk IHe]] using rev_ind.
    - split; [reflexivity|]. intros id entry. split.
      + intros H. inversion H.
      + intros (pre & obj & post & H & _). now destruct pre.
    - rewrite fold_left_app, filter_app. cbn [fold_left].
      rewrite filter_cons, filter_nil.
      destruct (String.eqb_spec (o_type o) "tool") as [Ht|Ht].
      + rewrite decide_True by exact Ht. split.
        * rewrite dict_set_keys, IHk, map_app. cbn [map].
          now rewrite first_seen_snoc.
        * intros id entry. rewrite dict_set_elem
            by (rewrite IHk; apply first_seen_NoDup).
          rewrite IHe. split.
          -- intros [[-> ->]|[Hne (pre & obj & post & Heq & H)]].
             ++ exists (filter (fun obj => o_type obj = "tool") objs), o, [].
                repeat split; auto.
             ++ exists pre, obj, (post ++ [o]).
                destruct H as (Hid & Hpost & Hn & Hd).
                rewrite Heq, <- app_assoc, <- app_comm_cons.
                repeat split; auto.
                apply Forall_app. split; [exact Hpost|].
                constructor; [congruence | constructor].
          -- intros (pre & obj & post & Heq & Hid & Hpost & Hn & Hd).
             destruct post as [|x post _] using rev_ind.
             ++ apply app_inj_tail in Heq as [_ <-].
                left. split; [congruence|].
                destruct entry; cbn in *. congruence.
             ++ rewrite app_comm_cons, app_assoc in Heq.
                apply app_inj_tail in Heq as [Heq <-].
                apply Forall_app in Hpost as [Hpost Ho].
                right. split; [inversion Ho; congruence|].
                exists pre, obj, post. auto.
      + rewrite decide_False by exact Ht. rewrite app_nil_r.
        split; assumption. }
  destruct H as [Hk He]. split; [exact Hk|]. split.
  - rewrite Hk. apply first_seen_NoDup.
  - intros id entry. rewrite <- list_elem_of_In. apply He.
Qed.
